(** * Biomarker extraction and risk assessment: a shallow embedding of
    [server/biomarker_analyzer.py]

    The development follows the source file top-down: Python strings and
    numbers, the module-level registry [BIOMARKER_RANGES], the regular
    expressions of [extract_biomarkers_from_text] and the function itself,
    [genai_extract_biomarkers], [assess_biomarker_risk] and [analyze_report].
    Definitions come first, the theorems about them afterwards. *)

From Stdlib Require Import List ZArith NArith QArith Bool String Ascii Lia.
From Stdlib Require Import Permutation.
Import ListNotations.

Set Implicit Arguments.
Close Scope Q_scope.

(** ** Python strings

    A Python [str] is a sequence of Unicode code points.  The source contains
    two non-ASCII code points (U+00CE and U+00B1, in one alias), and report
    text is arbitrary, so a character is a code point, not a byte. *)

Module PyStr.

Local Open Scope N_scope.

Definition char := N.
Bind Scope N_scope with char.
Definition str := list char.

(** ASCII string literals of the source, as code points. *)
Definition u (s : string) : str := map N_of_ascii (list_ascii_of_string s).

Definition str_eqb (a b : str) : bool :=
  if list_eq_dec N.eq_dec a b then true else false.

Definition in_range (lo hi c : char) : bool := ((lo <=? c) && (c <=? hi))%N.

(** [str.isspace] on one code point, which is also the regular expression
    class [\s] of a [str] pattern: the C0 controls 9..13 and 28..31, the
    space, and the Unicode separators. *)
Definition isspace (c : char) : bool :=
  in_range 9 13 c || in_range 28 31 c || (c =? 32)%N || (c =? 133)%N
  || (c =? 160)%N || (c =? 5760)%N || in_range 8192 8202 c
  || (c =? 8232)%N || (c =? 8233)%N || (c =? 8239)%N || (c =? 8287)%N
  || (c =? 12288)%N.

Definition is_digit (c : char) : bool := in_range 48 57 c.

(** [s.replace(old, '')] and [s.replace(old, new)] for a one-character
    [old]. *)
Definition remove_char (old : char) (s : str) : str :=
  filter (fun c => negb (c =? old)%N) s.

Definition replace_char (old new : char) (s : str) : str :=
  map (fun c => if (c =? old)%N then new else c) s.

(** [s.startswith(c)] for a one-character prefix. *)
Definition startswith_char (c : char) (s : str) : bool :=
  match s with
  | x :: _ => (x =? c)%N
  | [] => false
  end.

(** ASCII lower-casing of one code point. *)
Definition ascii_lower (c : char) : char :=
  if in_range 65 90 c then (c + 32)%N else c.

End PyStr.
Export PyStr.

(** ** Python floats

    A finite [float] is an IEEE-754 binary64 number; it is represented by its
    exact rational value, so comparisons are exact, as Python's are (also
    between a float and an int).  The two zeros are identified: they compare
    equal and the program only compares.  [round_double] is rounding to
    nearest, ties to even, with gradual underflow, which is what [float(str)]
    and float literals perform. *)

Module PyFloat.

Local Open Scope Z_scope.

Inductive pyfloat :=
| Finite (q : Q)
| PosInf
| NegInf
| NaN.

(** [q * 2^e <= p], for [0 < q]. *)
Definition scaled_le (p q e : Z) : bool :=
  if (0 <=? e)%Z then (q * 2 ^ e <=? p)%Z else (q <=? p * 2 ^ (- e))%Z.

(** [floor (log2 (p / q))] for [0 < p] and [0 < q]. *)
Definition binade (p q : Z) : Z :=
  let e0 := (Z.log2 p - Z.log2 q)%Z in
  if scaled_le p q e0 then e0 else (e0 - 1)%Z.

(** [a / b] rounded to the nearest integer, ties to even ([0 <= a], [0 < b]). *)
Definition round_half_even (a b : Z) : Z :=
  let d := (a / b)%Z in
  let r := (a mod b)%Z in
  match (2 * r ?= b)%Z with
  | Lt => d
  | Gt => (d + 1)%Z
  | Eq => if Z.even d then d else (d + 1)%Z
  end.

(** [m * 2^t] as a reduced rational. *)
Definition dyadic (m t : Z) : Q :=
  if (0 <=? t)%Z then inject_Z (m * 2 ^ t)
  else Qred (Qmake m (Z.to_pos (2 ^ (- t)))).

(** The binary64 number nearest to [p / q], for [0 <= p] and [0 < q]:
    53 significant bits, least exponent -1022 (below it the spacing stays
    2^-1074), overflow to infinity from 2^1024 on. *)
Definition round_double (p q : Z) : pyfloat :=
  if (p =? 0)%Z then Finite 0%Q
  else
    let e := Z.max (binade p q) (-1022) in
    let t := (e - 52)%Z in
    let m := if (0 <=? t)%Z then round_half_even p (q * 2 ^ t)
             else round_half_even (p * 2 ^ (- t)) q in
    if scaled_le m (2 ^ 1024) (- t) then PosInf else Finite (dyadic m t).

Definition float_neg (x : pyfloat) : pyfloat :=
  match x with
  | Finite q => Finite (Qred (Qopp q))
  | PosInf => NegInf
  | NegInf => PosInf
  | NaN => NaN
  end.

(** A Python number literal of the source: the decimal [n / 10^d].  An int
    literal ([d = 0]) is exact; a float literal is the nearest double. *)
Definition int_lit (n : Z) : pyfloat := Finite (inject_Z n).
Definition float_lit (n : Z) (d : nat) : pyfloat :=
  round_double n (10 ^ Z.of_nat d).

Definition Qltb (a b : Q) : bool :=
  match Qcompare a b with Lt => true | _ => false end.

(** [x < y] on Python numbers; every comparison with NaN is false. *)
Definition float_ltb (x y : pyfloat) : bool :=
  match x, y with
  | NaN, _ | _, NaN => false
  | Finite a, Finite b => Qltb a b
  | NegInf, NegInf => false
  | NegInf, _ => true
  | _, PosInf => match x with PosInf => false | _ => true end
  | _, _ => false
  end.

Definition float_gtb (x y : pyfloat) : bool := float_ltb y x.

(** The value of a string of ASCII digits, most significant first. *)
Definition digits_value (ds : str) : Z :=
  fold_left (fun acc c => (10 * acc + (Z.of_N c - 48))%Z) ds 0%Z.

(** The characters [float(str)] strips from both ends.  CPython first
    turns every non-ASCII white-space character into a space and leaves
    ASCII characters alone, then strips the C white space 9..13 and 32: the
    ASCII separators 28..31, though [str.isspace] accepts them, are not
    stripped and make the conversion fail. *)
Definition float_space (c : char) : bool :=
  (in_range 9 13 c || (c =? 32) || ((127 <? c) && isspace c))%N.

Fixpoint lstrip (s : str) : str :=
  match s with
  | c :: t => if float_space c then lstrip t else s
  | [] => []
  end.

Definition strip (s : str) : str := rev (lstrip (rev (lstrip s))).

(** Split a string at its leading run of ASCII digits. *)
Fixpoint span_digits (s : str) : str * str :=
  match s with
  | c :: t => if is_digit c then let (d, r) := span_digits t in (c :: d, r)
              else ([], s)
  | [] => ([], [])
  end.

(** An unsigned decimal numeral [digits], [digits.], [digits.digits] or
    [.digits]. *)
Definition parse_unsigned (s : str) : option pyfloat :=
  let (ip, r) := span_digits s in
  match r with
  | [] => match ip with
          | [] => None
          | _ => Some (round_double (digits_value ip) 1)
          end
  | c :: r' =>
      if (c =? 46)%N then
        let (fp, r'') := span_digits r' in
        match r'', ip ++ fp with
        | [], _ :: _ =>
            Some (round_double (digits_value (ip ++ fp))
                               (10 ^ Z.of_nat (List.length fp)))
        | _, _ => None
        end
      else None
  end.

(** [float(s)] for a [str] argument; [None] stands for [ValueError].
    Modelled: surrounding white space, an optional sign, and a plain decimal
    numeral.  The exponent, underscore, [inf] and [nan] forms and non-ASCII
    digits are left out (the model answers [None] there): no token of the
    program's number pattern has them. *)
Definition py_float (s : str) : option pyfloat :=
  match strip s with
  | c :: t =>
      if (c =? 43)%N then parse_unsigned t
      else if (c =? 45)%N then option_map float_neg (parse_unsigned t)
      else parse_unsigned (c :: t)
  | [] => None
  end.

End PyFloat.
Export PyFloat.

(** ** The registry [BIOMARKER_RANGES]

    A Python dict keeps insertion order, and the extractor iterates it, so
    the registry is an association list in source order. *)

Module Registry.

Record info := {
  unit_ : str;
  min : pyfloat;
  max : pyfloat;
  names : list str
}.

Definition BIOMARKER_RANGES : list (str * info) := [
  (u "TSH", {| unit_ := u "mg/dL"; min := float_lit 4 1; max := float_lit 40 1;
               names := [u "TSH"; u "tsh"] |});
  (u "T3", {| unit_ := u "pg/ml"; min := float_lit 23 1; max := float_lit 42 1;
              names := [u "T3"; u "t3"; u "triiodothyronine"] |});
  (u "T4", {| unit_ := u "ng/dL"; min := float_lit 8 1; max := float_lit 18 1;
              names := [u "T4"; u "t4"; u "thyroxine"] |});
  (u "B12", {| unit_ := u "pg/dL"; min := int_lit 200; max := int_lit 900;
               names := [u "B12"; u "b12"; u "vitamin B12"; u "cobalamin"] |});
  (u "Folate", {| unit_ := u "ng/dL"; min := float_lit 20 1;
                  max := float_lit 50 1;
                  names := [u "Folate"; u "folate"; u "folic acid"] |});
  (u "Vitamin D", {| unit_ := u "ng/ml"; min := int_lit 30; max := int_lit 50;
                     names := [u "Vitamin D"; u "vitamin d";
                               u "25-OH Vitamin D"; u "calcitriol"] |});
  (u "Ceruloplasmin", {| unit_ := u "mg/dL"; min := int_lit 20;
                         max := int_lit 40;
                         names := [u "Ceruloplasmin"; u "ceruloplasmin";
                                   u "serum ceruloplasmin"] |});
  (u "Alpha-synuclein", {| unit_ := u "ng/ml"; min := float_lit 12 1;
                           max := float_lit 18 1;
                           names := [u "alpha-synuclein";
                                     [206; 177]%N ++ u "-synuclein";
                                     u "CSF alpha-synuclein"] |});
  (u "Phospho-tau", {| unit_ := u "pg/ml"; min := int_lit 20; max := int_lit 40;
                       names := [u "phospho tau"; u "phospho-tau"; u "p-tau";
                                 u "CSF phospho-tau"] |});
  (u "NFL", {| unit_ := u "pg/ml"; min := int_lit 0; max := int_lit 1000;
               names := [u "NFL"; u "neurofilament light"; u "CSF NFL"] |})
].

(** [BIOMARKER_RANGES[name]], and [name in BIOMARKER_RANGES] as [Some]. *)
Fixpoint dict_get (d : list (str * info)) (k : str) : option info :=
  match d with
  | (k', v) :: rest => if str_eqb k' k then Some v else dict_get rest k
  | [] => None
  end.

Definition keys (d : list (str * info)) : list str := map fst d.

End Registry.
Export Registry.

(** ** Extracted biomarkers and [assess_biomarker_risk] *)

Module Risk.

(** One extracted entry, a dict with the keys [name] and [value] (and [unit]
    on the GenAI path).  The name is a string or, on the GenAI path, [None]
    when the model named nothing.  Names of other types, which the GenAI
    path can also hand over, are the matter of [Pipeline.assess_entries]. *)
Record biomarker := {
  name : option str;
  value : pyfloat;
  b_unit : option str
}.

Inductive risk_level := low | moderate | high.

Record risk_assessment := {
  risk : risk_level;
  score : Z
}.

(** The three counters of the loop. *)
Record counters := {
  abnormal_count : nat;
  high_count : nat;
  low_count : nat
}.

(** One iteration of [for biomarker in biomarkers]. *)
Definition count_step (c : counters) (b : biomarker) : counters :=
  match name b with
  | Some n =>
      match dict_get BIOMARKER_RANGES n with
      | Some i =>
          if float_ltb (value b) (min i) then
            {| abnormal_count := abnormal_count c + 1;
               high_count := high_count c;
               low_count := low_count c + 1 |}
          else if float_gtb (value b) (max i) then
            {| abnormal_count := abnormal_count c + 1;
               high_count := high_count c + 1;
               low_count := low_count c |}
          else c
      | None => c
      end
  | None => c
  end.

Definition count_loop (bs : list biomarker) : counters :=
  fold_left count_step bs
    {| abnormal_count := 0; high_count := 0; low_count := 0 |}.

Definition assess_biomarker_risk (biomarkers : list biomarker)
  : risk_assessment :=
  match biomarkers with
  | [] => {| risk := low; score := 0 |}
  | _ =>
      let c := count_loop biomarkers in
      if Nat.eqb (abnormal_count c) 0 then {| risk := low; score := 10 |}
      else if Nat.eqb (abnormal_count c) 1 then
        {| risk := moderate; score := 45 |}
      else if Nat.leb (abnormal_count c) 3 then
        {| risk := moderate; score := 55 |}
      else {| risk := high; score := 75 |}
  end.

(** The contract's wording: an entry is abnormal when its name is a registry
    key and its value is strictly below that definition's [min] or strictly
    above its [max]. *)
Definition is_abnormal (b : biomarker) : bool :=
  match name b with
  | Some n =>
      match dict_get BIOMARKER_RANGES n with
      | Some i => float_ltb (value b) (min i) || float_gtb (value b) (max i)
      | None => false
      end
  | None => false
  end.

Definition spec_abnormal_count (bs : list biomarker) : nat :=
  List.length (filter is_abnormal bs).

(** The contract's table. *)
Definition spec_risk (bs : list biomarker) : risk_assessment :=
  match bs with
  | [] => {| risk := low; score := 0 |}
  | _ =>
      match spec_abnormal_count bs with
      | 0 => {| risk := low; score := 10 |}
      | 1 => {| risk := moderate; score := 45 |}
      | 2 | 3 => {| risk := moderate; score := 55 |}
      | _ => {| risk := high; score := 75 |}
      end
  end.

(** The entries whose name is a registry key. *)
Definition has_registry_name (b : biomarker) : bool :=
  match name b with
  | Some n => match dict_get BIOMARKER_RANGES n with
              | Some _ => true
              | None => false
              end
  | None => false
  end.

(** The score as a function of the abnormal count, for a non-empty list. *)
Definition score_of_count (n : nat) : Z :=
  match n with
  | 0 => 10
  | 1 => 45
  | 2 | 3 => 55
  | _ => 75
  end.

(** Sample entries: a TSH reading below the range, one inside it. *)
Definition tsh_low : biomarker :=
  {| name := Some (u "TSH"); value := int_lit 0; b_unit := None |}.
Definition tsh_normal : biomarker :=
  {| name := Some (u "TSH"); value := int_lit 1; b_unit := None |}.

End Risk.
Export Risk.

(** ** The fragment of Python's [re] that the program uses

    Python's matcher backtracks: among the ways a pattern can match at a
    position it takes the first in priority order (a greedy repetition tries
    one more iteration before stopping, a lazy one stops before trying one
    more).  [rmatch] lists all the ways in that order, each with the text
    captured by the group and the unread rest; [search] takes the first way
    at the leftmost position that has one. *)

Module Regex.

Inductive regex :=
| Eps
| Chr (p : char -> bool)                        (* one character of a class *)
| Cat (r1 r2 : regex)
| Rep (greedy : bool) (lo hi : nat) (r : regex) (* r{lo,hi} and r{lo,hi}? *)
| Star (p : char -> bool)                       (* greedy class* *)
| Grp (r : regex).                              (* the capturing group *)

Abbreviation outcome := (option str * str)%type (only parsing).

(** A later capture replaces an earlier one. *)
Definition merge (g1 g2 : option str) : option str :=
  match g2 with
  | Some _ => g2
  | None => g1
  end.

Definition and_then (xs : list outcome) (k : str -> list outcome)
  : list outcome :=
  flat_map (fun o1 => map (fun o2 => (merge (fst o1) (fst o2), snd o2))
                          (k (snd o1))) xs.

(** Greedy star of a class: the longest run first. *)
Fixpoint star (p : char -> bool) (s : str) : list outcome :=
  match s with
  | c :: t => if p c then star p t ++ [(None, s)] else [(None, s)]
  | [] => [(None, [])]
  end.

(** Bounded repetition of a matcher [m]: between [lo] and [hi] iterations.
    The greedy form tries one more iteration before stopping, the lazy form
    stops first. *)
Fixpoint rep (m : str -> list outcome) (greedy : bool) (lo hi : nat)
    (s : str) {struct hi} : list outcome :=
  let stop := match lo with O => [(None, s)] | S _ => [] end in
  match hi with
  | O => stop
  | S hi' =>
      let more := and_then (m s) (rep m greedy (Nat.pred lo) hi') in
      if greedy then more ++ stop else stop ++ more
  end.

(** The text a match consumed, from the text before and the rest after. *)
Definition consumed (s rest : str) : str :=
  firstn (List.length s - List.length rest) s.

Fixpoint rmatch (r : regex) (s : str) : list outcome :=
  match r with
  | Eps => [(None, s)]
  | Chr p =>
      match s with
      | c :: t => if p c then [(None, t)] else []
      | [] => []
      end
  | Cat r1 r2 => and_then (rmatch r1 s) (rmatch r2)
  | Rep greedy lo hi r' => rep (rmatch r') greedy lo hi s
  | Star p => star p s
  | Grp r' => map (fun o => (Some (consumed s (snd o)), snd o)) (rmatch r' s)
  end.

(** [pattern.search(text)]: [Some g] is a match object whose [group(1)] is
    [g]; [None] is no match.  Start positions are tried from the left, the
    end of the text included. *)
Fixpoint search (r : regex) (s : str) : option (option str) :=
  match rmatch r s with
  | o :: _ => Some (fst o)
  | [] =>
      match s with
      | _ :: t => search r t
      | [] => None
      end
  end.

(** What a literal character of a pattern compiled with [re.IGNORECASE]
    matches.  Python compares simple lower-case mappings and adds a few
    extra equivalences.  This is that relation for the literals that occur
    in the registry's aliases: an ASCII letter matches both its cases, [i]
    also U+0130 and U+0131, [s] also U+017F, [k] also U+212A; U+00CE and
    U+00EE match each other; U+00B1, digits, the space and the hyphen match
    themselves only. *)
Definition ci_match (p c : char) : bool :=
  let lp := ascii_lower p in
  ((ascii_lower c =? lp)
   || ((lp =? 105) && ((c =? 304) || (c =? 305)))
   || ((lp =? 115) && (c =? 383))
   || ((lp =? 107) && (c =? 8490))
   || (((p =? 206) || (p =? 238)) && ((c =? 206) || (c =? 238))))%N.

(** [re.escape(s)] under [re.IGNORECASE]: the characters of [s], literally. *)
Fixpoint lit (s : str) : regex :=
  match s with
  | [] => Eps
  | p :: t => Cat (Chr (ci_match p)) (lit t)
  end.

Definition any_char (c : char) : bool := true.            (* [\s\S] *)
Definition is_bound (c : char) : bool := ((c =? 60) || (c =? 62))%N. (* [<>] *)
Definition is_sep (c : char) : bool := ((c =? 46) || (c =? 44))%N.   (* [\.,] *)
Definition is_char (x c : char) : bool := (c =? x)%N.

Definition opt (r : regex) : regex := Rep true 0 1 r.     (* r? *)
Definition plus (p : char -> bool) : regex := Cat (Chr p) (Star p). (* class+ *)

End Regex.
Export Regex.

(** ** [extract_biomarkers_from_text] *)

Module PatternExtractor.

(** [number_rx = r"([<>]?\s*[0-9]{1,3}(?:[\.,][0-9]+)?)"] *)
Definition number_body : regex :=
  Cat (opt (Chr is_bound))
      (Cat (Star isspace)
           (Cat (Rep true 1 3 (Chr is_digit))
                (opt (Cat (Chr is_sep) (plus is_digit))))).

Definition number_rx : regex := Grp number_body.

(** Pattern 1: [{re.escape(name_variant)}[\s\S]{0,60}?{number_rx}] *)
Definition pattern1 (name_variant : str) : regex :=
  Cat (lit name_variant) (Cat (Rep false 0 60 (Chr any_char)) number_rx).

(** Pattern 2: [{number_rx}[\s\S]{0,20}?{re.escape(name_variant)}] *)
Definition pattern2 (name_variant : str) : regex :=
  Cat number_rx (Cat (Rep false 0 20 (Chr any_char)) (lit name_variant)).

(** [raw] after the two searches: [m1.group(1)], else [m2.group(1)], else
    [None]. *)
Definition find_raw (name_variant text : str) : option str :=
  match search (pattern1 name_variant) text with
  | Some g => g
  | None =>
      match search (pattern2 name_variant) text with
      | Some g => g
      | None => None
      end
  end.

(** The cleaning between the match and [float]: spaces and tabs removed, the
    comma turned into a dot, a leading [<] or [>] dropped. *)
Definition clean (raw : str) : str :=
  let raw_clean := remove_char 9%N (remove_char 32%N raw) in
  let raw_clean := replace_char 44%N 46%N raw_clean in
  if startswith_char 60%N raw_clean || startswith_char 62%N raw_clean
  then tl raw_clean
  else raw_clean.

(** [for name_variant in info["names"]]: the value of the first variant
    whose candidate converts.  A variant without a candidate, or with a
    candidate that [float] rejects ([continue]), passes to the next one. *)
Fixpoint scan_names (text : str) (names : list str) : option pyfloat :=
  match names with
  | [] => None
  | name_variant :: rest =>
      match find_raw name_variant text with
      | Some (c :: raw) =>
          match py_float (clean (c :: raw)) with
          | Some v => Some v
          | None => scan_names text rest
          end
      | _ => scan_names text rest
      end
  end.

Definition scan_registry (text : str) (d : list (str * info))
  : list biomarker :=
  fold_left
    (fun found kv =>
       match scan_names text (names (snd kv)) with
       | Some v =>
           found ++ [{| name := Some (fst kv); value := v; b_unit := None |}]
       | None => found
       end)
    d [].

(** The argument is [None] or a string; both [None] and the empty string
    are falsy. *)
Definition extract_biomarkers_from_text (text : option str)
  : list biomarker :=
  match text with
  | None | Some [] => []
  | Some t => scan_registry t BIOMARKER_RANGES
  end.

End PatternExtractor.
Export PatternExtractor.

(** ** Exceptions and Python values

    A computation that can raise returns [result].  The exceptions are the
    instances of [Exception], which is what every handler of the source
    catches. *)

Module Py.

Inductive exn :=
| TypeError
| AttributeError
| ValueError
| OverflowError
| Failure (msg : str).          (* whatever a collaborator raises *)

Inductive result (A : Type) :=
| Ok (a : A)
| Raise (e : exn).

Arguments Ok {A} a.
Arguments Raise {A} e.

Definition bind {A B : Type} (m : result A) (k : A -> result B) : result B :=
  match m with
  | Ok a => k a
  | Raise e => Raise e
  end.

(** [try: m  except Exception: h] *)
Definition try_except {A : Type} (m : result A) (h : exn -> result A)
  : result A :=
  match m with
  | Ok a => Ok a
  | Raise e => h e
  end.

(** What [json.loads] returns, and what the client hands back. *)
#[local] Unset Elimination Schemes.
Inductive pyval :=
| VNone
| VBool (b : bool)
| VInt (z : Z)
| VFloat (f : pyfloat)
| VStr (s : str)
| VList (l : list pyval)
| VDict (d : list (str * pyval)).
#[local] Set Elimination Schemes.

(** Truth value of an object. *)
Definition truthy (v : pyval) : bool :=
  match v with
  | VNone => false
  | VBool b => b
  | VInt z => negb (z =? 0)%Z
  | VFloat (Finite q) => negb (Qeq_bool q 0)
  | VFloat _ => true
  | VStr s => match s with [] => false | _ => true end
  | VList l => match l with [] => false | _ => true end
  | VDict d => match d with [] => false | _ => true end
  end.

(** [a or b], with [b] evaluated only when [a] is falsy. *)
Definition py_or (a : pyval) (b : result pyval) : result pyval :=
  if truthy a then Ok a else b.

(** [for item in v]: the items of a list, the keys of a dict, the
    characters of a string; anything else is not iterable. *)
Definition py_iter (v : pyval) : result (list pyval) :=
  match v with
  | VList l => Ok l
  | VDict d => Ok (map (fun kv => VStr (fst kv)) d)
  | VStr s => Ok (map (fun c => VStr [c]) s)
  | _ => Raise TypeError
  end.

Fixpoint assoc (d : list (str * pyval)) (k : str) : option pyval :=
  match d with
  | (k', v) :: rest => if str_eqb k' k then Some v else assoc rest k
  | [] => None
  end.

(** [item.get(k)]: only a dict has the method. *)
Definition py_get (item : pyval) (k : str) : result pyval :=
  match item with
  | VDict d => Ok (match assoc d k with Some v => v | None => VNone end)
  | _ => Raise AttributeError
  end.

(** [sep.join(parts)] *)
Fixpoint join (sep : str) (parts : list str) : str :=
  match parts with
  | [] => []
  | [x] => x
  | x :: rest => x ++ sep ++ join sep rest
  end.

(** [s.strip()]: white space in the sense of [str.isspace]. *)
Fixpoint lstrip_ws (s : str) : str :=
  match s with
  | c :: t => if isspace c then lstrip_ws t else s
  | [] => []
  end.

Definition strip_ws (s : str) : str := rev (lstrip_ws (rev (lstrip_ws s))).

End Py.
Export Py.

(** ** [genai_extract_biomarkers] *)

Module GenAI.

(** The optional client [google.generativeai], through the three calls the
    function makes.  [chat_content] is the first attempt
    ([genai.chat.create] and the reading of the reply's content),
    [generate_content] the simpler interface tried when the first raises. *)
Record client := {
  configure : str -> result unit;
  chat_content : str -> result pyval;
  generate_content : str -> result pyval
}.

(** [os.environ.get] *)
Definition environ := str -> option str.

(** One result dict: [name], [value], [unit]. *)
Record genai_entry := {
  e_name : pyval;
  e_value : pyfloat;
  e_unit : pyval
}.

(** [r"(\[\s*\{[\s\S]*\}\s*\])"], compiled without flags. *)
Definition json_array_rx : regex :=
  Grp (Cat (Chr (is_char 91))
      (Cat (Star isspace)
      (Cat (Chr (is_char 123))
      (Cat (Star any_char)
      (Cat (Chr (is_char 125))
      (Cat (Star isspace) (Chr (is_char 93)))))))).

Definition nl : str := [10%N].

Definition build_prompt (text : str) : str :=
  u "Extract the following biomarker names and their numeric values "
  ++ u "from the medical report text. Biomarkers: "
  ++ join (u ", ") (keys BIOMARKER_RANGES) ++ u ". " ++ nl
  ++ u "Return ONLY a JSON array of objects with keys: name, value, unit (optional). "
  ++ u "If a biomarker is not present, omit it. Use numeric values only (no text)."
  ++ nl ++ nl
  ++ u "Report text:" ++ nl ++ text.

(** [float(z)] for an int: the nearest double, [OverflowError] beyond the
    range. *)
Definition float_of_int (z : Z) : result pyfloat :=
  match round_double (Z.abs z) 1 with
  | PosInf => Raise OverflowError
  | f => Ok (if (z <? 0)%Z then float_neg f else f)
  end.

Section WithBuiltins.

(** Library functions the function calls on arbitrary model output:
    [json.loads], [float] on a string (with its full grammar), and
    [str.lower] (with the Unicode case tables). *)
Variable json_loads : str -> result pyval.
Variable str_to_float : str -> option pyfloat.
Variable str_lower : str -> str.

(** The inner [try]: a string value is cleaned first, then [float(val)]. *)
Definition coerce_value (val : pyval) : result pyfloat :=
  match val with
  | VStr s =>
      match str_to_float (strip_ws (replace_char 44%N 46%N s)) with
      | Some f => Ok f
      | None => Raise ValueError
      end
  | VInt z => float_of_int z
  | VFloat f => Ok f
  | VBool b => Ok (if b then int_lit 1 else int_lit 0)
  | VNone | VList _ | VDict _ => Raise TypeError
  end.

(** [name.lower()]: only a string has the method. *)
Definition name_lower (name : pyval) : result str :=
  match name with
  | VStr s => Ok (str_lower s)
  | _ => Raise AttributeError
  end.

(** [for k, info in BIOMARKER_RANGES.items()]: the first key whose aliases
    or whose own name equal [name], lower-cased.  A falsy [name] matches
    nothing and is never lower-cased. *)
Fixpoint normalize_name (name : pyval) (d : list (str * info))
  : result (option str) :=
  match d with
  | [] => Ok None
  | (k, i) :: rest =>
      if truthy name then
        bind (name_lower name) (fun l =>
          if existsb (str_eqb l) (map str_lower (names i))
             || str_eqb l (str_lower k)
          then Ok (Some k)
          else normalize_name name rest)
      else normalize_name name rest
  end.

(** The body of [for item in parsed]: [None] is [continue]. *)
Definition process_item (item : pyval) : result (option genai_entry) :=
  bind (py_get item (u "name")) (fun n1 =>
  bind (py_or n1 (py_get item (u "biomarker"))) (fun name =>
  bind (py_get item (u "value")) (fun val =>
  bind (py_get item (u "unit")) (fun unit =>
    match coerce_value val with
    | Raise _ => Ok None
    | Ok v =>
        bind (normalize_name name BIOMARKER_RANGES) (fun key =>
          Ok (Some {| e_name := match key with
                                | Some k => VStr k
                                | None => name
                                end;
                      e_value := v;
                      e_unit := unit |}))
    end)))).

Fixpoint collect (items : list pyval) (results : list genai_entry)
  : result (list genai_entry) :=
  match items with
  | [] => Ok results
  | item :: rest =>
      bind (process_item item) (fun r =>
        match r with
        | Some e => collect rest (results ++ [e])
        | None => collect rest results
        end)
  end.

(** The outer [try] block, after the two availability tests. *)
Definition extraction (g : client) (api_key text : str)
  : result (option (list genai_entry)) :=
  let _ := try_except (configure g api_key) (fun _ => Ok tt) in
  let prompt := build_prompt text in
  bind (try_except (chat_content g prompt)
                   (fun _ => generate_content g prompt)) (fun content =>
  match content with
  | VStr c =>
      let source := match search json_array_rx c with
                    | Some (Some g1) => g1
                    | _ => c
                    end in
      match json_loads source with
      | Raise _ => Ok None
      | Ok parsed =>
          bind (py_iter parsed) (fun items =>
          bind (collect items []) (fun results => Ok (Some results)))
      end
  | _ => Raise TypeError
  end).

Definition genai_extract_biomarkers (genai : option client) (env : environ)
    (text : str) : result (option (list genai_entry)) :=
  match genai with
  | None => Ok None
  | Some g =>
      let api_key :=
        match env (u "GOOGLE_API_KEY") with
        | Some (c :: k) => Some (c :: k)
        | _ => env (u "GENAI_API_KEY")
        end in
      match api_key with
      | None | Some [] => Ok None
      | Some k => try_except (extraction g k text) (fun _ => Ok None)
      end
  end.

End WithBuiltins.

(** A sample run: credentials present, a client whose chat interface
    answers with one object whose value is not a number. *)
Definition quote : str := [34%N].

Definition sample_reply : str :=
  u "[{" ++ quote ++ u "name" ++ quote ++ u ": " ++ quote ++ u "TSH" ++ quote
  ++ u ", " ++ quote ++ u "value" ++ quote ++ u ": " ++ quote ++ u "n/a"
  ++ quote ++ u "}]".

Definition sample_parsed : pyval :=
  VList [VDict [(u "name", VStr (u "TSH")); (u "value", VStr (u "n/a"))]].

Definition sample_json_loads (s : str) : result pyval :=
  if str_eqb s sample_reply then Ok sample_parsed else Raise ValueError.

Definition sample_client : client :=
  {| configure := fun _ => Ok tt;
     chat_content := fun _ => Ok (VStr sample_reply);
     generate_content := fun _ => Raise (Failure (u "unavailable")) |}.

Definition failing_client : client :=
  {| configure := fun _ => Raise (Failure (u "configure"));
     chat_content := fun _ => Raise (Failure (u "chat"));
     generate_content := fun _ => Raise (Failure (u "generate")) |}.

Definition sample_env (k : str) : option str :=
  if str_eqb k (u "GENAI_API_KEY") then Some (u "secret") else None.

Definition empty_env (k : str) : option str := None.

Definition ascii_str_lower (s : str) : str := map ascii_lower s.

(** No credential under either name: each variable is unset or empty. *)
Definition no_credential (env : environ) : Prop :=
  (env (u "GOOGLE_API_KEY") = None \/ env (u "GOOGLE_API_KEY") = Some [])
  /\ (env (u "GENAI_API_KEY") = None \/ env (u "GENAI_API_KEY") = Some []).

End GenAI.
Export GenAI.

(** ** [analyze_report] *)

Module Analyzer.

(** The result object: the error shape or the success shape. *)
Inductive report :=
| Error (error : str)
| Success (biomarkers : list biomarker) (risk_assessment : risk_assessment).

(** The calls [analyze_report] makes, in order, each with its argument. *)
Inductive call :=
| CallPdf (file_path : str)
| CallImage (file_path : str)
| CallCsv (file_path : str)
| CallGenAI (text : str)
| CallPattern (text : str).

(** [Path(file_path).suffix] for a POSIX path: the final component is the
    last part between slashes that is neither empty nor a single dot; its
    suffix starts at its last dot, unless that dot is its first or its last
    character. *)
Fixpoint split_slash (s cur : str) : list str :=
  match s with
  | [] => [rev cur]
  | c :: t => if (c =? 47)%N then rev cur :: split_slash t []
              else split_slash t (c :: cur)
  end.

Definition path_name (file_path : str) : str :=
  last (filter (fun part => negb (str_eqb part [] || str_eqb part (u ".")))
               (split_slash file_path []))
       [].

(** [name.rfind('.')], as the text from the last dot on and the number of
    characters before it. *)
Fixpoint rfind_dot (s : str) (i : nat) : option (nat * str) :=
  match s with
  | [] => None
  | c :: t =>
      match rfind_dot t (S i) with
      | Some r => Some r
      | None => if (c =? 46)%N then Some (i, s) else None
      end
  end.

Definition suffix (file_path : str) : str :=
  let name := path_name file_path in
  match rfind_dot name 0 with
  | Some (i, tail) =>
      if Nat.ltb 0 i && Nat.ltb i (List.length name - 1) then tail else []
  | None => []
  end.

Section WithCollaborators.

(** [str.lower], with the Unicode case tables. *)
Variable str_lower : str -> str.

(** The text-extraction collaborators: the text, or [None] on failure. *)
Variable extract_text_from_pdf : str -> option str.
Variable extract_text_from_image : str -> option str.
Variable parse_csv : str -> option str.

(** The GenAI extractor as [analyze_report] sees it: a list, [None], or an
    exception. *)
Variable genai_extract_biomarkers : str -> result (option (list biomarker)).

Definition file_ext (file_path : str) : str := str_lower (suffix file_path).

(** Lines 281-289: GenAI first, the regular expressions when it answers
    [None] or raises. *)
Definition choose_biomarkers (text : str) : list call * list biomarker :=
  let biomarkers :=
    match genai_extract_biomarkers text with
    | Ok r => r
    | Raise _ => None
    end in
  match biomarkers with
  | Some bs => ([CallGenAI text], bs)
  | None =>
      ([CallGenAI text; CallPattern text],
       extract_biomarkers_from_text (Some text))
  end.

(** The text-extraction dispatch: the collaborator called and its answer,
    or [None] for an unsupported type. *)
Definition dispatch (file_path : str) : option (call * option str) :=
  let ext := file_ext file_path in
  if str_eqb ext (u ".pdf") then
    Some (CallPdf file_path, extract_text_from_pdf file_path)
  else if existsb (str_eqb ext) [u ".jpg"; u ".jpeg"; u ".png"] then
    Some (CallImage file_path, extract_text_from_image file_path)
  else if str_eqb ext (u ".csv") then
    Some (CallCsv file_path, parse_csv file_path)
  else None.

Definition analyze_report (file_path : str) : list call * report :=
  match dispatch file_path with
  | None =>
      ([], Error (u "Unsupported file type: " ++ file_ext file_path))
  | Some (c, None) => ([c], Error (u "Failed to extract text from file"))
  | Some (c, Some text) =>
      let (calls, biomarkers) := choose_biomarkers text in
      (c :: calls, Success biomarkers (assess_biomarker_risk biomarkers))
  end.

End WithCollaborators.

Definition supported_exts : list str :=
  [u ".pdf"; u ".jpg"; u ".jpeg"; u ".png"; u ".csv"].

(** A text-extraction call, as opposed to a call of an extraction
    strategy. *)
Definition is_text_call (c : call) : bool :=
  match c with
  | CallPdf _ | CallImage _ | CallCsv _ => true
  | CallGenAI _ | CallPattern _ => false
  end.

(** Sample collaborators: text extraction that fails, and GenAI answers. *)
Definition no_text (file_path : str) : option str := None.
Definition genai_unavailable (text : str)
  : result (option (list biomarker)) := Ok None.
Definition genai_empty (text : str)
  : result (option (list biomarker)) := Ok (Some []).
Definition genai_raises (text : str)
  : result (option (list biomarker)) := Raise TypeError.

End Analyzer.
Export Analyzer.

(** ** Vocabulary for the properties of the extractor *)

Module ExtractSpec.

(** What a pattern can match, apart from priorities: [Matches r w g] when
    [r] matches exactly the text [w] and the group then holds [g]. *)
Inductive Matches : regex -> str -> option str -> Prop :=
| M_eps : Matches Eps [] None
| M_chr p c : p c = true -> Matches (Chr p) [c] None
| M_cat r1 r2 w1 w2 g1 g2 :
    Matches r1 w1 g1 -> Matches r2 w2 g2 ->
    Matches (Cat r1 r2) (w1 ++ w2) (merge g1 g2)
| M_rep_stop gr hi r : Matches (Rep gr 0 hi r) [] None
| M_rep_more gr lo hi r w1 w2 g1 g2 :
    Matches r w1 g1 -> Matches (Rep gr (Nat.pred lo) hi r) w2 g2 ->
    Matches (Rep gr lo (S hi) r) (w1 ++ w2) (merge g1 g2)
| M_star_stop p : Matches (Star p) [] None
| M_star_more p c w :
    p c = true -> Matches (Star p) w None -> Matches (Star p) (c :: w) None
| M_grp r w g : Matches r w g -> Matches (Grp r) w (Some w).

(** [alias] read case-insensitively at the start of [t]. *)
Fixpoint ci_prefix (alias t : str) : bool :=
  match alias, t with
  | [], _ => true
  | p :: alias', c :: t' => ci_match p c && ci_prefix alias' t'
  | _ :: _, [] => false
  end.

(** The position of the first case-insensitive occurrence of [alias]. *)
Fixpoint ci_find (alias text : str) : option nat :=
  if ci_prefix alias text then Some 0
  else match text with
       | [] => None
       | _ :: t => option_map S (ci_find alias t)
       end.

Definition occurs (alias text : str) : bool :=
  match ci_find alias text with
  | Some _ => true
  | None => false
  end.

(** The parts of a number token: the bound sign, the white space, the one
    to three integer digits, and the separator with the fraction digits. *)
Record token := {
  bound : str;
  spaces : str;
  int_digits : str;
  frac : option (char * str)
}.

Definition frac_text (f : option (char * str)) : str :=
  match f with
  | Some (sep, ds) => sep :: ds
  | None => []
  end.

Definition frac_digits (f : option (char * str)) : str :=
  match f with
  | Some (_, ds) => ds
  | None => []
  end.

Definition token_text (tk : token) : str :=
  bound tk ++ spaces tk ++ int_digits tk ++ frac_text (frac tk).

Definition token_ok (tk : token) : bool :=
  (str_eqb (bound tk) [] || str_eqb (bound tk) [60%N]
   || str_eqb (bound tk) [62%N])
  && forallb isspace (spaces tk)
  && forallb is_digit (int_digits tk)
  && Nat.leb 1 (List.length (int_digits tk))
  && Nat.leb (List.length (int_digits tk)) 3
  && match frac tk with
     | Some (sep, ds) =>
         is_sep sep && forallb is_digit ds && Nat.leb 1 (List.length ds)
     | None => true
     end.

(** The white space of a token that survives the cleaning: everything but
    spaces and tabs. *)
Definition kept_spaces (tk : token) : str :=
  remove_char 9%N (remove_char 32%N (spaces tk)).

(** The token after the cleaning: no sign, no space or tab, a dot for the
    separator. *)
Definition cleaned_text (tk : token) : str :=
  kept_spaces tk ++ int_digits tk
  ++ replace_char 44%N 46%N (frac_text (frac tk)).

(** The code points [str.isspace] accepts. *)
Definition space_chars : list char :=
  [9; 10; 11; 12; 13; 28; 29; 30; 31; 32; 133; 160; 5760; 8192; 8193; 8194;
   8195; 8196; 8197; 8198; 8199; 8200; 8201; 8202; 8232; 8233; 8239; 8287;
   12288]%N.

(** The decimal the digits of a token denote, rounded to a double. *)
Definition token_decimal (tk : token) : pyfloat :=
  round_double (digits_value (int_digits tk ++ frac_digits (frac tk)))
               (10 ^ Z.of_nat (List.length (frac_digits (frac tk)))).

(** The value of a token: its decimal, unless one of the separators 28..31
    stands in its white space, which [float] rejects. *)
Definition token_value (tk : token) : option pyfloat :=
  if existsb (in_range 28 31) (spaces tk) then None
  else Some (token_decimal tk).

(** The candidate value of one name variant: its raw token, cleaned and
    converted. *)
Definition candidate (text name_variant : str) : option pyfloat :=
  match find_raw name_variant text with
  | Some (c :: raw) => py_float (clean (c :: raw))
  | _ => None
  end.

Fixpoint first_some {A : Type} (l : list (option A)) : option A :=
  match l with
  | [] => None
  | Some a :: _ => Some a
  | None :: rest => first_some rest
  end.

(** The entry of one definition, if any. *)
Definition entry_of (text : str) (kv : str * info) : list biomarker :=
  match first_some (map (candidate text) (names (snd kv))) with
  | Some v => [{| name := Some (fst kv); value := v; b_unit := None |}]
  | None => []
  end.

(** [l1] is [l2] with some elements left out, order kept. *)
Inductive Subseq {A : Type} : list A -> list A -> Prop :=
| Subseq_nil : Subseq [] []
| Subseq_skip x l1 l2 : Subseq l1 l2 -> Subseq l1 (x :: l2)
| Subseq_take x l1 l2 : Subseq l1 l2 -> Subseq (x :: l1) (x :: l2).

(** A finite float with a value between two rationals. *)
Definition float_between (lo hi : Q) (x : pyfloat) : Prop :=
  match x with
  | Finite q => Qle lo q /\ Qle q hi
  | _ => False
  end.

(** The first match of [m] after a lazy gap of at most [n] characters: the
    shortest gap after which [m] matches. *)
Fixpoint lazy_gap_first (m : str -> list outcome) (n : nat) (s : str)
  : option outcome :=
  match hd_error (m s) with
  | Some o => Some o
  | None =>
      match n, s with
      | S n', _ :: t => lazy_gap_first m n' t
      | _, _ => None
      end
  end.

(** The text starts with an ASCII digit; with a separator and a digit. *)
Definition starts_with_digit (s : str) : bool :=
  match s with
  | c :: _ => is_digit c
  | [] => false
  end.

Definition starts_with_fraction (s : str) : bool :=
  match s with
  | c :: d :: _ => is_sep c && is_digit d
  | _ => false
  end.

(** A finite float [v] with [0 <= v < 1000]. *)
Definition below_1000 (x : pyfloat) : Prop :=
  match x with
  | Finite q => Qle 0 q /\ Qlt q 1000
  | _ => False
  end.

(** An entry as the extractor builds it. *)
Definition entry (k : str) (v : pyfloat) : biomarker :=
  {| name := Some k; value := v; b_unit := None |}.

(** The texts of the scenarios. *)
Definition scenario_text : str :=
  u "Thyroxine level: 0.5 ng/dL, Folate 1.0 ng/dL, B12 950 pg/dL".
Definition t3_text : str := u "T3: 3,1".
Definition nfl_text : str := u "NFL <50".
Definition rounding_text : str := u "NFL 999.99999999999999999".
Definition later_digits_text : str := u "1234                    NFL".
Definition t3_digit_text : str := t3_text ++ u "5".
Definition separator_text : str :=
  u "t3 " ++ [28%N] ++ u "5 triiodothyronine 3.0".

End ExtractSpec.
Export ExtractSpec.

(** ** Further vocabulary for the risk scorer *)

Module RiskSpec.

(** An entry below its definition's range, and one above it. *)
Definition is_low (b : biomarker) : bool :=
  match name b with
  | Some n => match dict_get BIOMARKER_RANGES n with
              | Some i => float_ltb (value b) (min i)
              | None => false
              end
  | None => false
  end.

Definition is_high (b : biomarker) : bool :=
  match name b with
  | Some n => match dict_get BIOMARKER_RANGES n with
              | Some i => float_gtb (value b) (max i)
              | None => false
              end
  | None => false
  end.

(** The levels in increasing order. *)
Definition risk_rank (r : risk_level) : nat :=
  match r with
  | low => 0
  | moderate => 1
  | high => 2
  end.

(** The range of a definition as two rationals. *)
Definition finite_range (i : info) : option (Q * Q) :=
  match min i, max i with
  | Finite lo, Finite hi => Some (lo, hi)
  | _, _ => None
  end.

End RiskSpec.
Export RiskSpec.

(** ** Further vocabulary for the extractor *)

Module ExtractSpec2.

(** The text with its ASCII capitals turned into small letters. *)
Definition lower_text (s : str) : str := map ascii_lower s.

Definition lower_outcome (o : option str * str) : option str * str :=
  (option_map lower_text (fst o), lower_text (snd o)).

(** A pattern none of whose classes tells the two cases of an ASCII letter
    apart. *)
Fixpoint case_blind (r : regex) : Prop :=
  match r with
  | Eps => True
  | Chr p | Star p => forall c, p (ascii_lower c) = p c
  | Cat r1 r2 => case_blind r1 /\ case_blind r2
  | Rep _ _ _ r' | Grp r' => case_blind r'
  end.

(** [occ] is [alias] in some letter case. *)
Definition ci_equal (alias occ : str) : bool :=
  Nat.eqb (List.length alias) (List.length occ) && ci_prefix alias occ.

(** A stretch of text in which no number token can start: it has no digit
    and its last character is neither white space nor [<] or [>]. *)
Definition plain_gap (gap : str) : bool :=
  forallb (fun c => negb (is_digit c)) gap
  && match rev gap with
     | [] => true
     | l :: _ => negb (isspace l || is_bound l)
     end.

(** The text after a token does not prolong it: no further digit of the
    fraction or of a shorter integer part, no fraction after an integer. *)
Definition token_ends (tk : token) (post : str) : bool :=
  match frac tk with
  | Some _ => negb (starts_with_digit post)
  | None =>
      (Nat.eqb (List.length (int_digits tk)) 3
       || negb (starts_with_digit post))
      && negb (starts_with_fraction post)
  end.

End ExtractSpec2.
Export ExtractSpec2.

(** ** Further vocabulary for the GenAI extractor *)

Module GenAISpec.

(** [item.get('name') or item.get('biomarker')] for a dict. *)
Definition item_name (d : list (str * pyval)) : pyval :=
  let n1 := match assoc d (u "name") with Some v => v | None => VNone end in
  if truthy n1 then n1
  else match assoc d (u "biomarker") with Some v => v | None => VNone end.

Definition item_value (d : list (str * pyval)) : pyval :=
  match assoc d (u "value") with Some v => v | None => VNone end.

Definition is_string (v : pyval) : bool :=
  match v with
  | VStr _ => true
  | _ => false
  end.

(** [str.lower] on the letters that occur in the registry: the ASCII
    capitals and U+00CE. *)
Definition registry_lower (s : str) : str :=
  map (fun c => if (c =? 206)%N then 238%N else ascii_lower c) s.

(** The keys and name variants of a definition. *)
Definition labels (kv : str * info) : list str := fst kv :: names (snd kv).

(** A client whose chat interface answers with the given text. *)
Definition replying_client (reply : str) : client :=
  {| configure := fun _ => Ok tt;
     chat_content := fun _ => Ok (VStr reply);
     generate_content := fun _ => Raise (Failure (u "unavailable")) |}.

(** A JSON array of objects as the search pattern sees it: the brackets,
    the braces of the first and of the last object, white space between
    them. *)
Definition json_array (ws1 body ws2 : str) : str :=
  91%N :: ws1 ++ 123%N :: body ++ 125%N :: ws2 ++ [93%N].

(** The character [x] does not occur in [s]. *)
Definition lacks (x : char) (s : str) : bool :=
  forallb (fun c => negb (c =? x)%N) s.

(** Lines 191-201: the text handed to [json.loads], the first group of the
    search when it matches, the whole reply otherwise. *)
Definition reply_source (content : str) : str :=
  match search json_array_rx content with
  | Some (Some g1) => g1
  | _ => content
  end.

(** Lines 182-188: the content of the reply, from the chat interface or,
    when that raises, from the simpler one. *)
Definition client_content (g : client) (text : str) : result pyval :=
  try_except (chat_content g (build_prompt text))
             (fun _ => generate_content g (build_prompt text)).

(** A parser that knows one text: it parses [source] to [parsed] and
    rejects every other string. *)
Definition replay_json_loads (source : str) (parsed : pyval) (s : str)
  : result pyval :=
  if str_eqb s source then Ok parsed else Raise ValueError.

(** JSON texts and what they parse to. *)
Definition json_key (k : str) : str := quote ++ k ++ quote ++ u ": ".

Definition bad_name_reply : str :=
  u "[{" ++ json_key (u "name") ++ quote ++ u "TSH" ++ quote ++ u ", "
  ++ json_key (u "value") ++ u "2}, {" ++ json_key (u "name") ++ u "7, "
  ++ json_key (u "value") ++ u "1}]".

Definition bad_name_parsed : list pyval :=
  [VDict [(u "name", VStr (u "TSH")); (u "value", VInt 2)];
   VDict [(u "name", VInt 7); (u "value", VInt 1)]].

Definition object_reply : str :=
  u "{" ++ json_key (u "name") ++ quote ++ u "TSH" ++ quote ++ u ", "
  ++ json_key (u "value") ++ u "2}".

Definition object_parsed : pyval :=
  VDict [(u "name", VStr (u "TSH")); (u "value", VInt 2)].

Definition list_name_reply : str :=
  u "[{" ++ json_key (u "biomarker") ++ u "[], "
  ++ json_key (u "value") ++ u "1}]".

Definition list_name_object : list (str * pyval) :=
  [(u "biomarker", VList []); (u "value", VInt 1)].

(** A client whose chat interface answers with something that is not a
    string. *)
Definition number_client : client :=
  {| configure := fun _ => Ok tt;
     chat_content := fun _ => Ok (VInt 3);
     generate_content := fun _ => Raise (Failure (u "unavailable")) |}.

(** The tail of [json_array_rx]: the last brace, white space, the closing
    bracket. *)
Definition closing : regex :=
  Cat (Chr (is_char 125)) (Cat (Star isspace) (Chr (is_char 93))).

End GenAISpec.
Export GenAISpec.

(** ** Text extraction from a PDF file *)

Module PdfText.

(** What a PDF library hands to [extract_text_from_pdf].  Opening a path
    gives a document or raises; [page.extract_text()] gives a string or
    [None], or raises; leaving the [with] block closes the document, which
    may raise as well. *)
Definition page := result (option str).

Record document := {
  pages : list page;
  close : result unit
}.

Record pdf_library := {
  open_pdf : str -> result document
}.

(** A module-level name: not bound at all, or bound to a module or to
    [None]. *)
Inductive global :=
| Unbound
| Bound (v : option pdf_library).

Record globals := {
  PyPDF2 : global;
  pdfplumber : global
}.

(** Lines 26-33.  The arguments say what each [import] finds: a module, or
    nothing ([ImportError]).  [pdfplumber] is imported, or set to [None],
    only in the handler of the failed [import PyPDF2]. *)
Definition import_pdf_libraries
    (PyPDF2_found pdfplumber_found : option pdf_library) : globals :=
  match PyPDF2_found with
  | Some m => {| PyPDF2 := Bound (Some m); pdfplumber := Unbound |}
  | None => {| PyPDF2 := Bound None; pdfplumber := Bound pdfplumber_found |}
  end.

Definition NameError : exn := Failure (u "NameError").

(** Reading a global name. *)
Definition load_global (g : global) : result (option pdf_library) :=
  match g with
  | Unbound => Raise NameError
  | Bound v => Ok v
  end.

(** Line 64: [text += page.extract_text() or ""], page after page. *)
Fixpoint pdfplumber_loop (ps : list page) (text : str) : result str :=
  match ps with
  | [] => Ok text
  | p :: rest =>
      bind p (fun t =>
        pdfplumber_loop rest
          (text ++ match t with
                   | Some (c :: s) => c :: s
                   | _ => []
                   end))
  end.

(** Line 69: [text += page.extract_text()]; adding [None] to a string is a
    [TypeError]. *)
Fixpoint PyPDF2_loop (ps : list page) (text : str) : result str :=
  match ps with
  | [] => Ok text
  | p :: rest =>
      bind p (fun t =>
        match t with
        | Some s => PyPDF2_loop rest (text ++ s)
        | None => Raise TypeError
        end)
  end.

(** [with lib.open(path) as doc: text = loop(doc.pages)]: the document is
    closed also when the body raises, and the exception of the body goes
    on. *)
Definition with_document (lib : pdf_library) (pdf_path : str)
    (loop : list page -> str -> result str) : result str :=
  bind (open_pdf lib pdf_path) (fun doc =>
    bind (loop (pages doc) []) (fun text =>
      bind (close doc) (fun _ => Ok text))).

(** Lines 57-75. *)
Definition extract_text_from_pdf (g : globals) (pdf_path : str)
  : option str :=
  let body : result (option str) :=
    bind (load_global (pdfplumber g)) (fun plumber =>
      match plumber with
      | Some lib =>
          bind (with_document lib pdf_path pdfplumber_loop)
               (fun text => Ok (Some text))
      | None =>
          bind (load_global (PyPDF2 g)) (fun pypdf2 =>
            match pypdf2 with
            | Some lib =>
                bind (with_document lib pdf_path PyPDF2_loop)
                     (fun text => Ok (Some text))
            | None => Ok None
            end)
      end) in
  match body with
  | Ok r => r
  | Raise _ => None
  end.

(** [t or ""] *)
Definition or_empty (t : option str) : str :=
  match t with
  | Some s => s
  | None => []
  end.

(** A library that opens every path to the same pages. *)
Definition library_of (ps : list page) : pdf_library :=
  {| open_pdf := fun _ => Ok {| pages := ps; close := Ok tt |} |}.

End PdfText.
Export PdfText.

(** ** The risk scorer on the entries of the GenAI extractor *)

Module Pipeline.

(** An object that cannot be a dict key: a list or a dict. *)
Definition unhashable (v : pyval) : bool :=
  match v with
  | VList _ | VDict _ => true
  | _ => false
  end.

(** [name in BIOMARKER_RANGES], with [BIOMARKER_RANGES[name]] when it
    holds, for a name of any type: hashing a list or a dict is a
    [TypeError]; [None], a boolean or a number is no key. *)
Definition registry_lookup (name : pyval) : result (option info) :=
  match name with
  | VStr s => Ok (dict_get BIOMARKER_RANGES s)
  | VList _ | VDict _ => Raise TypeError
  | VNone | VBool _ | VInt _ | VFloat _ => Ok None
  end.

(** Lines 241-252 on one entry of the GenAI extractor. *)
Definition count_entry (c : counters) (e : genai_entry) : result counters :=
  bind (registry_lookup (e_name e)) (fun found =>
    match found with
    | Some i =>
        if float_ltb (e_value e) (min i) then
          Ok {| abnormal_count := abnormal_count c + 1;
                high_count := high_count c;
                low_count := low_count c + 1 |}
        else if float_gtb (e_value e) (max i) then
          Ok {| abnormal_count := abnormal_count c + 1;
                high_count := high_count c + 1;
                low_count := low_count c |}
        else Ok c
    | None => Ok c
    end).

Fixpoint count_entries (es : list genai_entry) (c : counters)
  : result counters :=
  match es with
  | [] => Ok c
  | e :: rest => bind (count_entry c e) (count_entries rest)
  end.

(** Lines 228-262 on the entries of the GenAI extractor. *)
Definition assess_entries (es : list genai_entry) : result risk_assessment :=
  match es with
  | [] => Ok {| risk := low; score := 0 |}
  | _ =>
      bind (count_entries es
              {| abnormal_count := 0; high_count := 0; low_count := 0 |})
        (fun c =>
           if Nat.eqb (abnormal_count c) 0 then
             Ok {| risk := low; score := 10 |}
           else if Nat.eqb (abnormal_count c) 1 then
             Ok {| risk := moderate; score := 45 |}
           else if Nat.leb (abnormal_count c) 3 then
             Ok {| risk := moderate; score := 55 |}
           else Ok {| risk := high; score := 75 |})
  end.

(** The entry as the scorer of module [Risk] sees it: a name that is not a
    string is no name. *)
Definition biomarker_of_entry (e : genai_entry) : biomarker :=
  {| name := match e_name e with VStr s => Some s | _ => None end;
     value := e_value e;
     b_unit := match e_unit e with VStr s => Some s | _ => None end |}.

(** An entry of the pattern extractor as the scorer reads it: a dict whose
    name is a string. *)
Definition entry_of_biomarker (b : biomarker) : genai_entry :=
  {| e_name := match name b with Some s => VStr s | None => VNone end;
     e_value := value b;
     e_unit := match b_unit b with Some s => VStr s | None => VNone end |}.

(** The list [analyze_report] holds after line 289: that of the GenAI
    extractor, or that of the pattern extractor. *)
Inductive extracted :=
| FromGenAI (es : list genai_entry)
| FromPatterns (bs : list biomarker).

Definition entries_of (x : extracted) : list genai_entry :=
  match x with
  | FromGenAI es => es
  | FromPatterns bs => map entry_of_biomarker bs
  end.

Inductive entries_report :=
| ErrorReport (error : str)
| SuccessReport (biomarkers : extracted) (risk_assessment : risk_assessment).

(** Lines 264-298 with the GenAI extractor's own entries: the scorer is
    called outside the [try], so what it raises leaves the function. *)
Definition analyze_report_entries
    (str_lower : str -> str)
    (extract_text_from_pdf extract_text_from_image parse_csv
       : str -> option str)
    (genai_extract_biomarkers : str -> result (option (list genai_entry)))
    (file_path : str) : result (list call * entries_report) :=
  match dispatch str_lower extract_text_from_pdf extract_text_from_image
                 parse_csv file_path with
  | None =>
      Ok ([], ErrorReport (u "Unsupported file type: "
                           ++ file_ext str_lower file_path))
  | Some (c, None) =>
      Ok ([c], ErrorReport (u "Failed to extract text from file"))
  | Some (c, Some text) =>
      let biomarkers :=
        match genai_extract_biomarkers text with
        | Ok r => r
        | Raise _ => None
        end in
      let (calls, found) :=
        match biomarkers with
        | Some es => ([CallGenAI text], FromGenAI es)
        | None =>
            ([CallGenAI text; CallPattern text],
             FromPatterns (extract_biomarkers_from_text (Some text)))
        end in
      bind (assess_entries (entries_of found)) (fun ra =>
        Ok (c :: calls, SuccessReport found ra))
  end.

(** The entry the GenAI extractor makes of [list_name_object]. *)
Definition list_name_entry : genai_entry :=
  {| e_name := VList []; e_value := int_lit 1; e_unit := VNone |}.

(** The path of a text-extraction call, and the answer of the collaborator
    it stands for. *)
Definition call_path (c : call) : option str :=
  match c with
  | CallPdf p | CallImage p | CallCsv p => Some p
  | CallGenAI _ | CallPattern _ => None
  end.

Definition call_answer
    (extract_text_from_pdf extract_text_from_image parse_csv
       : str -> option str) (c : call) : option str :=
  match c with
  | CallPdf p => extract_text_from_pdf p
  | CallImage p => extract_text_from_image p
  | CallCsv p => parse_csv p
  | CallGenAI _ | CallPattern _ => None
  end.

(** The extensions that lead to a call. *)
Definition call_exts (c : call) : list str :=
  match c with
  | CallPdf _ => [u ".pdf"]
  | CallImage _ => [u ".jpg"; u ".jpeg"; u ".png"]
  | CallCsv _ => [u ".csv"]
  | CallGenAI _ | CallPattern _ => []
  end.

End Pipeline.
Export Pipeline.

(** * Properties *)

Unset Implicit Arguments.

(** ** The risk scorer *)

Module RiskFacts.

Lemma count_step_abnormal (c : counters) (b : biomarker) :
  abnormal_count (count_step c b)
  = abnormal_count c + (if is_abnormal b then 1 else 0).
Proof.
  unfold count_step, is_abnormal.
  destruct (name b) as [n|]; [|lia].
  destruct (dict_get BIOMARKER_RANGES n) as [i|]; [|lia].
  destruct (float_ltb (value b) (min i)); simpl; [reflexivity|].
  destruct (float_gtb (value b) (max i)); simpl; lia.
Qed.

Lemma fold_count_abnormal (bs : list biomarker) (c : counters) :
  abnormal_count (fold_left count_step bs c)
  = abnormal_count c + spec_abnormal_count bs.
Proof.
  revert c; induction bs as [|b bs IH]; intro c.
  - unfold spec_abnormal_count; simpl; lia.
  - cbn [fold_left]. rewrite IH, count_step_abnormal.
    unfold spec_abnormal_count. cbn [filter].
    destruct (is_abnormal b); simpl; lia.
Qed.

Lemma count_loop_abnormal (bs : list biomarker) :
  abnormal_count (count_loop bs) = spec_abnormal_count bs.
Proof. unfold count_loop. rewrite fold_count_abnormal. reflexivity. Qed.

Lemma assess_is_spec_risk (bs : list biomarker) :
  assess_biomarker_risk bs = spec_risk bs.
Proof.
  destruct bs as [|b bs]; [reflexivity|].
  unfold assess_biomarker_risk, spec_risk.
  rewrite count_loop_abnormal.
  destruct (spec_abnormal_count (b :: bs)) as [|[|[|[|n]]]]; reflexivity.
Qed.

Lemma abnormal_has_registry_name (b : biomarker) :
  is_abnormal b = true -> has_registry_name b = true.
Proof.
  unfold is_abnormal, has_registry_name.
  destruct (name b) as [n|]; [|discriminate].
  destruct (dict_get BIOMARKER_RANGES n); [reflexivity|discriminate].
Qed.

Lemma filter_registry_abnormal (bs : list biomarker) :
  filter is_abnormal (filter has_registry_name bs) = filter is_abnormal bs.
Proof.
  induction bs as [|b bs IH]; [reflexivity|].
  cbn [filter].
  destruct (has_registry_name b) eqn:Hr; cbn [filter].
  - rewrite IH; reflexivity.
  - destruct (is_abnormal b) eqn:Ha; [|exact IH].
    apply abnormal_has_registry_name in Ha; congruence.
Qed.

Lemma score_of_nonempty (bs : list biomarker) :
  bs <> [] ->
  score (assess_biomarker_risk bs) = score_of_count (spec_abnormal_count bs).
Proof.
  intro Hne. rewrite assess_is_spec_risk.
  destruct bs as [|b bs]; [congruence|].
  unfold spec_risk, score_of_count.
  destruct (spec_abnormal_count (b :: bs)) as [|[|[|[|n]]]]; reflexivity.
Qed.

Lemma score_of_count_mono (a1 a2 : nat) :
  1 <= a1 -> a1 < a2 -> (score_of_count a1 <= score_of_count a2)%Z.
Proof.
  intros H1 H2. unfold score_of_count.
  destruct a1 as [|[|[|[|a1]]]]; destruct a2 as [|[|[|[|a2]]]]; lia.
Qed.

Lemma abnormal_count_nonempty (bs : list biomarker) :
  1 <= spec_abnormal_count bs -> bs <> [].
Proof. intros H ->. unfold spec_abnormal_count in H; simpl in H; lia. Qed.

End RiskFacts.

(** On entries whose names are strings or missing: the counter the loop of
    [assess_biomarker_risk] computes is the number of entries whose name is
    a registry key and whose value is strictly below that definition's min or
    strictly above its max; entries with a non-registry name do not enter
    that count; and the function returns the contract's table: low/0 on the
    empty list, low/10 when the count is 0 on a non-empty list, moderate/45
    for 1, moderate/55 for 2 or 3, high/75 from 4 on. *)
Lemma typed_scorer_contract (bs : list biomarker) :
  abnormal_count (count_loop bs) = List.length (filter is_abnormal bs)
  /\ spec_abnormal_count bs
     = spec_abnormal_count (filter has_registry_name bs)
  /\ assess_biomarker_risk bs
     = match bs with
       | [] => {| risk := low; score := 0 |}
       | _ :: _ =>
           match spec_abnormal_count bs with
           | 0 => {| risk := low; score := 10 |}
           | 1 => {| risk := moderate; score := 45 |}
           | 2 | 3 => {| risk := moderate; score := 55 |}
           | _ => {| risk := high; score := 75 |}
           end
       end.
Proof.
  split; [apply RiskFacts.count_loop_abnormal|].
  split.
  - unfold spec_abnormal_count.
    rewrite RiskFacts.filter_registry_abnormal; reflexivity.
  - rewrite RiskFacts.assess_is_spec_risk. destruct bs; reflexivity.
Qed.

(** C8.  Risk monotonicity: for two biomarker lists with abnormal counts
    [a1 < a2], both at least 1, the score of the second list is at least
    the score of the first. *)
Theorem risk_score_monotone (bs1 bs2 : list biomarker) :
  1 <= abnormal_count (count_loop bs1) ->
  abnormal_count (count_loop bs1) < abnormal_count (count_loop bs2) ->
  (score (assess_biomarker_risk bs1) <= score (assess_biomarker_risk bs2))%Z.
Proof.
  rewrite !RiskFacts.count_loop_abnormal. intros H1 H2.
  rewrite !RiskFacts.score_of_nonempty
    by (apply RiskFacts.abnormal_count_nonempty; lia).
  apply RiskFacts.score_of_count_mono; assumption.
Qed.

Lemma risk_score_monotone_witness :
  1 <= abnormal_count (count_loop [tsh_low])
  /\ abnormal_count (count_loop [tsh_low])
     < abnormal_count (count_loop [tsh_low; tsh_low])
  /\ (score (assess_biomarker_risk [tsh_low])
      <= score (assess_biomarker_risk
                  [tsh_low; tsh_low]))%Z.
Proof.
  split; [vm_compute; lia|].
  split; [vm_compute; lia|].
  apply (risk_score_monotone [tsh_low]
           [tsh_low; tsh_low]); vm_compute; lia.
Defined.

(** C9.  For every input list the score is one of 0, 10, 45, 55, 75 and the
    risk one of low, moderate, high; no score exceeds 75; and each of the
    five scores is produced by some list. *)
Theorem risk_score_range (bs : list biomarker) :
  In (score (assess_biomarker_risk bs)) [0; 10; 45; 55; 75]%Z
  /\ In (risk (assess_biomarker_risk bs)) [low; moderate; high]
  /\ (0 <= score (assess_biomarker_risk bs) <= 75)%Z
  /\ Forall (fun s => exists l, score (assess_biomarker_risk l) = s)
            [0; 10; 45; 55; 75]%Z.
Proof.
  rewrite RiskFacts.assess_is_spec_risk.
  assert (H : In (score (spec_risk bs)) [0; 10; 45; 55; 75]%Z
              /\ In (risk (spec_risk bs)) [low; moderate; high]).
  { unfold spec_risk. destruct bs as [|b bs]; [simpl; auto|].
    destruct (spec_abnormal_count (b :: bs)) as [|[|[|[|n]]]];
      simpl; auto 10. }
  destruct H as [Hs Hr].
  split; [exact Hs|]. split; [exact Hr|]. split.
  - simpl in Hs. lia.
  - repeat constructor.
    + exists []; reflexivity.
    + exists [tsh_normal]; reflexivity.
    + exists [tsh_low]; reflexivity.
    + exists [tsh_low; tsh_low]; reflexivity.
    + exists (repeat tsh_low 4); reflexivity.
Qed.

(** ** The matcher *)

Module RegexFacts.

Lemma in_and_then (xs : list outcome) (k : str -> list outcome)
    (g : option str) (s' : str) :
  In (g, s') (and_then xs k) ->
  exists g1 s1 g2,
    In (g1, s1) xs /\ In (g2, s') (k s1) /\ g = merge g1 g2.
Proof.
  unfold and_then. rewrite in_flat_map.
  intros [[g1 s1] [Hin H]]. apply in_map_iff in H.
  destruct H as [[g2 s2] [Heq H2]]. cbn in Heq.
  inversion Heq; subst. exists g1, s1, g2. auto.
Qed.

Lemma star_sound (p : char -> bool) (s : str) (g : option str) (s' : str) :
  In (g, s') (star p s) ->
  exists w, s = w ++ s' /\ Matches (Star p) w g.
Proof.
  induction s as [|c t IH]; cbn [star].
  - intros [H|[]]. inversion H; subst. exists []. split; [reflexivity|constructor].
  - destruct (p c) eqn:Hp.
    + rewrite in_app_iff. intros [H|[H|[]]].
      * destruct (IH H) as [w [Hw Hm]].
        assert (g = None) by (inversion Hm; reflexivity). subst g.
        exists (c :: w). split; [cbn; congruence|].
        constructor; assumption.
      * inversion H; subst. exists []. split; [reflexivity|constructor].
    + intros [H|[]]. inversion H; subst.
      exists []. split; [reflexivity|constructor].
Qed.

Lemma rep_sound (r : regex) (m : str -> list outcome) (gr : bool) :
  (forall s g s', In (g, s') (m s) ->
                  exists w, s = w ++ s' /\ Matches r w g) ->
  forall hi lo s g s',
    In (g, s') (rep m gr lo hi s) ->
    exists w, s = w ++ s' /\ Matches (Rep gr lo hi r) w g.
Proof.
  intros Hm.
  assert (Hstop : forall lo hi s g s',
             In (g, s') (match lo with O => [(None, s)] | S _ => [] end) ->
             exists w, s = w ++ s' /\ Matches (Rep gr lo hi r) w g).
  { intros [|lo] hi s g s' H; [|destruct H].
    destruct H as [H|[]]. inversion H; subst.
    exists []. split; [reflexivity|constructor]. }
  induction hi as [|hi IH]; intros lo s g s' Hin; cbn [rep] in Hin.
  - apply Hstop; assumption.
  - assert (Hmore : In (g, s') (and_then (m s) (rep m gr (Nat.pred lo) hi)) ->
                    exists w, s = w ++ s' /\ Matches (Rep gr lo (S hi) r) w g).
    { intro H. apply in_and_then in H.
      destruct H as [g1 [s1 [g2 [H1 [H2 ->]]]]].
      destruct (Hm _ _ _ H1) as [w1 [-> M1]].
      destruct (IH _ _ _ _ H2) as [w2 [-> M2]].
      exists (w1 ++ w2). split; [rewrite app_assoc; reflexivity|].
      constructor; assumption. }
    destruct gr; apply in_app_iff in Hin; destruct Hin as [H|H]; auto.
Qed.

Lemma firstn_consumed (w s' : str) : consumed (w ++ s') s' = w.
Proof.
  unfold consumed. rewrite length_app.
  replace (List.length w + List.length s' - List.length s')
    with (List.length w) by lia.
  rewrite firstn_app, firstn_all, Nat.sub_diag. cbn. apply app_nil_r.
Qed.

(** Every way [rmatch] finds is a match of the pattern on a prefix of the
    text, and the rest is what follows that prefix. *)
Theorem rmatch_sound (r : regex) :
  forall s g s', In (g, s') (rmatch r s) ->
                 exists w, s = w ++ s' /\ Matches r w g.
Proof.
  induction r as [|p|r1 IH1 r2 IH2|gr lo hi r IH|p|r IH];
    intros s g s' Hin; cbn [rmatch] in Hin.
  - destruct Hin as [H|[]]. inversion H; subst.
    exists []. split; [reflexivity|constructor].
  - destruct s as [|c t]; [destruct Hin|].
    destruct (p c) eqn:Hp; [|destruct Hin].
    destruct Hin as [H|[]]. inversion H; subst.
    exists [c]. split; [reflexivity|constructor; assumption].
  - apply in_and_then in Hin.
    destruct Hin as [g1 [s1 [g2 [H1 [H2 ->]]]]].
    destruct (IH1 _ _ _ H1) as [w1 [-> M1]].
    destruct (IH2 _ _ _ H2) as [w2 [-> M2]].
    exists (w1 ++ w2). split; [rewrite app_assoc; reflexivity|].
    constructor; assumption.
  - eapply rep_sound; eauto.
  - apply star_sound; assumption.
  - apply in_map_iff in Hin. destruct Hin as [[g0 s0] [Heq H0]].
    cbn in Heq. inversion Heq; subst.
    destruct (IH _ _ _ H0) as [w [-> M]].
    exists w. split; [reflexivity|].
    rewrite firstn_consumed. econstructor; eassumption.
Qed.

(** A successful search found a match of the pattern somewhere in the
    text. *)
Lemma search_sound (r : regex) (s : str) (g : option str) :
  search r s = Some g ->
  exists pre w post, s = pre ++ w ++ post /\ Matches r w g.
Proof.
  induction s as [|c t IH]; cbn [search].
  - destruct (rmatch r []) as [|[g0 s0] tl] eqn:E; [discriminate|].
    intro H; inversion H; subst; clear H.
    destruct (@rmatch_sound r [] g s0) as [w [Hw M]].
    { rewrite E; left; reflexivity. }
    exists [], w, s0. auto.
  - destruct (rmatch r (c :: t)) as [|[g0 s0] tl] eqn:E.
    + intro H. destruct (IH H) as [pre [w [post [-> M]]]].
      exists (c :: pre), w, post. auto.
    + intro H; inversion H; subst; clear H.
      destruct (@rmatch_sound r (c :: t) g s0) as [w [Hw M]].
      { rewrite E; left; reflexivity. }
      exists [], w, s0. auto.
Qed.

End RegexFacts.

(** ** What the patterns of the extractor can match *)

Module PatternFacts.

Lemma Matches_chr_inv (p : char -> bool) (w : str) (g : option str) :
  Matches (Chr p) w g -> g = None /\ exists c, w = [c] /\ p c = true.
Proof. intro H; inversion H; subst. eauto. Qed.

Lemma Matches_cat_inv (r1 r2 : regex) (w : str) (g : option str) :
  Matches (Cat r1 r2) w g ->
  exists w1 w2 g1 g2,
    w = w1 ++ w2 /\ g = merge g1 g2 /\ Matches r1 w1 g1 /\ Matches r2 w2 g2.
Proof. intro H; inversion H; subst. eauto 10. Qed.

Lemma Matches_grp_inv (r : regex) (w : str) (g : option str) :
  Matches (Grp r) w g -> g = Some w /\ exists g', Matches r w g'.
Proof. intro H; inversion H; subst. eauto. Qed.

Lemma Matches_star_inv (p : char -> bool) (w : str) (g : option str) :
  Matches (Star p) w g -> g = None /\ forallb p w = true.
Proof.
  revert g; induction w as [|c w IH]; intros g H; inversion H; subst.
  - auto.
  - split; [reflexivity|]. cbn.
    match goal with
    | Hp : p c = true, Hw : Matches (Star p) w None |- _ =>
        destruct (IH _ Hw) as [_ ->]; rewrite Hp; reflexivity
    end.
Qed.

Lemma Matches_rep_chr (gr : bool) (p : char -> bool) (hi : nat) :
  forall lo w g,
    Matches (Rep gr lo hi (Chr p)) w g ->
    g = None /\ forallb p w = true
    /\ lo <= List.length w /\ List.length w <= hi.
Proof.
  induction hi as [|hi IH]; intros lo w g H; inversion H; subst.
  - cbn. repeat split; lia.
  - cbn. repeat split; lia.
  - match goal with
    | H1 : Matches (Chr p) _ _, H2 : Matches (Rep _ _ hi _) _ _ |- _ =>
        apply Matches_chr_inv in H1; destruct H1 as [-> [c [-> Hp]]];
        apply IH in H2; destruct H2 as [-> [Hall [Hlo Hhi]]]
    end.
    cbn. rewrite Hp, Hall. repeat split; lia.
Qed.

Lemma Matches_opt_inv (r : regex) (w : str) (g : option str) :
  Matches (opt r) w g -> (w = [] /\ g = None) \/ Matches r w g.
Proof.
  unfold opt. intro H; inversion H; subst.
  - left; auto.
  - right.
    match goal with
    | H1 : Matches r _ _, H2 : Matches (Rep _ _ 0 _) _ _ |- _ =>
        inversion H2; subst; rewrite app_nil_r; destruct g1; exact H1
    end.
Qed.

Lemma Matches_lit (alias : str) :
  forall w g, Matches (lit alias) w g ->
    g = None /\ forall rest, ci_prefix alias (w ++ rest) = true.
Proof.
  induction alias as [|p alias IH]; intros w g H; cbn [lit] in H.
  - inversion H; subst. auto.
  - apply Matches_cat_inv in H.
    destruct H as [w1 [w2 [g1 [g2 [-> [-> [H1 H2]]]]]]].
    apply Matches_chr_inv in H1. destruct H1 as [-> [c [-> Hc]]].
    apply IH in H2. destruct H2 as [-> Hrest].
    split; [reflexivity|]. intro rest. cbn. rewrite Hc, Hrest. reflexivity.
Qed.

(** Whatever the number pattern matches has the four parts of a token. *)
Lemma number_body_token (w : str) (g : option str) :
  Matches number_body w g ->
  g = None /\ exists tk, token_ok tk = true /\ token_text tk = w.
Proof.
  unfold number_body, plus. intro H.
  apply Matches_cat_inv in H.
  destruct H as [wb [w1 [gb [g1 [-> [-> [Hb H]]]]]]].
  apply Matches_cat_inv in H.
  destruct H as [ws [w2 [gs [g2 [-> [-> [Hs H]]]]]]].
  apply Matches_cat_inv in H.
  destruct H as [wd [wf [gd [gf [-> [-> [Hd Hf]]]]]]].
  apply Matches_star_inv in Hs. destruct Hs as [-> Hs].
  apply Matches_rep_chr in Hd. destruct Hd as [-> [Hd [Hlo Hhi]]].
  assert (Hbound : gb = None
            /\ (str_eqb wb [] || str_eqb wb [60%N] || str_eqb wb [62%N])
               = true).
  { apply Matches_opt_inv in Hb. destruct Hb as [[-> ->]|Hb]; [auto|].
    apply Matches_chr_inv in Hb. destruct Hb as [-> [c [-> Hc]]].
    split; [reflexivity|]. unfold is_bound in Hc.
    apply orb_true_iff in Hc. destruct Hc as [Hc|Hc];
      apply N.eqb_eq in Hc; subst; reflexivity. }
  destruct Hbound as [-> Hbound].
  assert (Hfrac : gf = None
            /\ exists f, frac_text f = wf
               /\ match f with
                  | Some (sep, ds) =>
                      is_sep sep && forallb is_digit ds
                      && Nat.leb 1 (List.length ds)
                  | None => true
                  end = true).
  { apply Matches_opt_inv in Hf. destruct Hf as [[-> ->]|Hf].
    - split; [reflexivity|]. exists None. auto.
    - apply Matches_cat_inv in Hf.
      destruct Hf as [wsep [wds [g3 [g4 [-> [-> [H3 H4]]]]]]].
      apply Matches_chr_inv in H3. destruct H3 as [-> [sep [-> Hsep]]].
      apply Matches_cat_inv in H4.
      destruct H4 as [wc [wr [g5 [g6 [-> [-> [H5 H6]]]]]]].
      apply Matches_chr_inv in H5. destruct H5 as [-> [c [-> Hc]]].
      apply Matches_star_inv in H6. destruct H6 as [-> Hr].
      split; [reflexivity|]. exists (Some (sep, c :: wr)).
      split; [reflexivity|]. cbn. rewrite Hsep, Hc, Hr. reflexivity. }
  destruct Hfrac as [-> [f [<- Hf']]].
  split; [reflexivity|].
  exists {| bound := wb; spaces := ws; int_digits := wd; frac := f |}.
  split; [|reflexivity].
  unfold token_ok. cbn [bound spaces int_digits frac].
  rewrite Hbound, Hs, Hd, Hf'.
  apply Nat.leb_le in Hlo. apply Nat.leb_le in Hhi.
  rewrite Hlo, Hhi. reflexivity.
Qed.

Lemma Matches_gap (n : nat) (w : str) (g : option str) :
  Matches (Rep false 0 n (Chr any_char)) w g ->
  g = None /\ List.length w <= n.
Proof.
  intro H. apply Matches_rep_chr in H. tauto.
Qed.

(** Both patterns capture a token, next to an occurrence of the name
    variant. *)
Lemma pattern1_token (name_variant w : str) (g : option str) :
  Matches (pattern1 name_variant) w g ->
  exists tk, g = Some (token_text tk) /\ token_ok tk = true
             /\ forall rest, ci_prefix name_variant (w ++ rest) = true.
Proof.
  unfold pattern1, number_rx. intro H.
  apply Matches_cat_inv in H.
  destruct H as [wn [w1 [gn [g1 [-> [-> [Hn H]]]]]]].
  apply Matches_cat_inv in H.
  destruct H as [wg [wt [gg [gt [-> [-> [Hg Ht]]]]]]].
  apply Matches_lit in Hn. destruct Hn as [-> Hn].
  apply Matches_gap in Hg. destruct Hg as [-> _].
  apply Matches_grp_inv in Ht. destruct Ht as [-> [g' Ht]].
  apply number_body_token in Ht. destruct Ht as [_ [tk [Hok <-]]].
  exists tk. repeat split; [assumption|].
  intro rest. rewrite <- app_assoc. apply Hn.
Qed.

Lemma pattern2_token (name_variant w : str) (g : option str) :
  Matches (pattern2 name_variant) w g ->
  exists tk w1 w2, g = Some (token_text tk) /\ token_ok tk = true
             /\ w = w1 ++ w2
             /\ forall rest, ci_prefix name_variant (w2 ++ rest) = true.
Proof.
  unfold pattern2, number_rx. intro H.
  apply Matches_cat_inv in H.
  destruct H as [wt [w1 [gt [g1 [-> [-> [Ht H]]]]]]].
  apply Matches_cat_inv in H.
  destruct H as [wg [wn [gg [gn [-> [-> [Hg Hn]]]]]]].
  apply Matches_lit in Hn. destruct Hn as [-> Hn].
  apply Matches_gap in Hg. destruct Hg as [-> _].
  apply Matches_grp_inv in Ht. destruct Ht as [-> [g' Ht]].
  apply number_body_token in Ht. destruct Ht as [_ [tk [Hok <-]]].
  exists tk, (token_text tk ++ wg), wn.
  repeat split; [assumption| |assumption].
  rewrite <- app_assoc. reflexivity.
Qed.

Lemma ci_find_app (alias pre t : str) :
  ci_prefix alias t = true -> ci_find alias (pre ++ t) <> None.
Proof.
  intro H. induction pre as [|c pre IH]; cbn [app ci_find].
  - destruct t; cbn [ci_find]; rewrite H; discriminate.
  - destruct (ci_prefix alias (c :: pre ++ t)); [discriminate|].
    destruct (ci_find alias (pre ++ t)); [discriminate|congruence].
Qed.

(** A raw token is found only in a text where the name variant occurs, and
    it has the shape of a token. *)
Lemma find_raw_token (name_variant text raw : str) :
  find_raw name_variant text = Some raw ->
  occurs name_variant text = true
  /\ exists tk, raw = token_text tk /\ token_ok tk = true.
Proof.
  unfold find_raw, occurs.
  destruct (search (pattern1 name_variant) text) as [g|] eqn:E1.
  - intros ->. apply RegexFacts.search_sound in E1.
    destruct E1 as [pre [w [post [-> M]]]].
    apply pattern1_token in M. destruct M as [tk [Hg [Hok Hp]]].
    inversion Hg; subst. split; [|eauto].
    pose proof (@ci_find_app name_variant pre (w ++ post) (Hp post)) as Hne.
    destruct (ci_find name_variant (pre ++ w ++ post)); congruence.
  - destruct (search (pattern2 name_variant) text) as [g|] eqn:E2;
      [|discriminate].
    intros ->. apply RegexFacts.search_sound in E2.
    destruct E2 as [pre [w [post [-> M]]]].
    apply pattern2_token in M.
    destruct M as [tk [w1 [w2 [Hg [Hok [-> Hp]]]]]].
    inversion Hg; subst. split; [|eauto].
    pose proof (@ci_find_app name_variant (pre ++ w1) (w2 ++ post) (Hp post))
      as Hne.
    rewrite <- !app_assoc in *.
    destruct (ci_find name_variant (pre ++ w1 ++ w2 ++ post)); congruence.
Qed.

End PatternFacts.

(** ** Rounding and the conversion of tokens *)

Module FloatFacts.

Local Open Scope Z_scope.

Lemma is_digit_range (c : char) :
  is_digit c = true -> 0 <= Z.of_N c - 48 <= 9.
Proof.
  unfold is_digit, in_range. rewrite andb_true_iff, !N.leb_le. lia.
Qed.

Lemma fold_digits_bound (ds : str) :
  forallb is_digit ds = true ->
  forall acc, 0 <= acc ->
    0 <= fold_left (fun a c => 10 * a + (Z.of_N c - 48)) ds acc
      < (acc + 1) * 10 ^ Z.of_nat (List.length ds).
Proof.
  induction ds as [|c ds IH]; intros Hd acc Hacc.
  - cbn. lia.
  - cbn [forallb] in Hd. apply andb_true_iff in Hd. destruct Hd as [Hc Hd].
    apply is_digit_range in Hc.
    cbn [fold_left List.length]. rewrite Nat2Z.inj_succ, Z.pow_succ_r by lia.
    specialize (IH Hd (10 * acc + (Z.of_N c - 48)) ltac:(lia)).
    assert (0 < 10 ^ Z.of_nat (List.length ds)) by (apply Z.pow_pos_nonneg; lia).
    nia.
Qed.

Lemma digits_value_bound (ds : str) :
  forallb is_digit ds = true ->
  0 <= digits_value ds < 10 ^ Z.of_nat (List.length ds).
Proof.
  intro H. pose proof (@fold_digits_bound ds H 0 ltac:(lia)) as B.
  unfold digits_value. lia.
Qed.

Lemma round_half_even_bounds (a b : Z) :
  0 <= a -> 0 < b -> a / b <= round_half_even a b <= a / b + 1.
Proof.
  intros Ha Hb. unfold round_half_even.
  destruct (2 * (a mod b) ?= b); [destruct (Z.even (a / b))| |]; lia.
Qed.

Lemma binade_upper (p q n : Z) :
  0 < p -> 0 < q -> 0 <= n -> p < 2 ^ n * q -> binade p q <= n.
Proof.
  intros Hp Hq Hn Hlt. unfold binade.
  assert (Z.log2 p < Z.log2 q + 1 + n).
  { apply Z.log2_lt_pow2; [lia|].
    pose proof (Z.log2_nonneg q).
    rewrite Z.pow_add_r by lia.
    assert (q < 2 ^ (Z.log2 q + 1)).
    { pose proof (Z.log2_spec q Hq). rewrite <- Z.add_1_r in H0. lia. }
    assert (0 < 2 ^ n) by (apply Z.pow_pos_nonneg; lia).
    nia. }
  destruct (scaled_le p q (Z.log2 p - Z.log2 q)); lia.
Qed.

(** A decimal below 1000 rounds to a finite double between 0 and 1000. *)
Lemma round_double_below_1000 (p q : Z) :
  0 <= p -> 0 < q -> p < 1000 * q ->
  float_between 0 1000 (round_double p q).
Proof.
  intros Hp Hq Hlt. unfold round_double.
  destruct (p =? 0) eqn:E0.
  - cbn. split; discriminate.
  - apply Z.eqb_neq in E0.
    assert (Hb : binade p q <= 10).
    { apply binade_upper; try lia; change (2 ^ 10) with 1024; lia. }
    set (e := Z.max (binade p q) (-1022)).
    assert (He : -1022 <= e <= 10) by (unfold e; lia).
    set (k := - (e - 52)).
    assert (Hk : 42 <= k <= 1074) by (unfold k; lia).
    replace (e - 52) with (- k) by (unfold k; lia).
    replace (0 <=? - k) with false by (symmetry; apply Z.leb_gt; lia).
    set (m := round_half_even (p * 2 ^ k) q).
    assert (H2k : 0 < 2 ^ k) by (apply Z.pow_pos_nonneg; lia).
    assert (Hm : 0 <= m <= 1000 * 2 ^ k).
    { pose proof (@round_half_even_bounds (p * 2 ^ k) q ltac:(nia) Hq) as B.
      fold m in B.
      assert (0 <= p * 2 ^ k / q) by (apply Z.div_pos; nia).
      assert (p * 2 ^ k / q < 1000 * 2 ^ k).
      { apply Z.div_lt_upper_bound; [lia|]. nia. }
      lia. }
    assert (Hno : scaled_le m (2 ^ 1024) k = false).
    { unfold scaled_le.
      replace (0 <=? k) with true by (symmetry; apply Z.leb_le; lia).
      apply Z.leb_gt.
      assert (1000 < 2 ^ 1024).
      { apply Z.lt_le_trans with (2 ^ 10); [reflexivity|].
        apply Z.pow_le_mono_r; lia. }
      nia. }
    rewrite Hno. unfold float_between, dyadic.
    replace (0 <=? - k) with false by (symmetry; apply Z.leb_gt; lia).
    rewrite Z.opp_involutive.
    rewrite !Qred_correct. unfold Qle. cbn [Qnum Qden].
    rewrite Z2Pos.id by lia. lia.
Qed.

End FloatFacts.

(** ** Cleaning and converting a token *)

Module TokenFacts.

Lemma isspace_cases (c : char) : isspace c = true -> In c space_chars.
Proof.
  unfold isspace, in_range. intro H.
  repeat rewrite orb_true_iff in H.
  rewrite ?andb_true_iff, ?N.leb_le, ?N.eqb_eq in H.
  unfold space_chars. cbn [In]. lia.
Qed.

Ltac space_cases c H :=
  apply isspace_cases in H; unfold space_chars in H; cbn [In] in H;
  repeat (destruct H as [H|H]; [subst c; try reflexivity; try discriminate|]);
  try contradiction.

Lemma space_float_space (c : char) :
  isspace c = true -> float_space c = negb (in_range 28 31 c).
Proof. intro H. space_cases c H. Qed.

Lemma space_not_special (c : char) :
  isspace c = true ->
  (c =? 44)%N = false /\ (c =? 60)%N = false /\ (c =? 62)%N = false
  /\ is_digit c = false.
Proof. intro H. space_cases c H; repeat split. Qed.

Lemma separator_not_special (c : char) :
  in_range 28 31 c = true ->
  (c =? 43)%N = false /\ (c =? 45)%N = false /\ (c =? 46)%N = false
  /\ is_digit c = false /\ float_space c = false.
Proof.
  unfold in_range. rewrite andb_true_iff, !N.leb_le. intros [H1 H2].
  assert (H : c = 28%N \/ c = 29%N \/ c = 30%N \/ c = 31%N) by lia.
  destruct H as [-> | [-> | [-> | ->]]]; repeat split.
Qed.

Lemma digit_not_special (c : char) :
  is_digit c = true ->
  negb (c =? 32)%N = true /\ negb (c =? 9)%N = true
  /\ (c =? 44)%N = false /\ (c =? 60)%N = false /\ (c =? 62)%N = false
  /\ (c =? 43)%N = false /\ (c =? 45)%N = false /\ (c =? 46)%N = false
  /\ float_space c = false.
Proof.
  unfold is_digit, in_range. rewrite andb_true_iff, !N.leb_le. intros [H1 H2].
  assert (H : In c [48; 49; 50; 51; 52; 53; 54; 55; 56; 57]%N)
    by (cbn [In]; lia).
  cbn [In] in H.
  repeat (destruct H as [H|H]; [subst c; repeat split|]); contradiction.
Qed.

Lemma sep_cases (c : char) : is_sep c = true -> c = 46%N \/ c = 44%N.
Proof.
  unfold is_sep. rewrite orb_true_iff, !N.eqb_eq. tauto.
Qed.

Lemma filter_same {A : Type} (f P : A -> bool) (l : list A) :
  (forall x, P x = true -> f x = true) ->
  forallb P l = true -> filter f l = l.
Proof.
  intros Hf. induction l as [|x l IH]; [reflexivity|].
  cbn. rewrite andb_true_iff. intros [Hx Hl].
  rewrite (Hf _ Hx), (IH Hl). reflexivity.
Qed.

Lemma map_same {A : Type} (f : A -> A) (P : A -> bool) (l : list A) :
  (forall x, P x = true -> f x = x) ->
  forallb P l = true -> map f l = l.
Proof.
  intros Hf. induction l as [|x l IH]; [reflexivity|].
  cbn. rewrite andb_true_iff. intros [Hx Hl].
  rewrite (Hf _ Hx), (IH Hl). reflexivity.
Qed.

Lemma remove_char_app (x : char) (a b : str) :
  remove_char x (a ++ b) = remove_char x a ++ remove_char x b.
Proof. apply filter_app. Qed.

Lemma replace_char_app (x y : char) (a b : str) :
  replace_char x y (a ++ b) = replace_char x y a ++ replace_char x y b.
Proof. apply map_app. Qed.

Lemma remove_char_digits (x : char) (ds : str) :
  (x = 32 \/ x = 9)%N -> forallb is_digit ds = true -> remove_char x ds = ds.
Proof.
  intros Hx. apply filter_same. intros c Hc.
  apply digit_not_special in Hc. destruct Hx as [->| ->]; tauto.
Qed.

Lemma replace_char_digits (ds : str) :
  forallb is_digit ds = true -> replace_char 44 46 ds = ds.
Proof.
  apply map_same. intros c Hc. apply digit_not_special in Hc.
  destruct Hc as [_ [_ [-> _]]]. reflexivity.
Qed.

Lemma forallb_filter {A : Type} (f P : A -> bool) (l : list A) :
  forallb P l = true -> forallb P (filter f l) = true.
Proof.
  induction l as [|x l IH]; [reflexivity|].
  cbn. rewrite andb_true_iff. intros [Hx Hl].
  destruct (f x); cbn; [rewrite Hx|]; auto.
Qed.

Lemma kept_spaces_space (tk : token) :
  forallb isspace (spaces tk) = true ->
  forallb isspace (kept_spaces tk) = true.
Proof.
  intro H. unfold kept_spaces, remove_char.
  apply forallb_filter, forallb_filter, H.
Qed.

Lemma replace_char_spaces (ws : str) :
  forallb isspace ws = true -> replace_char 44 46 ws = ws.
Proof.
  apply map_same. intros c Hc. apply space_not_special in Hc.
  destruct Hc as [-> _]. reflexivity.
Qed.

Lemma existsb_kept (tk : token) :
  existsb (in_range 28 31) (kept_spaces tk)
  = existsb (in_range 28 31) (spaces tk).
Proof.
  unfold kept_spaces, remove_char.
  induction (spaces tk) as [|c ws IH]; [reflexivity|].
  cbn [filter existsb].
  destruct (in_range 28 31 c) eqn:Hc.
  - assert (H32 : negb (c =? 32)%N = true /\ negb (c =? 9)%N = true).
    { unfold in_range in Hc. rewrite andb_true_iff, !N.leb_le in Hc.
      rewrite !negb_true_iff, !N.eqb_neq. lia. }
    destruct H32 as [H32 H9]. rewrite H32. cbn [filter]. rewrite H9.
    cbn [existsb]. rewrite Hc. reflexivity.
  - cbn [orb]. destruct (negb (c =? 32)%N); cbn [filter]; [|exact IH].
    destruct (negb (c =? 9)%N); cbn [existsb]; [|exact IH].
    rewrite Hc. exact IH.
Qed.

(** The cleaning of a token leaves its white space other than spaces and
    tabs, its digits, and a dot for the separator. *)
Lemma clean_token (tk : token) :
  token_ok tk = true -> clean (token_text tk) = cleaned_text tk.
Proof.
  unfold token_ok. rewrite !andb_true_iff.
  intros [[[[[Hb Hs] Hd] Hlo] Hhi] Hf].
  assert (Hfrac : remove_char 9 (remove_char 32 (frac_text (frac tk)))
                  = frac_text (frac tk)).
  { destruct (frac tk) as [[sep ds]|]; [|reflexivity].
    rewrite !andb_true_iff in Hf. destruct Hf as [[Hsep Hds] _].
    cbn [frac_text]. unfold remove_char at 2. cbn [filter].
    apply sep_cases in Hsep.
    destruct Hsep as [-> | ->]; cbn [N.eqb Pos.eqb negb];
      fold (remove_char 32 ds); rewrite (remove_char_digits 32 ds (or_introl eq_refl) Hds);
      unfold remove_char at 1; cbn [filter N.eqb Pos.eqb negb];
      fold (remove_char 9 ds); rewrite (remove_char_digits 9 ds (or_intror eq_refl) Hds);
      reflexivity. }
  assert (Hbody :
    replace_char 44 46
      (remove_char 9 (remove_char 32
         (spaces tk ++ int_digits tk ++ frac_text (frac tk))))
    = cleaned_text tk).
  { rewrite !remove_char_app, Hfrac.
    rewrite (remove_char_digits 32 _ (or_introl eq_refl) Hd).
    rewrite (remove_char_digits 9 _ (or_intror eq_refl) Hd).
    rewrite !replace_char_app.
    rewrite (replace_char_digits _ Hd).
    fold (kept_spaces tk).
    rewrite (replace_char_spaces _ (kept_spaces_space tk Hs)).
    reflexivity. }
  assert (Hstart : startswith_char 60 (cleaned_text tk)
                   || startswith_char 62 (cleaned_text tk) = false).
  { unfold cleaned_text.
    pose proof (kept_spaces_space tk Hs) as Hk.
    destruct (kept_spaces tk) as [|c ws].
    - destruct (int_digits tk) as [|c ds]; [discriminate|].
      cbn in Hd. apply andb_true_iff in Hd. destruct Hd as [Hc _].
      apply digit_not_special in Hc. cbn [app startswith_char].
      destruct Hc as [_ [_ [_ [-> [-> _]]]]]. reflexivity.
    - cbn in Hk. apply andb_true_iff in Hk. destruct Hk as [Hc _].
      apply space_not_special in Hc. cbn [app startswith_char].
      destruct Hc as [_ [-> [-> _]]]. reflexivity. }
  unfold clean, token_text.
  rewrite !orb_true_iff in Hb.
  destruct Hb as [[Hb|Hb]|Hb]; unfold str_eqb in Hb;
    destruct (list_eq_dec N.eq_dec (bound tk) _) as [E|E]; try discriminate;
    rewrite E; clear Hb.
  - cbn [app]. rewrite Hbody, Hstart. reflexivity.
  - rewrite !remove_char_app, replace_char_app.
    rewrite <- !remove_char_app. fold (remove_char 9).
    change (replace_char 44 46 (remove_char 9 (remove_char 32 [60%N])))
      with [60%N].
    rewrite Hbody. reflexivity.
  - rewrite !remove_char_app, replace_char_app.
    rewrite <- !remove_char_app.
    change (replace_char 44 46 (remove_char 9 (remove_char 32 [62%N])))
      with [62%N].
    rewrite Hbody. reflexivity.
Qed.

Lemma lstrip_spaces (ws rest : str) :
  forallb isspace ws = true ->
  existsb (in_range 28 31) ws = false ->
  lstrip (ws ++ rest) = lstrip rest.
Proof.
  induction ws as [|c ws IH]; [reflexivity|].
  cbn [forallb existsb app lstrip].
  rewrite andb_true_iff, orb_false_iff. intros [Hc Hs] [Hr Hx].
  rewrite (space_float_space c Hc), Hr. cbn. auto.
Qed.

Lemma lstrip_separator (ws rest : str) :
  forallb isspace ws = true ->
  existsb (in_range 28 31) ws = true ->
  exists c tail, lstrip (ws ++ rest) = c :: tail ++ rest
                 /\ in_range 28 31 c = true.
Proof.
  induction ws as [|c ws IH]; [discriminate|].
  cbn [forallb existsb app lstrip].
  rewrite andb_true_iff. intros [Hc Hs] Hx.
  rewrite (space_float_space c Hc).
  destruct (in_range 28 31 c) eqn:Hr; cbn [negb].
  - exists c, ws. auto.
  - cbn [orb] in Hx. apply IH; assumption.
Qed.

Lemma lstrip_stop (c : char) (t : str) :
  float_space c = false -> lstrip (c :: t) = c :: t.
Proof. intro H. cbn. rewrite H. reflexivity. Qed.

Lemma rstrip_stop (x : str) (c : char) :
  float_space c = false -> rev (lstrip (rev (x ++ [c]))) = x ++ [c].
Proof.
  intro H. rewrite rev_app_distr. cbn [rev app].
  rewrite lstrip_stop by assumption.
  cbn [rev]. rewrite rev_involutive. reflexivity.
Qed.

Lemma span_digits_app (ds rest : str) :
  forallb is_digit ds = true ->
  match rest with [] => True | c :: _ => is_digit c = false end ->
  span_digits (ds ++ rest) = (ds, rest).
Proof.
  intros Hd Hr. induction ds as [|c ds IH].
  - destruct rest as [|c rest]; [reflexivity|]. cbn. rewrite Hr. reflexivity.
  - cbn in Hd. apply andb_true_iff in Hd. destruct Hd as [Hc Hd].
    cbn. rewrite Hc, (IH Hd). reflexivity.
Qed.

(** The digits and the fraction of a cleaned token end with a digit. *)
Lemma token_ends_with_digit (tk : token) :
  token_ok tk = true ->
  exists x c, int_digits tk ++ replace_char 44 46 (frac_text (frac tk))
              = x ++ [c]
              /\ float_space c = false.
Proof.
  unfold token_ok. rewrite !andb_true_iff.
  intros [[[[[_ _] Hd] Hlo] _] Hf].
  assert (Hlast : forall ds, forallb is_digit ds = true -> ds <> [] ->
                       exists x c, ds = x ++ [c] /\ float_space c = false).
  { intros ds Hds Hne. destruct (exists_last Hne) as [x [c ->]].
    exists x, c. split; [reflexivity|].
    rewrite forallb_app in Hds. apply andb_true_iff in Hds.
    destruct Hds as [_ Hc]. cbn in Hc. rewrite andb_true_r in Hc.
    apply digit_not_special in Hc. tauto. }
  destruct (frac tk) as [[sep ds]|].
  - rewrite !andb_true_iff in Hf. destruct Hf as [[_ Hds] Hn].
    destruct (Hlast ds Hds) as [x [c [-> Hc]]].
    { intros ->. discriminate. }
    cbn [frac_text]. unfold replace_char. cbn [map].
    fold (replace_char 44 46 (x ++ [c])).
    rewrite (replace_char_digits _ Hds).
    exists (int_digits tk ++ (if (sep =? 44)%N then 46%N else sep) :: x), c.
    split; [|assumption]. rewrite <- app_assoc. reflexivity.
  - cbn [frac_text replace_char map]. rewrite app_nil_r.
    apply Hlast; [assumption|]. intros E. rewrite E in Hlo. discriminate.
Qed.

(** [float] on a cleaned token: the decimal of its digits, or a failure
    when a separator 28..31 stands before them. *)
Theorem float_cleaned_token (tk : token) :
  token_ok tk = true -> py_float (cleaned_text tk) = token_value tk.
Proof.
  intro Hok.
  destruct (token_ends_with_digit tk Hok) as [x [c [Hend Hc]]].
  revert Hok. unfold token_ok. rewrite !andb_true_iff.
  intros [[[[[_ Hs] Hd] Hlo] _] Hf].
  pose proof (kept_spaces_space tk Hs) as Hk.
  unfold py_float, strip, token_value, cleaned_text.
  rewrite <- (existsb_kept tk).
  destruct (existsb (in_range 28 31) (kept_spaces tk)) eqn:Hx.
  - destruct (lstrip_separator (kept_spaces tk)
                (int_digits tk ++ replace_char 44 46 (frac_text (frac tk)))
                Hk Hx) as [c0 [tail [-> Hc0]]].
    rewrite Hend.
    replace (c0 :: tail ++ x ++ [c]) with ((c0 :: tail ++ x) ++ [c])
      by (cbn; rewrite <- app_assoc; reflexivity).
    rewrite rstrip_stop by assumption.
    apply separator_not_special in Hc0.
    destruct Hc0 as [H43 [H45 [H46 [Hdig _]]]].
    cbn [app]. rewrite H43, H45.
    unfold parse_unsigned. cbn [span_digits]. rewrite Hdig, H46. reflexivity.
  - rewrite lstrip_spaces by assumption.
    destruct (int_digits tk) as [|d ds] eqn:Ed; [discriminate|].
    assert (Hd0 : is_digit d = true).
    { cbn in Hd. apply andb_true_iff in Hd. tauto. }
    pose proof (digit_not_special d Hd0) as Hsp.
    destruct Hsp as [_ [_ [_ [_ [_ [H43 [H45 [_ Hfs]]]]]]]].
    cbn [app]. rewrite lstrip_stop by assumption.
    change (d :: ds ++ replace_char 44 46 (frac_text (frac tk)))
      with ((d :: ds) ++ replace_char 44 46 (frac_text (frac tk))).
    rewrite Hend, rstrip_stop by assumption. rewrite <- Hend.
    cbn [app]. rewrite H43, H45.
    change (d :: ds ++ replace_char 44 46 (frac_text (frac tk)))
      with ((d :: ds) ++ replace_char 44 46 (frac_text (frac tk))).
    unfold parse_unsigned, token_decimal. rewrite Ed.
    destruct (frac tk) as [[sep fd]|].
    + rewrite !andb_true_iff in Hf. destruct Hf as [[Hsep Hfd] Hn].
      cbn [frac_text frac_digits].
      assert (Hdot : replace_char 44 46 (sep :: fd) = 46%N :: fd).
      { apply sep_cases in Hsep.
        destruct Hsep as [-> | ->];
          [change (replace_char 44 46 (46%N :: fd))
             with (46%N :: replace_char 44 46 fd)
          |change (replace_char 44 46 (44%N :: fd))
             with (46%N :: replace_char 44 46 fd)];
          rewrite (replace_char_digits _ Hfd); reflexivity. }
      rewrite Hdot.
      rewrite (span_digits_app (d :: ds) (46%N :: fd) Hd) by reflexivity.
      cbn [N.eqb Pos.eqb].
      replace fd with (fd ++ []) at 1 by apply app_nil_r.
      rewrite (span_digits_app fd [] Hfd) by exact I.
      reflexivity.
    + cbn [frac_text frac_digits replace_char map].
      rewrite (span_digits_app (d :: ds) [] Hd) by exact I.
      rewrite app_nil_r. reflexivity.
Qed.

(** A converted token is a finite float between 0 and 1000. *)
Lemma token_value_range (tk : token) (v : pyfloat) :
  token_ok tk = true -> token_value tk = Some v -> float_between 0 1000 v.
Proof.
  intros Hok. unfold token_value.
  destruct (existsb (in_range 28 31) (spaces tk)); [discriminate|].
  intro H; inversion H; subst; clear H.
  revert Hok. unfold token_ok. rewrite !andb_true_iff.
  intros [[[[[_ _] Hd] Hlo] Hhi] Hf].
  assert (Hfd : forallb is_digit (frac_digits (frac tk)) = true).
  { destruct (frac tk) as [[sep fd]|]; [|reflexivity].
    rewrite !andb_true_iff in Hf. tauto. }
  unfold token_decimal.
  assert (Hall : forallb is_digit (int_digits tk ++ frac_digits (frac tk))
                 = true).
  { rewrite forallb_app, Hd, Hfd. reflexivity. }
  pose proof (FloatFacts.digits_value_bound _ Hall) as B.
  rewrite length_app, Nat2Z.inj_add, Z.pow_add_r in B by lia.
  apply Nat.leb_le in Hhi.
  assert (H10 : (0 < 10 ^ Z.of_nat (List.length (frac_digits (frac tk))))%Z)
    by (apply Z.pow_pos_nonneg; lia).
  assert (H3 : (10 ^ Z.of_nat (List.length (int_digits tk)) <= 10 ^ 3)%Z)
    by (apply Z.pow_le_mono_r; lia).
  apply FloatFacts.round_double_below_1000; try lia.
  change (10 ^ 3)%Z with 1000%Z in H3. nia.
Qed.

End TokenFacts.

(** ** The structure of the extraction *)

Module ExtractFacts.

(** The loop over the name variants returns the first candidate that
    converts. *)
Lemma scan_names_first (text : str) (names : list str) :
  scan_names text names = first_some (map (candidate text) names).
Proof.
  induction names as [|nv rest IH]; [reflexivity|].
  cbn [scan_names map first_some]. unfold candidate at 1.
  destruct (find_raw nv text) as [[|c raw]|]; try exact IH.
  destruct (py_float (clean (c :: raw))); [reflexivity|exact IH].
Qed.

Lemma fold_registry (text : str) (d : list (str * info))
    (found : list biomarker) :
  fold_left
    (fun found kv =>
       match scan_names text (names (snd kv)) with
       | Some v =>
           found ++ [{| name := Some (fst kv); value := v; b_unit := None |}]
       | None => found
       end)
    d found
  = found ++ flat_map (entry_of text) d.
Proof.
  revert found. induction d as [|kv d IH]; intro found.
  - cbn. rewrite app_nil_r. reflexivity.
  - cbn [fold_left flat_map]. rewrite IH. unfold entry_of at 2.
    rewrite <- scan_names_first.
    destruct (scan_names text (names (snd kv)));
      [rewrite <- app_assoc|]; reflexivity.
Qed.

(** The result lists, in registry order, the entry of each definition that
    has one. *)
Lemma scan_registry_flat (text : str) (d : list (str * info)) :
  scan_registry text d = flat_map (entry_of text) d.
Proof. unfold scan_registry. apply fold_registry. Qed.

Lemma entry_names_subseq (text : str) (d : list (str * info)) :
  Subseq (map name (flat_map (entry_of text) d)) (map Some (keys d)).
Proof.
  induction d as [|kv d IH]; [constructor|].
  cbn [flat_map keys map]. rewrite map_app. unfold entry_of at 1.
  destruct (first_some (map (candidate text) (names (snd kv)))).
  - cbn. apply Subseq_take. exact IH.
  - cbn. apply Subseq_skip. exact IH.
Qed.

Lemma subseq_in {A : Type} (l1 l2 : list A) (x : A) :
  Subseq l1 l2 -> In x l1 -> In x l2.
Proof.
  induction 1 as [|y l1 l2 _ IH|y l1 l2 _ IH]; cbn; intuition.
Qed.

Lemma subseq_nodup {A : Type} (l1 l2 : list A) :
  Subseq l1 l2 -> NoDup l2 -> NoDup l1.
Proof.
  induction 1 as [|y l1 l2 S IH|y l1 l2 S IH]; intro N.
  - constructor.
  - inversion N; subst. auto.
  - inversion N; subst. constructor; [|auto].
    intro Hin. apply (subseq_in _ _ _ S) in Hin. contradiction.
Qed.

Lemma registry_keys_nodup : NoDup (map Some (keys BIOMARKER_RANGES)).
Proof.
  cbn. repeat constructor; cbn; intuition discriminate.
Qed.

(** A candidate is the value of a well-formed token. *)
Lemma candidate_token (text nv : str) (v : pyfloat) :
  candidate text nv = Some v ->
  occurs nv text = true
  /\ exists tk, token_ok tk = true /\ find_raw nv text = Some (token_text tk)
                /\ token_value tk = Some v.
Proof.
  unfold candidate.
  destruct (find_raw nv text) as [raw|] eqn:E; [|discriminate].
  destruct (PatternFacts.find_raw_token _ _ _ E) as [Hocc [tk [-> Hok]]].
  split; [exact Hocc|]. exists tk. split; [exact Hok|]. split; [reflexivity|].
  destruct (token_text tk) as [|c raw] eqn:Et; [discriminate|].
  rewrite <- Et, (TokenFacts.clean_token tk Hok),
    (TokenFacts.float_cleaned_token tk Hok) in H.
  exact H.
Qed.

Lemma first_some_in {A : Type} (l : list (option A)) (a : A) :
  first_some l = Some a -> In (Some a) l.
Proof.
  induction l as [|[x|] l IH]; cbn; [discriminate| |].
  - intro H; inversion H; auto.
  - auto.
Qed.

Lemma entry_of_token (text : str) (kv : str * info) (b : biomarker) :
  In b (entry_of text kv) ->
  name b = Some (fst kv)
  /\ exists nv tk, In nv (names (snd kv)) /\ occurs nv text = true
       /\ token_ok tk = true /\ token_value tk = Some (value b).
Proof.
  unfold entry_of.
  destruct (first_some (map (candidate text) (names (snd kv)))) as [v|] eqn:E;
    [|intros []].
  intros [<-|[]]. split; [reflexivity|].
  apply first_some_in, in_map_iff in E. destruct E as [nv [Hc Hin]].
  apply candidate_token in Hc. destruct Hc as [Hocc [tk [Hok [_ Hv]]]].
  exists nv, tk. auto.
Qed.

Lemma values_in_range (text : str) (d : list (str * info)) :
  Forall (fun b => float_between 0 1000 (value b))
         (flat_map (entry_of text) d).
Proof.
  apply Forall_forall. intros b Hin. apply in_flat_map in Hin.
  destruct Hin as [kv [_ Hb]]. apply entry_of_token in Hb.
  destruct Hb as [_ [nv [tk [_ [_ [Hok Hv]]]]]].
  exact (TokenFacts.token_value_range tk _ Hok Hv).
Qed.

Lemma extract_flat (text : str) :
  extract_biomarkers_from_text (Some text)
  = match text with
    | [] => []
    | _ :: _ => flat_map (entry_of text) BIOMARKER_RANGES
    end.
Proof.
  destruct text; [reflexivity|].
  unfold extract_biomarkers_from_text. apply scan_registry_flat.
Qed.

Lemma dict_get_in (d : list (str * info)) (k : str) (i i' : info) :
  NoDup (keys d) -> In (k, i) d -> In (k, i') d -> i = i'.
Proof.
  induction d as [|[k0 i0] d IH]; [intros _ []|].
  cbn [keys map fst]. intros N H1 H2. inversion N; subst.
  destruct H1 as [H1|H1]; destruct H2 as [H2|H2].
  - congruence.
  - inversion H1; subst. exfalso. apply H3.
    change (In (fst (k, i')) (map fst d)). apply in_map. exact H2.
  - inversion H2; subst. exfalso. apply H3.
    change (In (fst (k, i)) (map fst d)). apply in_map. exact H1.
  - apply IH; assumption.
Qed.

Lemma keys_nodup : NoDup (keys BIOMARKER_RANGES).
Proof.
  cbn. repeat constructor; cbn; intuition discriminate.
Qed.

(** No entry for a definition none of whose name variants occurs. *)
Lemma absent_no_entry (text k : str) (i : info) :
  In (k, i) BIOMARKER_RANGES ->
  (forall nv, In nv (names i) -> occurs nv text = false) ->
  ~ In (Some k) (map name (extract_biomarkers_from_text (Some text))).
Proof.
  intros Hreg Habs Hin. rewrite extract_flat in Hin.
  destruct text as [|c t]; [exact Hin|].
  apply in_map_iff in Hin. destruct Hin as [b [Hn Hb]].
  apply in_flat_map in Hb. destruct Hb as [[k' i'] [Hreg' Hb]].
  apply entry_of_token in Hb.
  destruct Hb as [Hname [nv [tk [Hnv [Hocc _]]]]].
  cbn [fst snd] in *. assert (k' = k) by congruence. subst k'.
  assert (i = i') by (eapply dict_get_in; eauto using keys_nodup).
  subst i'. rewrite (Habs nv Hnv) in Hocc. discriminate.
Qed.

End ExtractFacts.

(** ** First matches *)

Module SearchFacts.

Lemma merge_none (g : option str) : merge None g = g.
Proof. destruct g; reflexivity. Qed.

Lemma and_then_single (s : str) (k : str -> list outcome) :
  and_then [(None, s)] k = k s.
Proof.
  unfold and_then. cbn [flat_map fst snd]. rewrite app_nil_r.
  induction (k s) as [|[g s'] l IH]; [reflexivity|].
  cbn [map fst snd]. rewrite merge_none, IH. reflexivity.
Qed.

Lemma and_then_nil (k : str -> list outcome) : and_then [] k = [].
Proof. reflexivity. Qed.

Lemma and_then_cons (o : outcome) (xs : list outcome)
    (k : str -> list outcome) :
  and_then (o :: xs) k
  = map (fun o2 => (merge (fst o) (fst o2), snd o2)) (k (snd o))
    ++ and_then xs k.
Proof. reflexivity. Qed.

Lemma and_then_app (xs ys : list outcome) (k : str -> list outcome) :
  and_then (xs ++ ys) k = and_then xs k ++ and_then ys k.
Proof. unfold and_then. apply flat_map_app. Qed.

Lemma hd_error_app {A : Type} (l1 l2 : list A) :
  hd_error (l1 ++ l2)
  = match hd_error l1 with Some x => Some x | None => hd_error l2 end.
Proof. destruct l1; reflexivity. Qed.

(** A literal matches exactly where it is a case-insensitive prefix. *)
Lemma rmatch_lit (alias s : str) :
  rmatch (lit alias) s
  = if ci_prefix alias s then [(None, skipn (List.length alias) s)] else [].
Proof.
  revert s. induction alias as [|p alias IH]; intro s; [reflexivity|].
  cbn [lit rmatch ci_prefix List.length].
  destruct s as [|c t]; [reflexivity|].
  destruct (ci_match p c); [|reflexivity].
  rewrite and_then_single, IH. reflexivity.
Qed.

Lemma lazy_gap_head (m : str -> list outcome) (n : nat) (s : str) :
  hd_error (and_then (rep (rmatch (Chr any_char)) false 0 n s) m)
  = lazy_gap_first m n s.
Proof.
  revert s. induction n as [|n IH]; intro s.
  - cbn [rep lazy_gap_first]. rewrite and_then_single.
    destruct (hd_error (m s)); [reflexivity|]. destruct s; reflexivity.
  - cbn [rep lazy_gap_first Nat.pred].
    change ([(None, s)] ++ and_then (rmatch (Chr any_char) s)
                             (rep (rmatch (Chr any_char)) false 0 n))
      with ((None, s) :: and_then (rmatch (Chr any_char) s)
                             (rep (rmatch (Chr any_char)) false 0 n)).
    rewrite and_then_cons. cbn [fst snd]. rewrite hd_error_app.
    assert (Hmap : map (fun o2 : outcome => (merge None (fst o2), snd o2)) (m s)
                   = m s).
    { induction (m s) as [|[g s'] l IHl]; [reflexivity|].
      cbn [map fst snd]. rewrite merge_none, IHl. reflexivity. }
    rewrite Hmap.
    destruct (hd_error (m s)); [reflexivity|].
    destruct s as [|c t]; [reflexivity|].
    cbn [rmatch any_char]. rewrite and_then_single. apply IH.
Qed.

(** The first match of pattern 1 at a position where the name variant
    stands. *)
Lemma pattern1_head (alias s : str) :
  hd_error (rmatch (pattern1 alias) s)
  = if ci_prefix alias s
    then lazy_gap_first (rmatch number_rx) 60 (skipn (List.length alias) s)
    else None.
Proof.
  unfold pattern1. cbn [rmatch]. rewrite rmatch_lit.
  destruct (ci_prefix alias s); [|reflexivity].
  rewrite and_then_single. apply lazy_gap_head.
Qed.

Lemma search_head (r : regex) (s : str) (o : outcome) :
  hd_error (rmatch r s) = Some o -> search r s = Some (fst o).
Proof.
  destruct s; cbn [search]; destruct (rmatch r _); cbn; congruence.
Qed.

Lemma search_step (r : regex) (c : char) (t : str) :
  hd_error (rmatch r (c :: t)) = None -> search r (c :: t) = search r t.
Proof.
  cbn [search]. destruct (rmatch r (c :: t)); [reflexivity|discriminate].
Qed.

(** Pattern 1 finds nothing before the first occurrence of the name
    variant. *)
Lemma search_pattern1_first (alias pre rest : str) :
  ci_find alias (pre ++ rest) = Some (List.length pre) ->
  search (pattern1 alias) (pre ++ rest) = search (pattern1 alias) rest.
Proof.
  induction pre as [|c pre IH]; [reflexivity|].
  cbn [app List.length ci_find].
  destruct (ci_prefix alias (c :: pre ++ rest)) eqn:E; [discriminate|].
  intro H. rewrite search_step.
  - apply IH. destruct (ci_find alias (pre ++ rest)); cbn in H;
      [congruence|discriminate].
  - rewrite pattern1_head, E. reflexivity.
Qed.

Lemma starts_with_digit_star (post : str) :
  starts_with_digit post = false -> star is_digit post = [(None, post)].
Proof.
  destruct post as [|c post]; [reflexivity|].
  cbn [starts_with_digit star]. intros ->. reflexivity.
Qed.

Lemma starts_with_digit_chr (post : str) :
  starts_with_digit post = false -> rmatch (Chr is_digit) post = [].
Proof.
  destruct post as [|c post]; [reflexivity|].
  cbn [starts_with_digit rmatch]. intros ->. reflexivity.
Qed.

Lemma starts_with_fraction_none (post : str) :
  starts_with_fraction post = false ->
  rmatch (Cat (Chr is_sep) (plus is_digit)) post = [].
Proof.
  unfold plus. destruct post as [|c [|d post]]; cbn [starts_with_fraction].
  - reflexivity.
  - intros _. cbn [rmatch]. destruct (is_sep c); reflexivity.
  - intro H. cbn [rmatch]. destruct (is_sep c); [|reflexivity].
    cbn [andb] in H. rewrite and_then_single. cbn [rmatch]. rewrite H.
    reflexivity.
Qed.

Lemma number_after_colon (rest : str) :
  rmatch number_rx (58%N :: rest) = [].
Proof. reflexivity. Qed.

Lemma number_before_bound (rest : str) :
  rmatch number_rx (32%N :: 60%N :: rest) = [].
Proof. reflexivity. Qed.

(** The matches of the number pattern at [" 3,1"], most preferred first. *)
Lemma number_at_t3 (post : str) :
  starts_with_digit post = false ->
  rmatch number_rx (u " 3,1" ++ post)
  = [(Some (u " 3,1"), post); (Some (u " 3"), u ",1" ++ post)].
Proof.
  intro H. apply starts_with_digit_star in H.
  unfold number_rx. cbn [rmatch].
  assert (B : rmatch number_body (u " 3,1" ++ post)
              = [(None, post); (None, u ",1" ++ post)]).
  { unfold number_body, opt, plus. cbn. rewrite H. reflexivity. }
  rewrite B. cbn [map snd].
  rewrite (RegexFacts.firstn_consumed (u " 3,1") post).
  change (u " 3,1" ++ post) with (u " 3" ++ (u ",1" ++ post)).
  rewrite (RegexFacts.firstn_consumed (u " 3") (u ",1" ++ post)).
  reflexivity.
Qed.

(** The matches of the number pattern at ["<50"], most preferred first. *)
Lemma number_at_nfl (post : str) :
  starts_with_digit post = false ->
  starts_with_fraction post = false ->
  rmatch number_rx (u "<50" ++ post)
  = [(Some (u "<50"), post); (Some (u "<5"), u "0" ++ post)].
Proof.
  intros Hd Hf.
  unfold number_rx. cbn [rmatch].
  assert (B : rmatch number_body (u "<50" ++ post)
              = [(None, post); (None, u "0" ++ post)]).
  { unfold number_body, opt, plus.
    destruct post as [|c [|d post]];
      cbn [starts_with_digit starts_with_fraction] in Hd, Hf.
    - reflexivity.
    - cbn. rewrite Hd. cbn. destruct (is_sep c); reflexivity.
    - cbn. rewrite Hd. cbn. destruct (is_sep c); [|reflexivity].
      cbn in Hf |- *. rewrite Hf. reflexivity. }
  rewrite B. cbn [map snd].
  rewrite (RegexFacts.firstn_consumed (u "<50") post).
  change (u "<50" ++ post) with (u "<5" ++ (u "0" ++ post)).
  rewrite (RegexFacts.firstn_consumed (u "<5") (u "0" ++ post)).
  reflexivity.
Qed.

(** When the first occurrence of the name variant is at the start of
    [rest], the raw token is the one pattern 1 captures there. *)
Lemma find_raw_first (alias pre rest : str) (o : option str * str) :
  ci_find alias (pre ++ rest) = Some (List.length pre) ->
  hd_error (rmatch (pattern1 alias) rest) = Some o ->
  find_raw alias (pre ++ rest) = fst o.
Proof.
  intros Hfind Hhd. unfold find_raw.
  rewrite (search_pattern1_first alias pre rest Hfind).
  rewrite (search_head _ _ _ Hhd). reflexivity.
Qed.

Lemma find_raw_t3 (pre post : str) :
  ci_find (u "T3") (pre ++ t3_text ++ post) = Some (List.length pre) ->
  starts_with_digit post = false ->
  find_raw (u "T3") (pre ++ t3_text ++ post) = Some (u " 3,1").
Proof.
  intros Hfind Hd.
  apply (find_raw_first (u "T3") pre (t3_text ++ post)
                        (Some (u " 3,1"), post) Hfind).
  rewrite pattern1_head.
  change (ci_prefix (u "T3") (t3_text ++ post)) with true.
  change (skipn (List.length (u "T3")) (t3_text ++ post))
    with (58%N :: (u " 3,1" ++ post)).
  cbn [lazy_gap_first]. rewrite number_after_colon. cbn [hd_error].
  rewrite (number_at_t3 post Hd). reflexivity.
Qed.

Lemma find_raw_nfl (pre post : str) :
  ci_find (u "NFL") (pre ++ nfl_text ++ post) = Some (List.length pre) ->
  starts_with_digit post = false ->
  starts_with_fraction post = false ->
  find_raw (u "NFL") (pre ++ nfl_text ++ post) = Some (u "<50").
Proof.
  intros Hfind Hd Hf.
  apply (find_raw_first (u "NFL") pre (nfl_text ++ post)
                        (Some (u "<50"), post) Hfind).
  rewrite pattern1_head.
  change (ci_prefix (u "NFL") (nfl_text ++ post)) with true.
  change (skipn (List.length (u "NFL")) (nfl_text ++ post))
    with (32%N :: (u "<50" ++ post)).
  cbn [lazy_gap_first].
  change (32%N :: u "<50" ++ post) with (32%N :: 60%N :: (u "50" ++ post)).
  rewrite number_before_bound. cbn [hd_error].
  change (60%N :: u "50" ++ post) with (u "<50" ++ post).
  rewrite (number_at_nfl post Hd Hf). reflexivity.
Qed.

(** The entry of a definition whose first name variant has a candidate. *)
Lemma entry_of_first_variant (text k : str) (i : info) (nv : str)
    (rest : list str) (v : pyfloat) :
  text <> [] ->
  In (k, i) BIOMARKER_RANGES ->
  names i = nv :: rest ->
  candidate text nv = Some v ->
  In (entry k v) (extract_biomarkers_from_text (Some text)).
Proof.
  intros Hne Hin Hnames Hc. rewrite ExtractFacts.extract_flat.
  destruct text as [|c t]; [congruence|].
  apply in_flat_map. exists (k, i). split; [exact Hin|].
  unfold entry_of. cbn [fst snd]. rewrite Hnames. cbn [map first_some].
  rewrite Hc. left. reflexivity.
Qed.

Lemma token_no_minus (tk : token) :
  token_ok tk = true -> ~ In 45%N (token_text tk).
Proof.
  unfold token_ok. rewrite !andb_true_iff.
  intros [[[[[Hb Hs] Hd] _] _] Hf] Hin.
  assert (Hdig : forall ds, forallb is_digit ds = true -> ~ In 45%N ds).
  { intros ds Hds H. rewrite forallb_forall in Hds.
    specialize (Hds _ H). discriminate. }
  unfold token_text in Hin. rewrite !in_app_iff in Hin.
  destruct Hin as [H|[H|[H|H]]].
  - rewrite !orb_true_iff in Hb. unfold str_eqb in Hb.
    destruct Hb as [[Hb|Hb]|Hb];
      destruct (list_eq_dec N.eq_dec (bound tk) _) as [E|E];
      try discriminate; rewrite E in H; cbn in H;
      intuition discriminate.
  - rewrite forallb_forall in Hs. specialize (Hs _ H). discriminate.
  - exact (Hdig _ Hd H).
  - destruct (frac tk) as [[sep ds]|]; [|exact H].
    rewrite !andb_true_iff in Hf. destruct Hf as [[Hsep Hds] _].
    cbn [frac_text] in H. destruct H as [H|H].
    + subst sep. discriminate.
    + exact (Hdig _ Hds H).
Qed.

End SearchFacts.

(** C7.  For every input text the extractor returns, in registry order, at
    most one entry per definition: the entry of a definition carries the
    first candidate among its name variants that converts, after which no
    further variant is tried; a definition none of whose name variants
    occurs in the text contributes no entry; and a null or empty text gives
    the empty list. *)
Theorem pattern_extractor_shape (text : str) :
  extract_biomarkers_from_text None = []
  /\ extract_biomarkers_from_text (Some []) = []
  /\ extract_biomarkers_from_text (Some text)
     = match text with
       | [] => []
       | _ :: _ => flat_map (entry_of text) BIOMARKER_RANGES
       end
  /\ (forall names, scan_names text names
                    = first_some (map (candidate text) names))
  /\ Subseq (map name (extract_biomarkers_from_text (Some text)))
            (map Some (keys BIOMARKER_RANGES))
  /\ NoDup (map name (extract_biomarkers_from_text (Some text)))
  /\ (forall k i,
        In (k, i) BIOMARKER_RANGES ->
        (forall nv, In nv (names i) -> occurs nv text = false) ->
        ~ In (Some k)
             (map name (extract_biomarkers_from_text (Some text)))).
Proof.
  assert (S : Subseq (map name (extract_biomarkers_from_text (Some text)))
                     (map Some (keys BIOMARKER_RANGES))).
  { rewrite ExtractFacts.extract_flat. destruct text as [|c t].
    - cbn [map]. generalize (map Some (keys BIOMARKER_RANGES)).
      intro l; induction l; constructor; assumption.
    - apply ExtractFacts.entry_names_subseq. }
  split; [reflexivity|]. split; [reflexivity|].
  split; [apply ExtractFacts.extract_flat|].
  split; [apply ExtractFacts.scan_names_first|].
  split; [exact S|].
  split.
  - exact (ExtractFacts.subseq_nodup _ _ S ExtractFacts.registry_keys_nodup).
  - intros k i. apply ExtractFacts.absent_no_entry.
Qed.

Lemma pattern_extractor_shape_witness :
  In (u "TSH",
      {| unit_ := u "mg/dL"; min := float_lit 4 1; max := float_lit 40 1;
         names := [u "TSH"; u "tsh"] |}) BIOMARKER_RANGES
  /\ (forall nv, In nv [u "TSH"; u "tsh"] -> occurs nv nfl_text = false)
  /\ ~ In (Some (u "TSH"))
          (map name (extract_biomarkers_from_text (Some nfl_text))).
Proof.
  assert (H1 : In (u "TSH",
      {| unit_ := u "mg/dL"; min := float_lit 4 1; max := float_lit 40 1;
         names := [u "TSH"; u "tsh"] |}) BIOMARKER_RANGES)
    by (left; reflexivity).
  assert (H2 : forall nv, In nv [u "TSH"; u "tsh"] ->
                          occurs nv nfl_text = false)
    by (intros nv [<-|[<-|[]]]; reflexivity).
  split; [exact H1|]. split; [exact H2|].
  destruct (pattern_extractor_shape nfl_text) as [_ [_ [_ [_ [_ [_ H]]]]]].
  exact (H _ _ H1 H2).
Defined.

(** C5.  On the scenario text the extractor finds T4 (through the variant
    [thyroxine], the variants [T4] and [t4] finding nothing), B12 and
    Folate; T4 and Folate are below their ranges and B12 above its range,
    so the abnormal count is 3 and the assessment is moderate with score
    55. *)
Theorem scenario_three_abnormal :
  extract_biomarkers_from_text (Some scenario_text)
  = [entry (u "T4") (float_lit 5 1); entry (u "B12") (float_lit 9500 1);
     entry (u "Folate") (float_lit 10 1)]
  /\ find_raw (u "T4") scenario_text = None
  /\ find_raw (u "t4") scenario_text = None
  /\ find_raw (u "thyroxine") scenario_text = Some (u " 0.5")
  /\ filter is_abnormal (extract_biomarkers_from_text (Some scenario_text))
     = extract_biomarkers_from_text (Some scenario_text)
  /\ count_loop (extract_biomarkers_from_text (Some scenario_text))
     = {| abnormal_count := 3; high_count := 1; low_count := 2 |}
  /\ float_ltb (float_lit 5 1) (float_lit 8 1) = true
  /\ float_ltb (float_lit 10 1) (float_lit 20 1) = true
  /\ float_gtb (float_lit 9500 1) (int_lit 900) = true
  /\ assess_biomarker_risk
       (extract_biomarkers_from_text (Some scenario_text))
     = {| risk := moderate; score := 55 |}.
Proof. vm_compute. repeat split. Qed.

(** C10, amended.  For every input text, every entry the extractor returns
    has a finite value [v] with [0 <= v <= 1000]; the raw token it comes
    from has the shape of the number pattern, so it has no minus sign and
    between one and three integer digits.  The value 1000 is reached, by
    rounding; and of a four-digit reading the last three digits can be the
    ones captured. *)
Theorem extracted_values_range (text : option str) :
  Forall (fun b => float_between 0 1000 (value b))
         (extract_biomarkers_from_text text)
  /\ (forall name_variant t,
        match find_raw name_variant t with
        | Some raw =>
            exists tk, raw = token_text tk /\ token_ok tk = true
                       /\ ~ In 45%N raw
                       /\ 1 <= List.length (int_digits tk) <= 3
        | None => True
        end)
  /\ extract_biomarkers_from_text (Some rounding_text)
     = [entry (u "NFL") (int_lit 1000)]
  /\ extract_biomarkers_from_text (Some later_digits_text)
     = [entry (u "NFL") (float_lit 2340 1)].
Proof.
  split.
  - destruct text as [t|]; [|constructor].
    rewrite ExtractFacts.extract_flat. destruct t; [constructor|].
    apply ExtractFacts.values_in_range.
  - split; [|split; vm_compute; reflexivity].
    intros nv t. destruct (find_raw nv t) as [raw|] eqn:E; [|exact I].
    destruct (PatternFacts.find_raw_token _ _ _ E) as [_ [tk [-> Hok]]].
    exists tk. split; [reflexivity|]. split; [exact Hok|].
    split; [exact (SearchFacts.token_no_minus tk Hok)|].
    revert Hok. unfold token_ok. rewrite !andb_true_iff, !Nat.leb_le.
    tauto.
Qed.

(** The text [NFL 999.99999999999999999] yields the value 1000.0, which is
    not below 1000; and in [1234], twenty spaces, [NFL] the token captured
    is [234], not the first three digits. *)
Lemma value_range_counterexample :
  ~ Forall (fun b => below_1000 (value b))
           (extract_biomarkers_from_text (Some rounding_text))
  /\ find_raw (u "NFL") later_digits_text = Some (u "234").
Proof.
  split; [|vm_compute; reflexivity].
  intro H.
  assert (E : extract_biomarkers_from_text (Some rounding_text)
              = [entry (u "NFL") (int_lit 1000)])
    by (vm_compute; reflexivity).
  rewrite E in H. inversion H as [|b l Hb _]; subst.
  cbn in Hb. destruct Hb as [_ Hlt]. unfold Qlt in Hlt. cbn in Hlt. lia.
Qed.

(** C2, amended.  A captured number token is normalized by removing spaces
    and tabs, turning the comma into a dot and dropping a leading [<] or
    [>], and then converted; a conversion failure discards that candidate
    only: the loop returns the first candidate among the name variants that
    converts.  A text in which [T3: 3,1] is the first occurrence of [T3] and
    is not followed by a digit yields the entry T3 = 3.1; a text in which
    [NFL <50] is the first occurrence of [NFL] and is followed neither by a
    digit nor by a separator and a digit yields the entry NFL = 50.0; in
    particular the two texts themselves do. *)
Theorem number_token_normalization :
  (forall tk,
     token_ok tk = true ->
     clean (token_text tk) = cleaned_text tk
     /\ py_float (clean (token_text tk)) = token_value tk)
  /\ (forall name_variant text raw,
        find_raw name_variant text = Some raw ->
        exists tk, raw = token_text tk /\ token_ok tk = true)
  /\ (forall text names,
        scan_names text names = first_some (map (candidate text) names))
  /\ (forall pre post,
        ci_find (u "T3") (pre ++ t3_text ++ post) = Some (List.length pre) ->
        starts_with_digit post = false ->
        In (entry (u "T3") (float_lit 31 1))
           (extract_biomarkers_from_text (Some (pre ++ t3_text ++ post))))
  /\ (forall pre post,
        ci_find (u "NFL") (pre ++ nfl_text ++ post) = Some (List.length pre) ->
        starts_with_digit post = false ->
        starts_with_fraction post = false ->
        In (entry (u "NFL") (float_lit 500 1))
           (extract_biomarkers_from_text (Some (pre ++ nfl_text ++ post))))
  /\ extract_biomarkers_from_text (Some t3_text)
     = [entry (u "T3") (float_lit 31 1)]
  /\ extract_biomarkers_from_text (Some nfl_text)
     = [entry (u "NFL") (float_lit 500 1)]
  /\ (candidate separator_text (u "T3") = None
      /\ find_raw (u "T3") separator_text = Some [32; 28; 53]%N
      /\ extract_biomarkers_from_text (Some separator_text)
         = [entry (u "T3") (float_lit 30 1)]).
Proof.
  split.
  { intros tk Hok. rewrite (TokenFacts.clean_token tk Hok).
    split; [reflexivity|apply TokenFacts.float_cleaned_token; exact Hok]. }
  split.
  { intros nv text raw E.
    destruct (PatternFacts.find_raw_token _ _ _ E) as [_ H]. exact H. }
  split; [apply ExtractFacts.scan_names_first|].
  split.
  { intros pre post Hfind Hd.
    apply (SearchFacts.entry_of_first_variant _ _
             {| unit_ := u "pg/ml"; min := float_lit 23 1;
                max := float_lit 42 1;
                names := [u "T3"; u "t3"; u "triiodothyronine"] |}
             (u "T3") [u "t3"; u "triiodothyronine"]).
    - destruct pre; discriminate.
    - right; left; reflexivity.
    - reflexivity.
    - unfold candidate. rewrite (SearchFacts.find_raw_t3 pre post Hfind Hd).
      vm_compute. reflexivity. }
  split.
  { intros pre post Hfind Hd Hf.
    apply (SearchFacts.entry_of_first_variant _ _
             {| unit_ := u "pg/ml"; min := int_lit 0; max := int_lit 1000;
                names := [u "NFL"; u "neurofilament light"; u "CSF NFL"] |}
             (u "NFL") [u "neurofilament light"; u "CSF NFL"]).
    - destruct pre; discriminate.
    - do 9 right; left; reflexivity.
    - reflexivity.
    - unfold candidate.
      rewrite (SearchFacts.find_raw_nfl pre post Hfind Hd Hf).
      vm_compute. reflexivity. }
  vm_compute. repeat split.
Qed.

Lemma number_token_normalization_witness :
  (token_ok {| bound := []; spaces := [32%N]; int_digits := [51%N];
               frac := Some (44%N, [49%N]) |} = true
   /\ py_float (clean (u " 3,1")) = Some (float_lit 31 1))
  /\ (find_raw (u "T3") t3_text = Some (u " 3,1")
      /\ exists tk, u " 3,1" = token_text tk /\ token_ok tk = true)
  /\ (ci_find (u "T3") ([] ++ t3_text ++ []) = Some 0
      /\ starts_with_digit [] = false
      /\ In (entry (u "T3") (float_lit 31 1))
            (extract_biomarkers_from_text (Some ([] ++ t3_text ++ []))))
  /\ (ci_find (u "NFL") ([] ++ nfl_text ++ []) = Some 0
      /\ starts_with_digit [] = false
      /\ starts_with_fraction [] = false
      /\ In (entry (u "NFL") (float_lit 500 1))
            (extract_biomarkers_from_text (Some ([] ++ nfl_text ++ [])))).
Proof.
  destruct number_token_normalization as [H1 [H2 [_ [H4 [H5 _]]]]].
  split.
  { split; [reflexivity|].
    exact (proj2 (H1 {| bound := []; spaces := [32%N]; int_digits := [51%N];
                        frac := Some (44%N, [49%N]) |} eq_refl)). }
  split.
  { split; [vm_compute; reflexivity|].
    apply (H2 (u "T3") t3_text). vm_compute. reflexivity. }
  split.
  { split; [reflexivity|]. split; [reflexivity|].
    apply (H4 [] []); reflexivity. }
  split; [reflexivity|]. split; [reflexivity|]. split; [reflexivity|].
  apply (H5 [] []); reflexivity.
Defined.

(** The text [T3: 3,15] contains [T3: 3,1]; its T3 entry is 3.15 and no
    entry has the value 3.1.  Likewise [NFL <507] contains [NFL <50] and
    yields 507.0. *)
Lemma t3_followed_by_digit :
  (exists pre post, t3_digit_text = pre ++ t3_text ++ post)
  /\ extract_biomarkers_from_text (Some t3_digit_text)
     = [entry (u "T3") (float_lit 315 2)]
  /\ ~ In (float_lit 31 1)
          (map value (extract_biomarkers_from_text (Some t3_digit_text)))
  /\ extract_biomarkers_from_text (Some (nfl_text ++ u "7"))
     = [entry (u "NFL") (float_lit 5070 1)].
Proof.
  split; [exists [], (u "5"); reflexivity|].
  assert (E : extract_biomarkers_from_text (Some t3_digit_text)
              = [entry (u "T3") (float_lit 315 2)])
    by (vm_compute; reflexivity).
  split; [exact E|]. split; [|vm_compute; reflexivity].
  rewrite E. cbn [map value entry In].
  intros [H|[]]. vm_compute in H. discriminate H.
Qed.

(** ** The entry point *)

Module AnalyzerFacts.

Lemma str_eqb_eq (a b : str) : str_eqb a b = true <-> a = b.
Proof.
  unfold str_eqb. destruct (list_eq_dec N.eq_dec a b); split;
    congruence.
Qed.

Lemma str_eqb_neq (a b : str) : a <> b -> str_eqb a b = false.
Proof.
  intro H. destruct (str_eqb a b) eqn:E; [|reflexivity].
  apply str_eqb_eq in E. contradiction.
Qed.

Section WithCollaborators.

Variable str_lower : str -> str.
Variables extract_text_from_pdf extract_text_from_image parse_csv
  : str -> option str.
Variable genai : str -> result (option (list biomarker)).

Let dispatch' :=
  dispatch str_lower extract_text_from_pdf extract_text_from_image parse_csv.
Let analyze' :=
  analyze_report str_lower extract_text_from_pdf extract_text_from_image
                 parse_csv genai.

Lemma dispatch_unsupported (file_path : str) :
  ~ In (file_ext str_lower file_path) supported_exts ->
  dispatch' file_path = None.
Proof.
  unfold supported_exts. cbn [In]. intro H.
  unfold dispatch', dispatch. cbn [existsb].
  rewrite !str_eqb_neq by (intro E; apply H; rewrite E; tauto).
  reflexivity.
Qed.

Lemma dispatch_supported (file_path : str) (c : call) (t : option str) :
  dispatch' file_path = Some (c, t) ->
  In (file_ext str_lower file_path) supported_exts
  /\ is_text_call c = true.
Proof.
  unfold dispatch', dispatch, supported_exts. cbn [existsb In].
  destruct (str_eqb (file_ext str_lower file_path) (u ".pdf")) eqn:E1.
  { apply str_eqb_eq in E1. intro H; inversion H; subst. split; auto. }
  destruct (str_eqb (file_ext str_lower file_path) (u ".jpg")) eqn:E2.
  { apply str_eqb_eq in E2. intro H; inversion H; subst. split; auto. }
  destruct (str_eqb (file_ext str_lower file_path) (u ".jpeg")) eqn:E3.
  { apply str_eqb_eq in E3. intro H; inversion H; subst. split; auto. }
  destruct (str_eqb (file_ext str_lower file_path) (u ".png")) eqn:E4.
  { apply str_eqb_eq in E4. intro H; inversion H; subst. split; auto 6. }
  destruct (str_eqb (file_ext str_lower file_path) (u ".csv")) eqn:E5.
  { apply str_eqb_eq in E5. intro H; inversion H; subst. split; auto 7. }
  discriminate.
Qed.

Lemma analyze_unsupported (file_path : str) :
  ~ In (file_ext str_lower file_path) supported_exts ->
  analyze' file_path
  = ([], Error (u "Unsupported file type: " ++ file_ext str_lower file_path)).
Proof.
  intro H. unfold analyze', analyze_report.
  fold dispatch'. rewrite (dispatch_unsupported _ H). reflexivity.
Qed.

Lemma analyze_no_text (file_path : str) (c : call) :
  dispatch' file_path = Some (c, None) ->
  analyze' file_path = ([c], Error (u "Failed to extract text from file")).
Proof.
  intro H. unfold analyze', analyze_report. fold dispatch'. rewrite H.
  reflexivity.
Qed.

End WithCollaborators.

End AnalyzerFacts.

(** C3.  For every input text the orchestration calls the GenAI extractor
    first, an exception counting as a null result; it calls the pattern
    extractor if and only if that result is null; a non-null GenAI result,
    the empty list included, is returned as it is, and a null result gives
    exactly the pattern extractor's list, so the result is always a list
    and comes from one strategy. *)
Theorem orchestrator_contract
    (genai : str -> result (option (list biomarker))) (text : str) :
  hd_error (fst (choose_biomarkers genai text)) = Some (CallGenAI text)
  /\ (In (CallPattern text) (fst (choose_biomarkers genai text))
      <-> forall bs, genai text <> Ok (Some bs))
  /\ (forall bs,
        genai text = Ok (Some bs) ->
        choose_biomarkers genai text = ([CallGenAI text], bs))
  /\ ((forall bs, genai text <> Ok (Some bs)) ->
      choose_biomarkers genai text
      = ([CallGenAI text; CallPattern text],
         extract_biomarkers_from_text (Some text))).
Proof.
  unfold choose_biomarkers.
  destruct (genai text) as [[bs|]|e]; cbn [fst snd hd_error].
  - split; [reflexivity|]. split.
    + split.
      * intros [H|[]]. discriminate.
      * intro H. exfalso. exact (H bs eq_refl).
    + split.
      * intros bs' H. inversion H; subst. reflexivity.
      * intro H. exfalso. exact (H bs eq_refl).
  - split; [reflexivity|]. split.
    + split; [discriminate|]. intros _. right; left; reflexivity.
    + split; [discriminate|reflexivity].
  - split; [reflexivity|]. split.
    + split; [discriminate|]. intros _. right; left; reflexivity.
    + split; [discriminate|reflexivity].
Qed.

Lemma orchestrator_contract_witness :
  (genai_empty nfl_text = Ok (Some [])
   /\ choose_biomarkers genai_empty nfl_text = ([CallGenAI nfl_text], []))
  /\ ((forall bs, genai_raises nfl_text <> Ok (Some bs))
      /\ choose_biomarkers genai_raises nfl_text
         = ([CallGenAI nfl_text; CallPattern nfl_text],
            [entry (u "NFL") (float_lit 500 1)])).
Proof.
  split.
  - split; [reflexivity|].
    destruct (orchestrator_contract genai_empty nfl_text) as [_ [_ [H _]]].
    exact (H [] eq_refl).
  - assert (N : forall bs, genai_raises nfl_text <> Ok (Some bs))
      by (intros bs; unfold genai_raises; discriminate).
    split; [exact N|].
    destruct (orchestrator_contract genai_raises nfl_text) as [_ [_ [_ H]]].
    rewrite (H N). vm_compute. reflexivity.
Defined.

(** C6.  The extension is the lower-cased suffix of the path, as the
    function computes it.  For every path whose extension is none of
    [.pdf], [.jpg], [.jpeg], [.png], [.csv] the result is the error
    [Unsupported file type: <ext>] and nothing is called; for the extension
    [.txt] it is [Unsupported file type: .txt]; and when the collaborator of
    a supported type returns no text, the result is the extraction-failure
    error after that one call, no extraction strategy being called. *)
Theorem analyzer_errors
    (str_lower : str -> str)
    (extract_text_from_pdf extract_text_from_image parse_csv
       : str -> option str)
    (genai : str -> result (option (list biomarker))) (file_path : str) :
  (~ In (file_ext str_lower file_path) supported_exts ->
   analyze_report str_lower extract_text_from_pdf extract_text_from_image
                  parse_csv genai file_path
   = ([], Error (u "Unsupported file type: "
                 ++ file_ext str_lower file_path)))
  /\ (file_ext str_lower file_path = u ".txt" ->
      analyze_report str_lower extract_text_from_pdf extract_text_from_image
                     parse_csv genai file_path
      = ([], Error (u "Unsupported file type: .txt")))
  /\ (forall c,
        dispatch str_lower extract_text_from_pdf extract_text_from_image
                 parse_csv file_path = Some (c, None) ->
        is_text_call c = true
        /\ analyze_report str_lower extract_text_from_pdf
                          extract_text_from_image parse_csv genai file_path
           = ([c], Error (u "Failed to extract text from file")))
  /\ (file_ext str_lower file_path = u ".pdf" ->
      extract_text_from_pdf file_path = None ->
      analyze_report str_lower extract_text_from_pdf extract_text_from_image
                     parse_csv genai file_path
      = ([CallPdf file_path], Error (u "Failed to extract text from file"))).
Proof.
  split; [apply AnalyzerFacts.analyze_unsupported|].
  split.
  { intro E.
    rewrite AnalyzerFacts.analyze_unsupported.
    - rewrite E. reflexivity.
    - rewrite E. unfold supported_exts. cbn [In].
      intuition discriminate. }
  split.
  { intros c H. split.
    - exact (proj2 (AnalyzerFacts.dispatch_supported _ _ _ _ _ _ _ H)).
    - apply AnalyzerFacts.analyze_no_text. exact H. }
  intros E Hnone. apply AnalyzerFacts.analyze_no_text.
  unfold dispatch. rewrite E, Hnone. reflexivity.
Qed.

Lemma analyzer_errors_witness :
  (~ In (file_ext ascii_str_lower (u "notes/report.TXT")) supported_exts
   /\ file_ext ascii_str_lower (u "notes/report.TXT") = u ".txt"
   /\ analyze_report ascii_str_lower no_text no_text no_text
                     genai_unavailable (u "notes/report.TXT")
      = ([], Error (u "Unsupported file type: .txt")))
  /\ (dispatch ascii_str_lower no_text no_text no_text (u "scan.png")
      = Some (CallImage (u "scan.png"), None)
      /\ analyze_report ascii_str_lower no_text no_text no_text
                        genai_unavailable (u "scan.png")
         = ([CallImage (u "scan.png")],
            Error (u "Failed to extract text from file")))
  /\ (file_ext ascii_str_lower (u "labs.pdf") = u ".pdf"
      /\ no_text (u "labs.pdf") = None
      /\ analyze_report ascii_str_lower no_text no_text no_text
                        genai_unavailable (u "labs.pdf")
         = ([CallPdf (u "labs.pdf")],
            Error (u "Failed to extract text from file"))).
Proof.
  split.
  { assert (E : file_ext ascii_str_lower (u "notes/report.TXT") = u ".txt")
      by reflexivity.
    assert (N : ~ In (file_ext ascii_str_lower (u "notes/report.TXT"))
                     supported_exts).
    { rewrite E. unfold supported_exts. cbn [In]. intuition discriminate. }
    split; [exact N|]. split; [exact E|].
    destruct (analyzer_errors ascii_str_lower no_text no_text no_text
                genai_unavailable (u "notes/report.TXT")) as [H1 [H2 _]].
    rewrite (H1 N). exact (eq_trans (eq_sym (H1 N)) (H2 E)). }
  split.
  { split; [reflexivity|].
    destruct (analyzer_errors ascii_str_lower no_text no_text no_text
                genai_unavailable (u "scan.png")) as [_ [_ [H3 _]]].
    exact (proj2 (H3 (CallImage (u "scan.png")) eq_refl)). }
  split; [reflexivity|]. split; [reflexivity|].
  destruct (analyzer_errors ascii_str_lower no_text no_text no_text
              genai_unavailable (u "labs.pdf")) as [_ [_ [_ H4]]].
  exact (H4 eq_refl eq_refl).
Defined.

(** The comparison is on the lower-cased suffix: [x.PDF] is a PDF file and
    goes to the PDF collaborator. *)
Lemma upper_case_extension :
  analyze_report ascii_str_lower no_text no_text no_text genai_unavailable
                 (u "x.PDF")
  = ([CallPdf (u "x.PDF")], Error (u "Failed to extract text from file")).
Proof. reflexivity. Qed.

(** ** The GenAI extractor *)

Module GenAIFacts.

Section WithBuiltins.

Variable json_loads : str -> result pyval.
Variable str_to_float : str -> option pyfloat.
Variable str_lower : str -> str.

Let genai_extract := genai_extract_biomarkers json_loads str_to_float str_lower.
Let extraction' := extraction json_loads str_to_float str_lower.

(** With a client and a credential, the function is the guarded
    extraction. *)
Lemma available_runs_extraction (g : client) (env : environ) (text : str) :
  ~ no_credential env ->
  exists k, k <> []
    /\ genai_extract (Some g) env text
       = try_except (extraction' g k text) (fun _ => Ok None).
Proof.
  unfold no_credential, genai_extract, genai_extract_biomarkers. intro H.
  destruct (env (u "GOOGLE_API_KEY")) as [[|c k]|] eqn:E1.
  - destruct (env (u "GENAI_API_KEY")) as [[|c k]|] eqn:E2.
    + exfalso. apply H. auto.
    + exists (c :: k). split; [discriminate|reflexivity].
    + exfalso. apply H. auto.
  - exists (c :: k). split; [discriminate|reflexivity].
  - destruct (env (u "GENAI_API_KEY")) as [[|c k]|] eqn:E2.
    + exfalso. apply H. auto.
    + exists (c :: k). split; [discriminate|reflexivity].
    + exfalso. apply H. auto.
Qed.

Lemma never_raises (genai : option client) (env : environ) (text : str) :
  exists r, genai_extract genai env text = Ok r.
Proof.
  unfold genai_extract, genai_extract_biomarkers.
  destruct genai as [g|]; [|eauto].
  match goal with
  | |- exists r, match ?k with _ => _ end = _ => destruct k as [[|c k']|]
  end; eauto.
  destruct (extraction json_loads str_to_float str_lower g (c :: k') text);
    cbn; eauto.
Qed.

Lemma no_client (env : environ) (text : str) :
  genai_extract None env text = Ok None.
Proof. reflexivity. Qed.

Lemma no_credential_none (genai : option client) (env : environ)
    (text : str) :
  no_credential env -> genai_extract genai env text = Ok None.
Proof.
  unfold no_credential, genai_extract, genai_extract_biomarkers.
  intros [[E1|E1] [E2|E2]]; destruct genai; rewrite ?E1, ?E2; reflexivity.
Qed.

(** Both interfaces of the client raise. *)
Lemma invocation_failure (g : client) (k text : str) (e1 e2 : exn) :
  chat_content g (build_prompt text) = Raise e1 ->
  generate_content g (build_prompt text) = Raise e2 ->
  try_except (extraction' g k text) (fun _ => Ok None) = Ok None.
Proof.
  intros H1 H2. unfold extraction', extraction. rewrite H1.
  cbn [try_except bind]. rewrite H2. reflexivity.
Qed.

(** After a reply that is a string, everything depends on what
    [json.loads] makes of the text selected from it. *)
Lemma extraction_reply (g : client) (k text reply : str) :
  client_content g text = Ok (VStr reply) ->
  extraction' g k text
  = match json_loads (reply_source reply) with
    | Raise _ => Ok None
    | Ok parsed =>
        bind (py_iter parsed) (fun items =>
          bind (collect str_to_float str_lower items [])
               (fun results => Ok (Some results)))
    end.
Proof.
  intro H. unfold extraction', extraction.
  change (try_except (chat_content g (build_prompt text))
            (fun _ => generate_content g (build_prompt text)))
    with (client_content g text).
  rewrite H. reflexivity.
Qed.

(** The reply is a string that [json.loads] rejects. *)
Lemma parsing_failure (g : client) (k text reply : str) (e : exn) :
  client_content g text = Ok (VStr reply) ->
  json_loads (reply_source reply) = Raise e ->
  try_except (extraction' g k text) (fun _ => Ok None) = Ok None.
Proof.
  intros H1 H2. rewrite (extraction_reply g k text reply H1), H2.
  reflexivity.
Qed.

(** An object whose value does not convert is skipped. *)
Lemma coercion_failure_skips (d : list (str * pyval)) (rest : list pyval)
    (results : list genai_entry) (e : exn) :
  coerce_value str_to_float
    (match assoc d (u "value") with Some v => v | None => VNone end)
  = Raise e ->
  collect str_to_float str_lower (VDict d :: rest) results
  = collect str_to_float str_lower rest results.
Proof.
  intro H. cbn [collect]. unfold process_item. cbn [py_get bind].
  destruct (py_or _ _) as [name|e'] eqn:En.
  - cbn [bind]. rewrite H. reflexivity.
  - unfold py_or in En.
    destruct (truthy _); discriminate.
Qed.

End WithBuiltins.

End GenAIFacts.

(** C4, amended.  The GenAI extractor never raises: it always returns, a
    list or null.  Without a client, or without a credential under either
    variable name, it returns null.  An exception of the extraction
    sequence is turned into null: in particular when both interfaces of
    the client raise, and when [json.loads] rejects the text selected from
    the reply of either interface.  A value that does not convert is
    different: that object is skipped and the loop goes on with the
    remaining objects. *)
Theorem genai_extractor_total
    (json_loads : str -> result pyval)
    (str_to_float : str -> option pyfloat)
    (str_lower : str -> str)
    (genai : option client) (env : environ) (text : str) :
  (exists r,
      genai_extract_biomarkers json_loads str_to_float str_lower
        genai env text = Ok r)
  /\ (genai = None ->
      genai_extract_biomarkers json_loads str_to_float str_lower
        genai env text = Ok None)
  /\ (no_credential env ->
      genai_extract_biomarkers json_loads str_to_float str_lower
        genai env text = Ok None)
  /\ (forall g,
        genai = Some g ->
        (forall k, exists e,
            extraction json_loads str_to_float str_lower g k text = Raise e) ->
        genai_extract_biomarkers json_loads str_to_float str_lower
          genai env text = Ok None)
  /\ (forall g e1 e2,
        genai = Some g ->
        chat_content g (build_prompt text) = Raise e1 ->
        generate_content g (build_prompt text) = Raise e2 ->
        genai_extract_biomarkers json_loads str_to_float str_lower
          genai env text = Ok None)
  /\ (forall g reply e,
        genai = Some g ->
        client_content g text = Ok (VStr reply) ->
        json_loads (reply_source reply) = Raise e ->
        genai_extract_biomarkers json_loads str_to_float str_lower
          genai env text = Ok None)
  /\ (forall d rest results e,
        coerce_value str_to_float
          (match assoc d (u "value") with Some v => v | None => VNone end)
        = Raise e ->
        collect str_to_float str_lower (VDict d :: rest) results
        = collect str_to_float str_lower rest results).
Proof.
  assert (Guard : forall g,
            (forall k, try_except
                         (extraction json_loads str_to_float str_lower
                            g k text)
                         (fun _ => Ok None) = Ok None) ->
            genai_extract_biomarkers json_loads str_to_float str_lower
              (Some g) env text = Ok None).
  { intros g H. unfold genai_extract_biomarkers.
    match goal with
    | |- match ?k with _ => _ end = _ => destruct k as [[|c k']|]
    end; try reflexivity. apply H. }
  split; [apply GenAIFacts.never_raises|].
  split; [intros ->; reflexivity|].
  split; [apply GenAIFacts.no_credential_none|].
  split.
  { intros g -> H. apply Guard. intro k. destruct (H k) as [e ->].
    reflexivity. }
  split.
  { intros g e1 e2 -> H1 H2. apply Guard. intro k.
    exact (GenAIFacts.invocation_failure json_loads str_to_float str_lower
             g k text e1 e2 H1 H2). }
  split.
  { intros g reply e -> H1 H2. apply Guard. intro k.
    exact (GenAIFacts.parsing_failure json_loads str_to_float str_lower
             g k text reply e H1 H2). }
  intros d rest results e.
  apply GenAIFacts.coercion_failure_skips.
Qed.

Lemma genai_extractor_total_witness :
  (no_credential empty_env
   /\ genai_extract_biomarkers sample_json_loads py_float ascii_str_lower
        (Some sample_client) empty_env nfl_text = Ok None)
  /\ (chat_content failing_client (build_prompt nfl_text)
      = Raise (Failure (u "chat"))
      /\ generate_content failing_client (build_prompt nfl_text)
         = Raise (Failure (u "generate"))
      /\ genai_extract_biomarkers sample_json_loads py_float ascii_str_lower
           (Some failing_client) sample_env nfl_text = Ok None)
  /\ (coerce_value py_float (VStr (u "n/a")) = Raise ValueError
      /\ collect py_float ascii_str_lower
           [VDict [(u "name", VStr (u "TSH")); (u "value", VStr (u "n/a"))]]
           []
         = Ok [])
  /\ ((forall k, exists e,
          extraction sample_json_loads py_float ascii_str_lower
            number_client k nfl_text = Raise e)
      /\ genai_extract_biomarkers sample_json_loads py_float ascii_str_lower
           (Some number_client) sample_env nfl_text = Ok None)
  /\ (client_content (replying_client object_reply) nfl_text
      = Ok (VStr object_reply)
      /\ sample_json_loads (reply_source object_reply) = Raise ValueError
      /\ genai_extract_biomarkers sample_json_loads py_float ascii_str_lower
           (Some (replying_client object_reply)) sample_env nfl_text
         = Ok None).
Proof.
  split.
  { assert (N : no_credential empty_env) by (split; left; reflexivity).
    split; [exact N|].
    destruct (genai_extractor_total sample_json_loads py_float
                ascii_str_lower (Some sample_client) empty_env nfl_text)
      as [_ [_ [H _]]].
    exact (H N). }
  split.
  { split; [reflexivity|]. split; [reflexivity|].
    destruct (genai_extractor_total sample_json_loads py_float
                ascii_str_lower (Some failing_client) sample_env nfl_text)
      as [_ [_ [_ [_ [H _]]]]].
    exact (H failing_client _ _ eq_refl eq_refl eq_refl). }
  assert (C : coerce_value py_float (VStr (u "n/a")) = Raise ValueError)
    by (vm_compute; reflexivity).
  split.
  { split; [exact C|].
    destruct (genai_extractor_total sample_json_loads py_float
                ascii_str_lower None empty_env nfl_text)
      as [_ [_ [_ [_ [_ [_ H]]]]]].
    exact (H [(u "name", VStr (u "TSH")); (u "value", VStr (u "n/a"))]
             [] [] ValueError C). }
  split.
  { assert (R : forall k, exists e,
               extraction sample_json_loads py_float ascii_str_lower
                 number_client k nfl_text = Raise e)
      by (intro k; exists TypeError; reflexivity).
    split; [exact R|].
    destruct (genai_extractor_total sample_json_loads py_float
                ascii_str_lower (Some number_client) sample_env nfl_text)
      as [_ [_ [_ [H _]]]].
    exact (H number_client eq_refl R). }
  assert (P : sample_json_loads (reply_source object_reply)
              = Raise ValueError) by (vm_compute; reflexivity).
  split; [reflexivity|]. split; [exact P|].
  destruct (genai_extractor_total sample_json_loads py_float
              ascii_str_lower (Some (replying_client object_reply))
              sample_env nfl_text)
    as [_ [_ [_ [_ [_ [H _]]]]]].
  exact (H (replying_client object_reply) object_reply ValueError
           eq_refl eq_refl P).
Defined.

(** With a credential and a client that replies with one object whose value
    is the string [n/a], the value coercion fails, and the function returns
    the empty list, not null. *)
Lemma coercion_failure_not_null :
  coerce_value py_float (VStr (u "n/a")) = Raise ValueError
  /\ genai_extract_biomarkers sample_json_loads py_float ascii_str_lower
       (Some sample_client) sample_env nfl_text = Ok (Some [])
  /\ genai_extract_biomarkers sample_json_loads py_float ascii_str_lower
       (Some sample_client) sample_env nfl_text <> Ok None.
Proof.
  assert (E : genai_extract_biomarkers sample_json_loads py_float
                ascii_str_lower (Some sample_client) sample_env nfl_text
              = Ok (Some []))
    by (vm_compute; reflexivity).
  split; [vm_compute; reflexivity|]. split; [exact E|].
  rewrite E. discriminate.
Qed.

(** * Further properties *)

(** ** The risk scorer *)

Module RiskMore.

Lemma count_app (l1 l2 : list biomarker) :
  spec_abnormal_count (l1 ++ l2)
  = spec_abnormal_count l1 + spec_abnormal_count l2.
Proof.
  unfold spec_abnormal_count. rewrite filter_app, length_app. reflexivity.
Qed.

Lemma count_perm (l1 l2 : list biomarker) :
  Permutation l1 l2 -> spec_abnormal_count l1 = spec_abnormal_count l2.
Proof.
  unfold spec_abnormal_count.
  induction 1 as [|b l1 l2 _ IH|a b l|l1 l2 l3 _ IH1 _ IH2].
  - reflexivity.
  - cbn [filter]. destruct (is_abnormal b); cbn; congruence.
  - cbn [filter]. destruct (is_abnormal a), (is_abnormal b); reflexivity.
  - congruence.
Qed.

Lemma score_of_count_le (a1 a2 : nat) :
  a1 <= a2 -> (score_of_count a1 <= score_of_count a2)%Z.
Proof.
  intro H. unfold score_of_count.
  destruct a1 as [|[|[|[|a1]]]]; destruct a2 as [|[|[|[|a2]]]]; lia.
Qed.

Lemma rank_of_risk (bs : list biomarker) :
  risk_rank (risk (assess_biomarker_risk bs))
  = match bs with
    | [] => 0
    | _ :: _ =>
        match spec_abnormal_count bs with
        | 0 => 0
        | 1 | 2 | 3 => 1
        | _ => 2
        end
    end.
Proof.
  rewrite RiskFacts.assess_is_spec_risk. destruct bs as [|b bs];
    [reflexivity|].
  unfold spec_risk.
  destruct (spec_abnormal_count (b :: bs)) as [|[|[|[|n]]]]; reflexivity.
Qed.

(** Every range of the registry is finite and not empty. *)
Lemma registry_ranges (n : str) (i : info) :
  dict_get BIOMARKER_RANGES n = Some i ->
  exists lo hi, min i = Finite lo /\ max i = Finite hi /\ Qlt lo hi.
Proof.
  unfold BIOMARKER_RANGES. cbn [dict_get].
  repeat (match goal with
          | |- (if ?c then _ else _) = _ -> _ => destruct c
          end;
          [intro H; inversion H; subst; cbn [min max];
           eexists; eexists; split; [vm_compute; reflexivity|];
           split; [vm_compute; reflexivity|reflexivity]|]).
  discriminate.
Qed.

Lemma low_high_exclusive (b : biomarker) :
  is_low b = true -> is_high b = false.
Proof.
  unfold is_low, is_high. destruct (name b) as [n|]; [|discriminate].
  destruct (dict_get BIOMARKER_RANGES n) as [i|] eqn:E; [|discriminate].
  destruct (registry_ranges n i E) as [lo [hi [-> [-> Hlt]]]].
  unfold float_gtb. destruct (value b) as [q| | |]; cbn; try discriminate;
    try (intros _; reflexivity).
  unfold Qltb.
  destruct (Qcompare_spec q lo) as [H|H|H]; try discriminate. intros _.
  destruct (Qcompare_spec hi q) as [H'|H'|H']; try reflexivity.
  exfalso. apply (Qlt_irrefl q).
  apply Qlt_trans with lo; [assumption|].
  apply Qlt_trans with hi; assumption.
Qed.

Lemma Qltb_false (a b : Q) : Qltb a b = false <-> Qle b a.
Proof.
  unfold Qltb. destruct (Qcompare_spec a b) as [H|H|H]; split; intro X;
    try reflexivity; try discriminate.
  - rewrite H. apply Qle_refl.
  - exfalso. exact (Qlt_not_le _ _ H X).
  - apply Qlt_le_weak. exact H.
Qed.

Lemma step_counters (c : counters) (b : biomarker) :
  count_step c b
  = {| abnormal_count := abnormal_count c + (if is_abnormal b then 1 else 0);
       high_count := high_count c + (if is_high b then 1 else 0);
       low_count := low_count c + (if is_low b then 1 else 0) |}.
Proof.
  pose proof (low_high_exclusive b) as X.
  unfold count_step, is_abnormal, is_low, is_high in *.
  destruct c as [a h l]. cbn [abnormal_count high_count low_count].
  destruct (name b) as [n|]; [|f_equal; lia].
  destruct (dict_get BIOMARKER_RANGES n) as [i|]; [|f_equal; lia].
  destruct (float_ltb (value b) (min i)).
  - rewrite (X eq_refl). cbn. f_equal; lia.
  - destruct (float_gtb (value b) (max i)); cbn; f_equal; lia.
Qed.

Lemma loop_counters (bs : list biomarker) (c : counters) :
  fold_left count_step bs c
  = {| abnormal_count := abnormal_count c + List.length (filter is_abnormal bs);
       high_count := high_count c + List.length (filter is_high bs);
       low_count := low_count c + List.length (filter is_low bs) |}.
Proof.
  revert c. induction bs as [|b bs IH]; intro c.
  - destruct c. cbn. f_equal; lia.
  - cbn [fold_left]. rewrite IH, step_counters.
    cbn [abnormal_count high_count low_count filter].
    destruct (is_abnormal b), (is_high b), (is_low b); cbn; f_equal; lia.
Qed.

Lemma abnormal_low_or_high (b : biomarker) :
  is_abnormal b = is_low b || is_high b.
Proof.
  unfold is_abnormal, is_low, is_high.
  destruct (name b) as [n|]; [|reflexivity].
  destruct (dict_get BIOMARKER_RANGES n); reflexivity.
Qed.

End RiskMore.

(** X1.  The assessment does not depend on the order of the entries: two
    lists that are permutations of each other get the same risk and
    score. *)
Theorem risk_order_independent (bs1 bs2 : list biomarker) :
  Permutation bs1 bs2 ->
  assess_biomarker_risk bs1 = assess_biomarker_risk bs2.
Proof.
  intro P. rewrite !RiskFacts.assess_is_spec_risk. unfold spec_risk.
  rewrite (RiskMore.count_perm _ _ P).
  destruct bs1 as [|b1 l1]; destruct bs2 as [|b2 l2]; try reflexivity.
  - apply Permutation_nil in P. discriminate.
  - apply Permutation_sym, Permutation_nil in P. discriminate.
Qed.

Lemma risk_order_independent_witness :
  Permutation [tsh_low; tsh_normal] [tsh_normal; tsh_low]
  /\ assess_biomarker_risk [tsh_low; tsh_normal]
     = assess_biomarker_risk [tsh_normal; tsh_low].
Proof.
  split; [apply perm_swap|].
  apply (risk_order_independent [tsh_low; tsh_normal]
           [tsh_normal; tsh_low]).
  apply perm_swap.
Defined.

(** X2.  The three counters of the loop: the low count is the number of
    entries below their range, the high count the number of entries above
    it, and the abnormal count is their sum; no entry is counted twice. *)
Theorem counters_invariant (bs : list biomarker) :
  low_count (count_loop bs) = List.length (filter is_low bs)
  /\ high_count (count_loop bs) = List.length (filter is_high bs)
  /\ abnormal_count (count_loop bs)
     = low_count (count_loop bs) + high_count (count_loop bs)
  /\ Forall (fun b => is_low b && is_high b = false) bs.
Proof.
  unfold count_loop. rewrite RiskMore.loop_counters.
  cbn [abnormal_count high_count low_count].
  split; [reflexivity|]. split; [reflexivity|].
  assert (F : Forall (fun b => is_low b && is_high b = false) bs).
  { apply Forall_forall. intros b _.
    destruct (is_low b) eqn:L; [|reflexivity].
    rewrite (RiskMore.low_high_exclusive b L). reflexivity. }
  split; [|exact F].
  induction bs as [|b bs IH]; [reflexivity|].
  inversion F as [|b' l Hb Hl]; subst. specialize (IH Hl).
  cbn [filter]. rewrite RiskMore.abnormal_low_or_high.
  destruct (is_low b), (is_high b); cbn in *; try discriminate; lia.
Qed.

(** More entries never lower the assessment of a list whose names are
    strings or missing: the score and the risk level of a list are at most
    those of the list with entries added before and after it. *)
Lemma typed_risk_grows (pre bs post : list biomarker) :
  (score (assess_biomarker_risk bs)
   <= score (assess_biomarker_risk (pre ++ bs ++ post)))%Z
  /\ risk_rank (risk (assess_biomarker_risk bs))
     <= risk_rank (risk (assess_biomarker_risk (pre ++ bs ++ post))).
Proof.
  assert (C : spec_abnormal_count bs
              <= spec_abnormal_count (pre ++ bs ++ post)).
  { rewrite !RiskMore.count_app. lia. }
  destruct bs as [|b bs].
  - rewrite !RiskMore.rank_of_risk.
    rewrite (RiskFacts.assess_is_spec_risk (pre ++ [] ++ post)).
    change (score (assess_biomarker_risk [])) with 0%Z.
    unfold spec_risk.
    destruct (pre ++ [] ++ post) as [|x l]; cbn [score]; [split; lia|].
    destruct (spec_abnormal_count (x :: l)) as [|[|[|[|n]]]];
      cbn [score]; split; lia.
  - assert (N : pre ++ (b :: bs) ++ post <> [])
      by (destruct pre; discriminate).
    split.
    + rewrite !RiskFacts.score_of_nonempty by (assumption || discriminate).
      apply RiskMore.score_of_count_le. exact C.
    + rewrite !RiskMore.rank_of_risk.
      destruct (pre ++ (b :: bs) ++ post) as [|x l] eqn:E; [congruence|].
      destruct (spec_abnormal_count (b :: bs)) as [|[|[|[|n]]]];
        destruct (spec_abnormal_count (x :: l)) as [|[|[|[|m]]]]; lia.
Qed.

(** X4.  Special values.  An entry whose value is NaN is never abnormal; an
    entry with a registry name and an infinite value always is; and for a
    finite value the entry is normal exactly when the value lies in the
    closed range: the two bounds themselves are normal. *)
Theorem abnormal_edge_values (b : biomarker) :
  (value b = NaN -> is_abnormal b = false)
  /\ (has_registry_name b = true ->
      value b = PosInf \/ value b = NegInf ->
      is_abnormal b = true)
  /\ (forall n i lo hi q,
        name b = Some n ->
        dict_get BIOMARKER_RANGES n = Some i ->
        finite_range i = Some (lo, hi) ->
        value b = Finite q ->
        (is_abnormal b = false <-> Qle lo q /\ Qle q hi)).
Proof.
  split.
  { intro V. unfold is_abnormal. rewrite V.
    destruct (name b) as [n|]; [|reflexivity].
    destruct (dict_get BIOMARKER_RANGES n) as [i|]; [|reflexivity].
    unfold float_gtb. cbn. destruct (max i); reflexivity. }
  split.
  { unfold has_registry_name, is_abnormal.
    destruct (name b) as [n|]; [|discriminate].
    destruct (dict_get BIOMARKER_RANGES n) as [i|] eqn:E; [|discriminate].
    destruct (RiskMore.registry_ranges n i E) as [lo [hi [-> [-> _]]]].
    intros _ [-> | ->]; reflexivity. }
  intros n i lo hi q Hn Hi Hr V. unfold is_abnormal. rewrite Hn, Hi, V.
  unfold finite_range in Hr.
  destruct (min i) as [lo'| | |]; try discriminate.
  destruct (max i) as [hi'| | |]; try discriminate.
  inversion Hr; subst. unfold float_gtb. cbn [float_ltb].
  rewrite orb_false_iff, !RiskMore.Qltb_false. tauto.
Qed.

Lemma abnormal_edge_values_witness :
  (value {| name := Some (u "TSH"); value := NaN; b_unit := None |} = NaN
   /\ is_abnormal {| name := Some (u "TSH"); value := NaN; b_unit := None |}
      = false)
  /\ (has_registry_name
        {| name := Some (u "TSH"); value := PosInf; b_unit := None |} = true
      /\ is_abnormal
           {| name := Some (u "TSH"); value := PosInf; b_unit := None |}
         = true)
  /\ (finite_range {| unit_ := u "pg/dL"; min := int_lit 200;
                      max := int_lit 900;
                      names := [u "B12"; u "b12"; u "vitamin B12";
                                u "cobalamin"] |}
      = Some (inject_Z 200, inject_Z 900)
      /\ is_abnormal
           {| name := Some (u "B12"); value := int_lit 900; b_unit := None |}
         = false).
Proof.
  split.
  { split; [reflexivity|].
    exact (proj1 (abnormal_edge_values
                    {| name := Some (u "TSH"); value := NaN;
                       b_unit := None |}) eq_refl). }
  split.
  { split; [reflexivity|].
    exact (proj1 (proj2 (abnormal_edge_values
                           {| name := Some (u "TSH"); value := PosInf;
                              b_unit := None |}))
             eq_refl (or_introl eq_refl)). }
  split; [reflexivity|].
  apply (proj2 (proj2 (abnormal_edge_values
                         {| name := Some (u "B12"); value := int_lit 900;
                            b_unit := None |}))
           (u "B12") _ (inject_Z 200) (inject_Z 900) (inject_Z 900)
           eq_refl eq_refl eq_refl eq_refl).
  split; unfold Qle; cbn; lia.
Defined.

(** ** The pattern extractor and the risk scorer together *)

Module ExtractMore.

Lemma dict_get_key (d : list (str * info)) (k : str) (i : info) :
  In (k, i) d -> exists i', dict_get d k = Some i'.
Proof.
  induction d as [|[k0 i0] d IH]; [intros []|].
  intros [H|H]; cbn [dict_get].
  - inversion H; subst. rewrite (proj2 (AnalyzerFacts.str_eqb_eq k k) eq_refl).
    eauto.
  - destruct (str_eqb k0 k); eauto.
Qed.

Lemma subseq_length {A : Type} (l1 l2 : list A) :
  Subseq l1 l2 -> List.length l1 <= List.length l2.
Proof. induction 1; cbn; lia. Qed.

Lemma entry_shape (text : str) (b : biomarker) :
  In b (extract_biomarkers_from_text (Some text)) ->
  exists k i v, In (k, i) BIOMARKER_RANGES
    /\ b = entry k v /\ float_between 0 1000 v.
Proof.
  rewrite ExtractFacts.extract_flat. destruct text as [|c t]; [intros []|].
  intro Hin.
  pose proof (ExtractFacts.values_in_range (c :: t) BIOMARKER_RANGES) as R.
  rewrite Forall_forall in R. specialize (R b Hin).
  apply in_flat_map in Hin. destruct Hin as [[k i] [Hreg Hb]].
  unfold entry_of in Hb. cbn [fst snd] in Hb.
  destruct (first_some _) as [v|]; [|destruct Hb].
  destruct Hb as [<-|[]]. exists k, i, v. auto.
Qed.

End ExtractMore.

(** X5.  Every entry of the pattern extractor is named by a registry key
    and has no unit, so the risk scorer ignores none of them; and there are
    at most ten, one per definition. *)
Theorem extracted_entries_known (text : option str) :
  Forall (fun b => has_registry_name b = true /\ b_unit b = None)
         (extract_biomarkers_from_text text)
  /\ List.length (extract_biomarkers_from_text text) <= 10.
Proof.
  destruct text as [t|]; [|split; [constructor|cbn; lia]].
  split.
  - apply Forall_forall. intros b Hin.
    destruct (ExtractMore.entry_shape t b Hin) as [k [i [v [Hreg [-> _]]]]].
    split; [|reflexivity]. unfold has_registry_name. cbn [name entry].
    destruct (ExtractMore.dict_get_key _ _ _ Hreg) as [i' ->]. reflexivity.
  - rewrite ExtractFacts.extract_flat. destruct t as [|c t]; [cbn; lia|].
    pose proof (ExtractFacts.entry_names_subseq (c :: t) BIOMARKER_RANGES)
      as S.
    apply ExtractMore.subseq_length in S.
    rewrite !length_map in S. exact S.
Qed.

(** X6.  An NFL value that comes from the pattern extractor is never
    abnormal: the NFL range, 0 to 1000, covers every value the number
    pattern can produce. *)
Theorem extracted_nfl_never_abnormal (text : option str) (b : biomarker) :
  In b (extract_biomarkers_from_text text) ->
  name b = Some (u "NFL") ->
  is_abnormal b = false.
Proof.
  destruct text as [t|]; [|intros []].
  intros Hin Hn.
  destruct (ExtractMore.entry_shape t b Hin) as [k [i [v [_ [-> R]]]]].
  cbn [name entry] in Hn. inversion Hn; subst k.
  unfold is_abnormal. cbn [name value entry].
  change (dict_get BIOMARKER_RANGES (u "NFL"))
    with (Some {| unit_ := u "pg/ml"; min := int_lit 0; max := int_lit 1000;
                  names := [u "NFL"; u "neurofilament light"; u "CSF NFL"] |}).
  cbn [min max]. destruct v as [q| | |]; try contradiction.
  destruct R as [R0 R1]. unfold float_gtb, int_lit. cbn [float_ltb].
  apply orb_false_iff. split; apply RiskMore.Qltb_false; assumption.
Qed.

Lemma extracted_nfl_never_abnormal_witness :
  In (entry (u "NFL") (int_lit 1000))
     (extract_biomarkers_from_text (Some rounding_text))
  /\ name (entry (u "NFL") (int_lit 1000)) = Some (u "NFL")
  /\ is_abnormal (entry (u "NFL") (int_lit 1000)) = false.
Proof.
  assert (H : In (entry (u "NFL") (int_lit 1000))
                 (extract_biomarkers_from_text (Some rounding_text)))
    by (vm_compute; left; reflexivity).
  split; [exact H|]. split; [reflexivity|].
  exact (extracted_nfl_never_abnormal (Some rounding_text) _ H eq_refl).
Defined.

(** X7.  The bound sign, the spaces and tabs, and the choice of comma or
    dot do not change the value: two well-formed tokens with the same
    digits, both free of the separators 28..31, convert to the same float
    (so [<50] reads as 50.0, like [50]). *)
Theorem token_value_by_digits (tk1 tk2 : token) :
  token_ok tk1 = true -> token_ok tk2 = true ->
  int_digits tk1 = int_digits tk2 ->
  frac_digits (frac tk1) = frac_digits (frac tk2) ->
  existsb (in_range 28 31) (spaces tk1) = false ->
  existsb (in_range 28 31) (spaces tk2) = false ->
  py_float (clean (token_text tk1)) = py_float (clean (token_text tk2))
  /\ py_float (clean (token_text tk1)) = Some (token_decimal tk1).
Proof.
  intros H1 H2 Hi Hf S1 S2.
  rewrite (TokenFacts.clean_token tk1 H1), (TokenFacts.clean_token tk2 H2).
  rewrite (TokenFacts.float_cleaned_token tk1 H1),
    (TokenFacts.float_cleaned_token tk2 H2).
  unfold token_value, token_decimal. rewrite S1, S2, Hi, Hf. auto.
Qed.

Lemma token_value_by_digits_witness :
  py_float (clean (u "<50")) = py_float (clean (u " 50"))
  /\ py_float (clean (u "<50")) = Some (float_lit 500 1).
Proof.
  exact (token_value_by_digits
           {| bound := [60%N]; spaces := []; int_digits := u "50";
              frac := None |}
           {| bound := []; spaces := [32%N]; int_digits := u "50";
              frac := None |}
           eq_refl eq_refl eq_refl eq_refl eq_refl eq_refl).
Defined.

(** ** Letter case *)

Module CaseFacts.

Lemma ascii_lower_cases (c : char) :
  (ascii_lower c = c /\ in_range 65 90 c = false)
  \/ (ascii_lower c = (c + 32)%N /\ (65 <= c <= 90)%N).
Proof.
  unfold ascii_lower, in_range.
  destruct ((65 <=? c)%N && (c <=? 90)%N) eqn:E.
  - right. apply andb_true_iff in E. rewrite !N.leb_le in E. auto.
  - left. auto.
Qed.

Lemma isspace_lower (c : char) : isspace (ascii_lower c) = isspace c.
Proof.
  destruct (ascii_lower_cases c) as [[L _]|[L R]]; rewrite L;
    [reflexivity|].
  assert (H1 : isspace (c + 32) = false).
  { destruct (isspace (c + 32)) eqn:E; [|reflexivity].
    apply TokenFacts.isspace_cases in E. unfold space_chars in E.
    cbn [In] in E. lia. }
  assert (H2 : isspace c = false).
  { destruct (isspace c) eqn:E; [|reflexivity].
    apply TokenFacts.isspace_cases in E. unfold space_chars in E.
    cbn [In] in E. lia. }
  congruence.
Qed.

Ltac range_bool :=
  repeat match goal with
         | |- context [(?a =? ?b)%N] =>
             let E := fresh in destruct (N.eqb_spec a b) as [E|E]
         | |- context [(?a <=? ?b)%N] =>
             let E := fresh in destruct (N.leb_spec a b) as [E|E]
         end; cbn; try reflexivity; try lia.

Lemma is_digit_lower (c : char) : is_digit (ascii_lower c) = is_digit c.
Proof.
  destruct (ascii_lower_cases c) as [[L _]|[L R]]; rewrite L;
    [reflexivity|].
  unfold is_digit, in_range. range_bool.
Qed.

Lemma is_bound_lower (c : char) : is_bound (ascii_lower c) = is_bound c.
Proof.
  destruct (ascii_lower_cases c) as [[L _]|[L R]]; rewrite L;
    [reflexivity|].
  unfold is_bound. range_bool.
Qed.

Lemma is_sep_lower (c : char) : is_sep (ascii_lower c) = is_sep c.
Proof.
  destruct (ascii_lower_cases c) as [[L _]|[L R]]; rewrite L;
    [reflexivity|].
  unfold is_sep. range_bool.
Qed.

Lemma ascii_lower_idem (c : char) : ascii_lower (ascii_lower c) = ascii_lower c.
Proof.
  destruct (ascii_lower_cases c) as [[L _]|[L R]]; rewrite L;
    [exact L|].
  unfold ascii_lower, in_range.
  replace ((65 <=? c + 32)%N && (c + 32 <=? 90)%N) with false; [reflexivity|].
  symmetry. apply andb_false_iff. right. apply N.leb_gt. lia.
Qed.

Lemma ci_match_lower (p c : char) : ci_match p (ascii_lower c) = ci_match p c.
Proof.
  unfold ci_match. rewrite ascii_lower_idem.
  destruct (ascii_lower_cases c) as [[L _]|[L R]]; rewrite L;
    [reflexivity|].
  replace ((c + 32 =? 304)%N) with false by (symmetry; apply N.eqb_neq; lia).
  replace ((c + 32 =? 305)%N) with false by (symmetry; apply N.eqb_neq; lia).
  replace ((c + 32 =? 383)%N) with false by (symmetry; apply N.eqb_neq; lia).
  replace ((c + 32 =? 8490)%N) with false by (symmetry; apply N.eqb_neq; lia).
  replace ((c + 32 =? 206)%N) with false by (symmetry; apply N.eqb_neq; lia).
  replace ((c + 32 =? 238)%N) with false by (symmetry; apply N.eqb_neq; lia).
  replace ((c =? 304)%N) with false by (symmetry; apply N.eqb_neq; lia).
  replace ((c =? 305)%N) with false by (symmetry; apply N.eqb_neq; lia).
  replace ((c =? 383)%N) with false by (symmetry; apply N.eqb_neq; lia).
  replace ((c =? 8490)%N) with false by (symmetry; apply N.eqb_neq; lia).
  replace ((c =? 206)%N) with false by (symmetry; apply N.eqb_neq; lia).
  replace ((c =? 238)%N) with false by (symmetry; apply N.eqb_neq; lia).
  reflexivity.
Qed.

(** The image of an outcome when the text is lower-cased. *)
Lemma lower_and_then (xs : list (option str * str))
    (k k' : str -> list (option str * str)) :
  (forall s, k' (lower_text s) = map lower_outcome (k s)) ->
  and_then (map lower_outcome xs) k' = map lower_outcome (and_then xs k).
Proof.
  intro Hk. unfold and_then.
  induction xs as [|[g s] xs IH]; [reflexivity|].
  cbn [map flat_map]. rewrite map_app, IH. f_equal.
  unfold lower_outcome at 1 2. cbn [fst snd]. rewrite Hk, !map_map.
  apply map_ext. intros [g2 s2]. unfold lower_outcome. cbn [fst snd].
  destruct g2; reflexivity.
Qed.

Lemma lower_star (p : char -> bool) :
  (forall c, p (ascii_lower c) = p c) ->
  forall s, star p (lower_text s) = map lower_outcome (star p s).
Proof.
  intros Hp s. induction s as [|c t IH]; [reflexivity|].
  unfold lower_text in *. cbn [map star]. rewrite Hp.
  destruct (p c); [|reflexivity].
  rewrite IH, map_app. reflexivity.
Qed.

Lemma lower_rep (m m' : str -> list (option str * str)) (greedy : bool) :
  (forall s, m' (lower_text s) = map lower_outcome (m s)) ->
  forall hi lo s,
    rep m' greedy lo hi (lower_text s)
    = map lower_outcome (rep m greedy lo hi s).
Proof.
  intros Hm. induction hi as [|hi IH]; intros lo s; cbn [rep].
  - destruct lo; reflexivity.
  - rewrite Hm.
    rewrite (lower_and_then (m s) (rep m greedy (Nat.pred lo) hi)
               (rep m' greedy (Nat.pred lo) hi) (IH (Nat.pred lo))).
    destruct greedy, lo; rewrite ?map_app; reflexivity.
Qed.

Lemma lower_consumed (s rest : str) :
  consumed (lower_text s) (lower_text rest) = lower_text (consumed s rest).
Proof.
  unfold consumed, lower_text. rewrite !length_map, firstn_map.
  reflexivity.
Qed.

(** A pattern whose classes do not tell the two cases of a letter apart
    matches a lower-cased text the way it matches the text. *)
Lemma lower_rmatch (r : regex) :
  case_blind r ->
  forall s, rmatch r (lower_text s) = map lower_outcome (rmatch r s).
Proof.
  induction r as [|p|r1 IH1 r2 IH2|gr lo hi r IH|p|r IH];
    cbn [case_blind rmatch]; intros Hb s.
  - reflexivity.
  - destruct s as [|c t]; [reflexivity|].
    unfold lower_text. cbn [map]. rewrite Hb.
    destruct (p c); reflexivity.
  - destruct Hb as [H1 H2]. rewrite (IH1 H1).
    apply lower_and_then. exact (IH2 H2).
  - apply lower_rep. exact (IH Hb).
  - apply lower_star. exact Hb.
  - rewrite (IH Hb), !map_map. apply map_ext. intros [g rest].
    unfold lower_outcome. cbn [fst snd option_map].
    rewrite lower_consumed. reflexivity.
Qed.

Lemma search_unfold (r : regex) (s : str) :
  search r s
  = match rmatch r s with
    | o :: _ => Some (fst o)
    | [] => match s with
            | _ :: t => search r t
            | [] => None
            end
    end.
Proof. destruct s; reflexivity. Qed.

Lemma lower_search (r : regex) :
  case_blind r ->
  forall s, search r (lower_text s)
            = option_map (option_map lower_text) (search r s).
Proof.
  intros Hb s. induction s as [|c t IH];
    rewrite (search_unfold r (lower_text _)), (search_unfold r _),
      (lower_rmatch r Hb).
  - destruct (rmatch r []) as [|[g rest] l]; reflexivity.
  - destruct (rmatch r (c :: t)) as [|[g rest] l]; [exact IH|reflexivity].
Qed.

Lemma case_blind_lit (alias : str) : case_blind (lit alias).
Proof.
  induction alias as [|p alias IH]; cbn [lit case_blind]; [exact I|].
  split; [apply ci_match_lower|exact IH].
Qed.

Lemma case_blind_number : case_blind number_rx.
Proof.
  cbn. repeat split; intro c;
    auto using isspace_lower, is_digit_lower, is_bound_lower, is_sep_lower.
Qed.

Lemma case_blind_pattern1 (alias : str) : case_blind (pattern1 alias).
Proof.
  unfold pattern1. cbn [case_blind]. split; [apply case_blind_lit|].
  split; [cbn; reflexivity|apply case_blind_number].
Qed.

Lemma case_blind_pattern2 (alias : str) : case_blind (pattern2 alias).
Proof.
  unfold pattern2. cbn [case_blind]. split; [apply case_blind_number|].
  split; [cbn; reflexivity|apply case_blind_lit].
Qed.

(** A token has no letter: lower-casing leaves it as it is. *)
Lemma lower_token (tk : token) :
  token_ok tk = true -> lower_text (token_text tk) = token_text tk.
Proof.
  intro Hok.
  assert (Hfix : forall P : char -> bool,
             (forall c, P c = true -> in_range 65 90 c = false) ->
             forall l, forallb P l = true -> lower_text l = l).
  { intros P HP l Hl. unfold lower_text.
    apply (TokenFacts.map_same ascii_lower P); [|exact Hl].
    intros c Hc. unfold ascii_lower. rewrite (HP c Hc). reflexivity. }
  assert (Hd : forall c, is_digit c = true -> in_range 65 90 c = false).
  { intros c. unfold is_digit, in_range.
    rewrite andb_true_iff, andb_false_iff, !N.leb_le, !N.leb_gt. lia. }
  assert (Hs : forall c, isspace c = true -> in_range 65 90 c = false).
  { intros c Hc. apply TokenFacts.isspace_cases in Hc.
    unfold space_chars in Hc. cbn [In] in Hc. unfold in_range.
    rewrite andb_false_iff, !N.leb_gt. lia. }
  revert Hok. unfold token_ok. rewrite !andb_true_iff.
  intros [[[[[Hb Hsp] Hdig] _] _] Hf].
  unfold token_text, lower_text. rewrite !map_app.
  fold (lower_text (bound tk)) (lower_text (spaces tk))
       (lower_text (int_digits tk)) (lower_text (frac_text (frac tk))).
  rewrite (Hfix isspace Hs _ Hsp), (Hfix is_digit Hd _ Hdig).
  assert (Hbound : lower_text (bound tk) = bound tk).
  { rewrite !orb_true_iff in Hb. unfold str_eqb in Hb.
    destruct Hb as [[Hb|Hb]|Hb];
      destruct (list_eq_dec N.eq_dec (bound tk) _) as [E|E];
      try discriminate; rewrite E; reflexivity. }
  assert (Hfrac : lower_text (frac_text (frac tk)) = frac_text (frac tk)).
  { destruct (frac tk) as [[sep ds]|]; [|reflexivity].
    rewrite !andb_true_iff in Hf. destruct Hf as [[Hsep Hds] _].
    cbn [frac_text]. unfold lower_text. cbn [map].
    fold (lower_text ds). rewrite (Hfix is_digit Hd _ Hds).
    apply TokenFacts.sep_cases in Hsep. destruct Hsep as [-> | ->];
      reflexivity. }
  rewrite Hbound, Hfrac. reflexivity.
Qed.

Lemma lower_find_raw (alias text : str) :
  find_raw alias (lower_text text) = find_raw alias text.
Proof.
  assert (H : find_raw alias (lower_text text)
              = option_map lower_text (find_raw alias text)).
  { unfold find_raw.
    rewrite (lower_search _ (case_blind_pattern1 alias)),
      (lower_search _ (case_blind_pattern2 alias)).
    destruct (search (pattern1 alias) text) as [[g|]|]; cbn; try reflexivity.
    destruct (search (pattern2 alias) text) as [[g|]|]; reflexivity. }
  rewrite H. destruct (find_raw alias text) as [raw|] eqn:E; [|reflexivity].
  destruct (PatternFacts.find_raw_token _ _ _ E) as [_ [tk [-> Hok]]].
  cbn [option_map]. rewrite (lower_token tk Hok). reflexivity.
Qed.

Lemma lower_scan_names (text : str) (names : list str) :
  scan_names (lower_text text) names = scan_names text names.
Proof.
  induction names as [|nv rest IH]; [reflexivity|].
  cbn [scan_names]. rewrite lower_find_raw, IH. reflexivity.
Qed.

Lemma lower_extract (text : str) :
  extract_biomarkers_from_text (Some (lower_text text))
  = extract_biomarkers_from_text (Some text).
Proof.
  destruct text as [|c t]; [reflexivity|].
  change (lower_text (c :: t)) with (ascii_lower c :: lower_text t).
  cbn [extract_biomarkers_from_text].
  change (ascii_lower c :: lower_text t) with (lower_text (c :: t)).
  unfold scan_registry.
  assert (G : forall d found,
    fold_left
      (fun found kv =>
         match scan_names (lower_text (c :: t)) (names (snd kv)) with
         | Some v =>
             found ++ [{| name := Some (fst kv); value := v;
                          b_unit := None |}]
         | None => found
         end) d found
    = fold_left
      (fun found kv =>
         match scan_names (c :: t) (names (snd kv)) with
         | Some v =>
             found ++ [{| name := Some (fst kv); value := v;
                          b_unit := None |}]
         | None => found
         end) d found).
  { induction d as [|kv d IH]; intro found; [reflexivity|].
    cbn [fold_left]. rewrite lower_scan_names. apply IH. }
  apply G.
Qed.

End CaseFacts.

(** X8.  The extraction does not depend on the case of the ASCII letters of
    the text: two texts that agree when lower-cased give the same
    entries. *)
Theorem extraction_ignores_case (text1 text2 : str) :
  lower_text text1 = lower_text text2 ->
  extract_biomarkers_from_text (Some text1)
  = extract_biomarkers_from_text (Some text2).
Proof.
  intro H. rewrite <- (CaseFacts.lower_extract text1),
             <- (CaseFacts.lower_extract text2), H.
  reflexivity.
Qed.

Lemma extraction_ignores_case_witness :
  lower_text (u "tsh 2.5 FOLATE 1,0") = lower_text (u "TSH 2.5 folate 1,0")
  /\ extract_biomarkers_from_text (Some (u "tsh 2.5 FOLATE 1,0"))
     = extract_biomarkers_from_text (Some (u "TSH 2.5 folate 1,0")).
Proof.
  split; [reflexivity|].
  apply (extraction_ignores_case (u "tsh 2.5 FOLATE 1,0")
           (u "TSH 2.5 folate 1,0")).
  reflexivity.
Defined.

(** ** The first match of the number pattern *)

Module HeadFacts.

Lemma hd_and_then (xs : list (option str * str))
    (k : str -> list (option str * str)) (o o2 : option str * str) :
  hd_error xs = Some o ->
  hd_error (k (snd o)) = Some o2 ->
  hd_error (and_then xs k) = Some (merge (fst o) (fst o2), snd o2).
Proof.
  destruct xs as [|x xs]; [discriminate|].
  intro H; inversion H; subst. intro H2.
  rewrite SearchFacts.and_then_cons, SearchFacts.hd_error_app.
  destruct (k (snd o)) as [|y l]; [discriminate|].
  inversion H2; subst. reflexivity.
Qed.

Lemma rep_greedy_step (m : str -> list (option str * str)) (lo hi : nat)
    (s : str) :
  rep m true lo (S hi) s
  = and_then (m s) (rep m true (Nat.pred lo) hi)
    ++ match lo with O => [(None, s)] | S _ => [] end.
Proof. reflexivity. Qed.

Lemma chr_takes (p : char -> bool) (c : char) (t : str) :
  p c = true -> rmatch (Chr p) (c :: t) = [(None, t)].
Proof. intro H. cbn [rmatch]. rewrite H. reflexivity. Qed.

Lemma chr_fails (p : char -> bool) (s : str) :
  match s with [] => True | c :: _ => p c = false end ->
  rmatch (Chr p) s = [].
Proof.
  destruct s as [|c t]; [reflexivity|]. cbn [rmatch]. intros ->. reflexivity.
Qed.

Lemma opt_take (p : char -> bool) (c : char) (rest : str) :
  p c = true ->
  hd_error (rmatch (opt (Chr p)) (c :: rest)) = Some (None, rest).
Proof.
  intro H. unfold opt.
  change (rmatch (Rep true 0 1 (Chr p)) (c :: rest))
    with (rep (rmatch (Chr p)) true 0 1 (c :: rest)).
  rewrite rep_greedy_step, (chr_takes p c rest H).
  rewrite SearchFacts.and_then_single. reflexivity.
Qed.

Lemma opt_skip (r : regex) (s : str) :
  rmatch r s = [] -> rmatch (opt r) s = [(None, s)].
Proof.
  intro H. unfold opt.
  change (rmatch (Rep true 0 1 r) s) with (rep (rmatch r) true 0 1 s).
  rewrite rep_greedy_step, H. reflexivity.
Qed.

Lemma star_head (p : char -> bool) (ws rest : str) :
  forallb p ws = true ->
  rmatch (Chr p) rest = [] ->
  hd_error (star p (ws ++ rest)) = Some (None, rest).
Proof.
  intros Hw Hr. induction ws as [|c ws IH].
  - cbn [app]. destruct rest as [|c t]; [reflexivity|].
    cbn [rmatch] in Hr. cbn [star].
    destruct (p c); [discriminate|reflexivity].
  - cbn [forallb] in Hw. apply andb_true_iff in Hw. destruct Hw as [Hc Hw].
    cbn [app star]. rewrite Hc, SearchFacts.hd_error_app, (IH Hw).
    reflexivity.
Qed.

Lemma rep_head (p : char -> bool) (hi : nat) :
  forall lo ds rest,
    forallb p ds = true ->
    lo <= List.length ds <= hi ->
    List.length ds = hi \/ rmatch (Chr p) rest = [] ->
    hd_error (rep (rmatch (Chr p)) true lo hi (ds ++ rest))
    = Some (None, rest).
Proof.
  induction hi as [|hi IH]; intros lo ds rest Hd Hlen Hend.
  - destruct ds; [|cbn in Hlen; lia].
    destruct lo; [reflexivity|cbn in Hlen; lia].
  - rewrite rep_greedy_step. destruct ds as [|c ds].
    + destruct lo; [|cbn in Hlen; lia].
      destruct Hend as [Hend|Hend]; [discriminate|].
      cbn [app]. rewrite Hend. reflexivity.
    + cbn [forallb] in Hd. apply andb_true_iff in Hd.
      destruct Hd as [Hc Hd]. cbn [List.length] in Hlen, Hend.
      cbn [app]. rewrite (chr_takes p c (ds ++ rest) Hc).
      rewrite SearchFacts.and_then_single, SearchFacts.hd_error_app.
      rewrite (IH (Nat.pred lo) ds rest Hd); [reflexivity|lia|].
      destruct Hend; [left; lia|right; assumption].
Qed.

Lemma digit_not_space (c : char) : is_digit c = true -> isspace c = false.
Proof.
  intro H. destruct (isspace c) eqn:E; [|reflexivity].
  apply TokenFacts.space_not_special in E. destruct E as [_ [_ [_ E]]].
  congruence.
Qed.

Lemma digit_not_bound (c : char) : is_digit c = true -> is_bound c = false.
Proof.
  intro H. apply TokenFacts.digit_not_special in H.
  destruct H as [_ [_ [_ [H1 [H2 _]]]]]. unfold is_bound.
  rewrite H1, H2. reflexivity.
Qed.

Lemma space_not_bound (c : char) : isspace c = true -> is_bound c = false.
Proof.
  intro H. apply TokenFacts.space_not_special in H.
  destruct H as [_ [H1 [H2 _]]]. unfold is_bound.
  rewrite H1, H2. reflexivity.
Qed.

Lemma sep_not_digit (c : char) : is_sep c = true -> is_digit c = false.
Proof.
  intro H. apply TokenFacts.sep_cases in H. destruct H as [-> | ->];
    reflexivity.
Qed.

(** The fraction part, greedy. *)
Lemma frac_head (tk : token) (post : str) :
  token_ok tk = true -> token_ends tk post = true ->
  hd_error (rmatch (opt (Cat (Chr is_sep) (plus is_digit)))
                   (frac_text (frac tk) ++ post))
  = Some (None, post).
Proof.
  unfold token_ok, token_ends. rewrite !andb_true_iff.
  intros [_ Hf] He.
  destruct (frac tk) as [[sep ds]|].
  - rewrite !andb_true_iff in Hf. destruct Hf as [[Hsep Hds] Hn].
    apply negb_true_iff in He.
    destruct ds as [|d ds]; [discriminate|].
    cbn [forallb] in Hds. apply andb_true_iff in Hds.
    destruct Hds as [Hd Hds].
    assert (M : hd_error (rmatch (Cat (Chr is_sep) (plus is_digit))
                                 (sep :: (d :: ds) ++ post))
                = Some (None, post)).
    { unfold plus. cbn [rmatch app]. rewrite Hsep.
      rewrite SearchFacts.and_then_single. cbn [rmatch]. rewrite Hd.
      rewrite SearchFacts.and_then_single.
      apply star_head; [exact Hds|].
      apply SearchFacts.starts_with_digit_chr. exact He. }
    unfold opt. cbn [frac_text].
    change (rmatch (Rep true 0 1 (Cat (Chr is_sep) (plus is_digit)))
                   ((sep :: d :: ds) ++ post))
      with (rep (rmatch (Cat (Chr is_sep) (plus is_digit))) true 0 1
                (sep :: (d :: ds) ++ post)).
    rewrite rep_greedy_step, SearchFacts.hd_error_app.
    rewrite (hd_and_then
               (rmatch (Cat (Chr is_sep) (plus is_digit))
                       (sep :: (d :: ds) ++ post))
               (rep (rmatch (Cat (Chr is_sep) (plus is_digit))) true
                    (Nat.pred 0) 0)
               (None, post) (None, post) M eq_refl).
    reflexivity.
  - apply andb_true_iff in He. destruct He as [_ He].
    apply negb_true_iff in He. cbn [frac_text app].
    rewrite opt_skip; [reflexivity|].
    apply SearchFacts.starts_with_fraction_none. exact He.
Qed.

(** The first match of the number pattern on a token that the following
    text does not prolong is the whole token. *)
Lemma number_head (tk : token) (post : str) :
  token_ok tk = true -> token_ends tk post = true ->
  hd_error (rmatch number_rx (token_text tk ++ post))
  = Some (Some (token_text tk), post).
Proof.
  intros Hok He.
  pose proof (frac_head tk post Hok He) as HF.
  revert Hok He. unfold token_ok, token_ends. rewrite !andb_true_iff.
  intros [[[[[Hb Hs] Hd] Hlo] Hhi] Hf] He.
  apply Nat.leb_le in Hlo. apply Nat.leb_le in Hhi.
  set (r3 := frac_text (frac tk) ++ post) in *.
  set (r2 := int_digits tk ++ r3).
  set (r1 := spaces tk ++ r2).
  assert (Hfirst : exists d ds, int_digits tk = d :: ds /\ is_digit d = true).
  { destruct (int_digits tk) as [|d ds]; [cbn in Hlo; lia|].
    cbn in Hd. apply andb_true_iff in Hd. exists d, ds. tauto. }
  destruct Hfirst as [d [ds [Ed Hd0]]].
  assert (HD : hd_error (rep (rmatch (Chr is_digit)) true 1 3 r2)
               = Some (None, r3)).
  { apply rep_head; [exact Hd|lia|].
    unfold r3. destruct (frac tk) as [[sep fd]|].
    - right. rewrite !andb_true_iff in Hf. destruct Hf as [[Hsep _] _].
      cbn [frac_text app]. apply chr_fails. apply sep_not_digit. exact Hsep.
    - apply andb_true_iff in He. destruct He as [He _].
      apply orb_true_iff in He. destruct He as [He|He].
      + left. apply Nat.eqb_eq. exact He.
      + right. apply negb_true_iff in He. cbn [frac_text app].
        apply SearchFacts.starts_with_digit_chr. exact He. }
  assert (HS : hd_error (star isspace r1) = Some (None, r2)).
  { apply star_head; [exact Hs|]. unfold r2. rewrite Ed. cbn [app].
    apply chr_fails. apply digit_not_space. exact Hd0. }
  assert (Hr1 : match r1 with [] => True | c :: _ => is_bound c = false end).
  { unfold r1. destruct (spaces tk) as [|c ws].
    - unfold r2. rewrite Ed. cbn [app]. apply digit_not_bound. exact Hd0.
    - cbn [app]. cbn [forallb] in Hs. apply andb_true_iff in Hs.
      apply space_not_bound. tauto. }
  assert (HB : hd_error (rmatch (opt (Chr is_bound)) (bound tk ++ r1))
               = Some (None, r1)).
  { rewrite !orb_true_iff in Hb. unfold str_eqb in Hb.
    destruct Hb as [[Hb|Hb]|Hb];
      destruct (list_eq_dec N.eq_dec (bound tk) _) as [E|E];
      try discriminate; rewrite E.
    - cbn [app]. rewrite opt_skip; [reflexivity|].
      apply chr_fails. exact Hr1.
    - apply opt_take. reflexivity.
    - apply opt_take. reflexivity. }
  assert (Body : hd_error (rmatch number_body (bound tk ++ r1))
                 = Some (None, post)).
  { unfold number_body. cbn [rmatch].
    apply (hd_and_then _ _ (None, r1) (None, post) HB).
    cbn [snd rmatch].
    apply (hd_and_then _ _ (None, r2) (None, post) HS).
    cbn [snd].
    apply (hd_and_then _ _ (None, r3) (None, post) HD).
    exact HF. }
  unfold number_rx. cbn [rmatch].
  assert (Et : token_text tk ++ post = bound tk ++ r1).
  { unfold token_text, r1, r2, r3. rewrite <- !app_assoc. reflexivity. }
  rewrite <- Et in Body.
  destruct (rmatch number_body (token_text tk ++ post)) as [|[g s'] l];
    [discriminate|].
  inversion Body; subst. cbn [map hd_error snd].
  rewrite RegexFacts.firstn_consumed. reflexivity.
Qed.

(** No number token starts in a stretch without digits whose last
    character is neither white space nor a bound sign. *)
Lemma no_number_in_gap (g rest : str) :
  g <> [] -> plain_gap g = true -> rmatch number_rx (g ++ rest) = [].
Proof.
  intros Hne Hg.
  destruct (rmatch number_rx (g ++ rest)) as [|[cap s'] l] eqn:E;
    [reflexivity|exfalso].
  destruct (RegexFacts.rmatch_sound number_rx (g ++ rest) cap s')
    as [w [Hw M]]; [rewrite E; left; reflexivity|].
  unfold number_rx in M. apply PatternFacts.Matches_grp_inv in M.
  destruct M as [_ [g' M]]. apply PatternFacts.number_body_token in M.
  destruct M as [_ [tk [Hok <-]]].
  unfold plain_gap in Hg. apply andb_true_iff in Hg.
  destruct Hg as [Hnd Hlast].
  revert Hok. unfold token_ok. rewrite !andb_true_iff.
  intros [[[[[Hb Hs] Hd] Hlo] _] _]. apply Nat.leb_le in Hlo.
  destruct (int_digits tk) as [|d ds] eqn:Ed; [cbn in Hlo; lia|].
  cbn in Hd. apply andb_true_iff in Hd. destruct Hd as [Hd0 _].
  (* the part of the token before its first digit *)
  set (P := bound tk ++ spaces tk).
  assert (HP : forall c, In c P -> isspace c || is_bound c = true).
  { intros c Hin. unfold P in Hin. apply in_app_iff in Hin.
    destruct Hin as [Hin|Hin].
    - rewrite !orb_true_iff in Hb. unfold str_eqb in Hb.
      destruct Hb as [[Hb|Hb]|Hb];
        destruct (list_eq_dec N.eq_dec (bound tk) _) as [Eb|Eb];
        try discriminate; rewrite Eb in Hin; cbn [In] in Hin;
        try contradiction; destruct Hin as [<-|[]]; reflexivity.
    - rewrite forallb_forall in Hs. rewrite (Hs c Hin). reflexivity. }
  assert (Hsplit : g ++ rest
                   = P ++ d :: (ds ++ frac_text (frac tk) ++ s')).
  { rewrite Hw. unfold token_text, P. rewrite Ed.
    rewrite <- !app_assoc. reflexivity. }
  assert (Hl : exists l0 g0, g = g0 ++ [l0]
                             /\ isspace l0 || is_bound l0 = false).
  { destruct (exists_last Hne) as [g0 [l0 Eg]]. exists l0, g0.
    split; [exact Eg|]. rewrite Eg, rev_app_distr in Hlast.
    cbn [rev app] in Hlast. apply negb_true_iff in Hlast. exact Hlast. }
  destruct Hl as [l0 [g0 [Eg Hl0]]].
  apply app_eq_app in Hsplit. destruct Hsplit as [x [[H1 H2]|[H1 H2]]].
  - (* the gap reaches beyond [P] *)
    destruct x as [|c x].
    + rewrite app_nil_r in H1.
      assert (In l0 P) by (rewrite <- H1, Eg; apply in_app_iff; right;
                           left; reflexivity).
      rewrite (HP l0 H) in Hl0. discriminate.
    + cbn [app] in H2. inversion H2; subst c.
      rewrite forallb_forall in Hnd.
      assert (In d g) by (rewrite H1; apply in_app_iff; right; left;
                          reflexivity).
      specialize (Hnd d H). rewrite Hd0 in Hnd. discriminate.
  - assert (In l0 P) by (rewrite H1, Eg; apply in_app_iff; left;
                         apply in_app_iff; right; left; reflexivity).
    rewrite (HP l0 H) in Hl0. discriminate.
Qed.

Lemma plain_gap_suffix (g1 g2 : str) :
  g2 <> [] -> plain_gap (g1 ++ g2) = true -> plain_gap g2 = true.
Proof.
  intros Hne. unfold plain_gap. rewrite !andb_true_iff, forallb_app,
    andb_true_iff, rev_app_distr.
  intros [[_ H2] Hl]. split; [exact H2|].
  destruct (exists_last Hne) as [g0 [l0 Eg]]. rewrite Eg in *.
  rewrite rev_app_distr in *. cbn [rev app] in *. exact Hl.
Qed.

(** The lazy gap stops at the first position where a number starts. *)
Lemma lazy_gap_plain (gap rest : str) (o : option str * str) :
  forall n,
    List.length gap <= n ->
    plain_gap gap = true ->
    hd_error (rmatch number_rx rest) = Some o ->
    lazy_gap_first (rmatch number_rx) n (gap ++ rest) = Some o.
Proof.
  induction gap as [|c gap IH]; intros n Hlen Hg Ho.
  - cbn [app]. destruct n; cbn [lazy_gap_first]; rewrite Ho; reflexivity.
  - destruct n as [|n]; [cbn in Hlen; lia|].
    cbn [lazy_gap_first].
    change ((c :: gap) ++ rest) with ((c :: gap) ++ rest).
    rewrite (no_number_in_gap (c :: gap) rest) by (discriminate || exact Hg).
    cbn [hd_error app].
    destruct gap as [|c' gap'].
    + cbn [app]. destruct n; cbn [lazy_gap_first]; rewrite Ho; reflexivity.
    + apply IH; [cbn in Hlen |- *; lia| |exact Ho].
      apply (plain_gap_suffix [c] (c' :: gap')); [discriminate|exact Hg].
Qed.

Lemma ci_prefix_app (alias occ rest : str) :
  ci_prefix alias occ = true -> ci_prefix alias (occ ++ rest) = true.
Proof.
  revert occ. induction alias as [|p alias IH]; intros occ H; [reflexivity|].
  destruct occ as [|c occ]; [discriminate|].
  cbn [ci_prefix app] in *. apply andb_true_iff in H. destruct H as [H1 H2].
  rewrite H1, (IH occ H2). reflexivity.
Qed.

Lemma absent_candidate (text a : str) :
  occurs a text = false -> candidate text a = None.
Proof.
  intro H. unfold candidate.
  destruct (find_raw a text) as [raw|] eqn:E; [|reflexivity].
  destruct (PatternFacts.find_raw_token _ _ _ E) as [Hocc _]. congruence.
Qed.

Lemma first_some_skip {A : Type} (f : str -> option A)
    (before after : list str) (a : str) (v : A) :
  (forall x, In x before -> f x = None) ->
  f a = Some v ->
  first_some (map f (before ++ a :: after)) = Some v.
Proof.
  intros Hb Ha. induction before as [|x before IH].
  - cbn. rewrite Ha. reflexivity.
  - cbn [app map first_some]. rewrite (Hb x (or_introl eq_refl)).
    apply IH. intros y Hy. apply Hb. right. exact Hy.
Qed.

End HeadFacts.

(** X9.  The name-then-number pattern, in general.  When the earlier name
    variants of a definition do not occur, the first occurrence of a
    variant (in any letter case) is followed by at most 60 characters in
    which no number can start, and then comes a number token that the
    following text does not prolong, the extractor returns the entry of
    that definition with the value of that token. *)
Theorem labelled_value_extracted
    (k : str) (i : info) (before after : list str)
    (alias pre occ gap post : str) (tk : token) (v : pyfloat) :
  In (k, i) BIOMARKER_RANGES ->
  names i = before ++ alias :: after ->
  (forall a, In a before ->
             occurs a (pre ++ occ ++ gap ++ token_text tk ++ post) = false) ->
  ci_equal alias occ = true ->
  ci_find alias (pre ++ occ ++ gap ++ token_text tk ++ post)
  = Some (List.length pre) ->
  plain_gap gap = true ->
  List.length gap <= 60 ->
  token_ok tk = true ->
  token_ends tk post = true ->
  token_value tk = Some v ->
  In (entry k v)
     (extract_biomarkers_from_text
        (Some (pre ++ occ ++ gap ++ token_text tk ++ post))).
Proof.
  intros Hreg Hnames Hbefore Hocc Hfind Hgap Hlen Hok Hend Hv.
  set (text := pre ++ occ ++ gap ++ token_text tk ++ post) in *.
  unfold ci_equal in Hocc. apply andb_true_iff in Hocc.
  destruct Hocc as [Hl Hp]. apply Nat.eqb_eq in Hl.
  assert (Hraw : find_raw alias text = Some (token_text tk)).
  { apply (SearchFacts.find_raw_first alias pre
             (occ ++ gap ++ token_text tk ++ post)
             (Some (token_text tk), post) Hfind).
    rewrite SearchFacts.pattern1_head.
    rewrite (HeadFacts.ci_prefix_app alias occ _ Hp).
    rewrite Hl, skipn_app, skipn_all, Nat.sub_diag. cbn [skipn app].
    apply HeadFacts.lazy_gap_plain; [exact Hlen|exact Hgap|].
    apply HeadFacts.number_head; assumption. }
  assert (Htok : exists c raw, token_text tk = c :: raw).
  { destruct (token_text tk) as [|c raw] eqn:Et; [|eauto].
    exfalso. revert Hok. unfold token_ok. rewrite !andb_true_iff.
    intros [[[[[_ _] _] Hlo] _] _]. apply Nat.leb_le in Hlo.
    unfold token_text in Et. apply app_eq_nil in Et.
    destruct Et as [_ Et]. apply app_eq_nil in Et. destruct Et as [_ Et].
    apply app_eq_nil in Et. destruct Et as [Et _].
    rewrite Et in Hlo. cbn in Hlo. lia. }
  destruct Htok as [c0 [raw0 Et]].
  assert (Hcand : candidate text alias = Some v).
  { unfold candidate. rewrite Hraw, Et, <- Et.
    rewrite (TokenFacts.clean_token tk Hok),
      (TokenFacts.float_cleaned_token tk Hok). exact Hv. }
  assert (Hne : text <> []).
  { unfold text. rewrite Et. intro E.
    apply app_eq_nil in E. destruct E as [_ E].
    apply app_eq_nil in E. destruct E as [_ E].
    apply app_eq_nil in E. destruct E as [_ E]. discriminate. }
  rewrite ExtractFacts.extract_flat.
  destruct text as [|c t] eqn:Etext; [congruence|].
  apply in_flat_map. exists (k, i). split; [exact Hreg|].
  unfold entry_of. cbn [fst snd]. rewrite Hnames.
  rewrite (HeadFacts.first_some_skip (candidate (c :: t)) before after
             alias v).
  - left. reflexivity.
  - intros a Ha. apply HeadFacts.absent_candidate. apply Hbefore. exact Ha.
  - exact Hcand.
Qed.


Lemma labelled_value_extracted_witness :
  ci_equal (u "thyroxine") (u "Thyroxine") = true
  /\ plain_gap (u " level:") = true
  /\ token_ok {| bound := []; spaces := [32%N]; int_digits := u "0";
                 frac := Some (46%N, u "5") |} = true
  /\ token_ends {| bound := []; spaces := [32%N]; int_digits := u "0";
                   frac := Some (46%N, u "5") |} (u " ng/dL") = true
  /\ In (entry (u "T4") (float_lit 5 1))
        (extract_biomarkers_from_text (Some (u "Thyroxine level: 0.5 ng/dL"))).
Proof.
  split; [reflexivity|]. split; [reflexivity|]. split; [reflexivity|].
  split; [reflexivity|].
  apply (labelled_value_extracted (u "T4")
           {| unit_ := u "ng/dL"; min := float_lit 8 1; max := float_lit 18 1;
              names := [u "T4"; u "t4"; u "thyroxine"] |}
           [u "T4"; u "t4"] [] (u "thyroxine") [] (u "Thyroxine")
           (u " level:") (u " ng/dL")
           {| bound := []; spaces := [32%N]; int_digits := u "0";
              frac := Some (46%N, u "5") |}
           (float_lit 5 1)).
  - right; right; left; reflexivity.
  - reflexivity.
  - intros a [<-|[<-|[]]]; reflexivity.
  - reflexivity.
  - reflexivity.
  - reflexivity.
  - cbn; lia.
  - reflexivity.
  - reflexivity.
  - vm_compute; reflexivity.
Defined.

(** ** More on the GenAI extractor *)

Module GenAIMore.

Section WithBuiltins.

Variable json_loads : str -> result pyval.
Variable str_to_float : str -> option pyfloat.
Variable str_lower : str -> str.

Lemma with_credential (g : client) (env : environ) (text : str) :
  ~ no_credential env ->
  exists k,
    genai_extract_biomarkers json_loads str_to_float str_lower
      (Some g) env text
    = try_except (extraction json_loads str_to_float str_lower g k text)
                 (fun _ => Ok None).
Proof.
  intro H.
  destruct (GenAIFacts.available_runs_extraction json_loads str_to_float
              str_lower g env text H) as [k [_ E]].
  exists k. exact E.
Qed.

(** Once the reply is a string that parses, the result is that of the loop
    over the parsed value. *)
Lemma reply_parsed (g : client) (k text reply : str) (parsed : pyval) :
  client_content g text = Ok (VStr reply) ->
  json_loads (reply_source reply) = Ok parsed ->
  extraction json_loads str_to_float str_lower g k text
  = bind (py_iter parsed) (fun items =>
      bind (collect str_to_float str_lower items [])
           (fun results => Ok (Some results))).
Proof.
  intros Hc Hj.
  rewrite (GenAIFacts.extraction_reply json_loads str_to_float str_lower
             g k text reply Hc), Hj.
  reflexivity.
Qed.

Lemma process_dict (d : list (str * pyval)) :
  process_item str_to_float str_lower (VDict d)
  = match coerce_value str_to_float (item_value d) with
    | Raise _ => Ok None
    | Ok v =>
        bind (normalize_name str_lower (item_name d) BIOMARKER_RANGES)
          (fun key =>
             Ok (Some {| e_name := match key with
                                   | Some k => VStr k
                                   | None => item_name d
                                   end;
                         e_value := v;
                         e_unit := match assoc d (u "unit") with
                                   | Some x => x
                                   | None => VNone
                                   end |}))
    end.
Proof.
  unfold process_item, item_name, item_value, py_or. cbn [py_get bind].
  destruct (truthy _); reflexivity.
Qed.

Lemma normalize_bad_name (name : pyval) :
  truthy name = true -> is_string name = false ->
  normalize_name str_lower name BIOMARKER_RANGES = Raise AttributeError.
Proof.
  intros Ht Hs. unfold BIOMARKER_RANGES. cbn [normalize_name]. rewrite Ht.
  destruct name; try discriminate; reflexivity.
Qed.

Lemma collect_raises (items : list pyval) (d : list (str * pyval)) :
  In (VDict d) items ->
  truthy (item_name d) = true -> is_string (item_name d) = false ->
  (exists v, coerce_value str_to_float (item_value d) = Ok v) ->
  forall results,
    exists e, collect str_to_float str_lower items results = Raise e.
Proof.
  intros Hin Ht Hs [v Hv].
  induction items as [|item items IH]; [destruct Hin|].
  intro results. cbn [collect].
  destruct Hin as [->|Hin].
  - rewrite process_dict, Hv, (normalize_bad_name _ Ht Hs). cbn. eauto.
  - destruct (process_item str_to_float str_lower item) as [[e|]|e];
      cbn [bind]; eauto.
Qed.

Lemma normalize_by_lower (s s' : str) (d : list (str * info)) :
  s <> [] -> s' <> [] -> str_lower s = str_lower s' ->
  normalize_name str_lower (VStr s) d = normalize_name str_lower (VStr s') d.
Proof.
  intros Hs Hs' E. induction d as [|[k i] d IH]; [reflexivity|].
  cbn [normalize_name truthy name_lower bind].
  destruct s; [congruence|]. destruct s'; [congruence|].
  rewrite E, IH. reflexivity.
Qed.

End WithBuiltins.

Lemma registry_lower_nil (s : str) : registry_lower s = [] -> s = [].
Proof. destruct s; [reflexivity|discriminate]. Qed.

End GenAIMore.

(** X10.  One object of the parsed reply whose name is not empty and not
    a string (a number, [true], a list) while its value converts makes the
    whole result null, whatever the other objects are: the failure is in
    [name.lower()], outside the inner [try]. *)
Theorem bad_name_voids_reply
    (json_loads : str -> result pyval)
    (str_to_float : str -> option pyfloat)
    (str_lower : str -> str)
    (g : client) (env : environ) (text reply : str)
    (items : list pyval) (d : list (str * pyval)) (v : pyfloat) :
  client_content g text = Ok (VStr reply) ->
  json_loads (reply_source reply) = Ok (VList items) ->
  In (VDict d) items ->
  truthy (item_name d) = true ->
  is_string (item_name d) = false ->
  coerce_value str_to_float (item_value d) = Ok v ->
  genai_extract_biomarkers json_loads str_to_float str_lower
    (Some g) env text = Ok None.
Proof.
  intros Hc Hj Hin Ht Hs Hv.
  unfold genai_extract_biomarkers.
  match goal with
  | |- match ?k with _ => _ end = _ => destruct k as [[|c k']|]
  end; try reflexivity.
  rewrite (GenAIMore.reply_parsed json_loads str_to_float str_lower
             g (c :: k') text reply (VList items) Hc Hj).
  cbn [py_iter bind].
  destruct (GenAIMore.collect_raises str_to_float str_lower items d Hin Ht Hs
              (ex_intro _ v Hv) []) as [e ->].
  reflexivity.
Qed.

Lemma bad_name_voids_reply_witness :
  replay_json_loads bad_name_reply (VList bad_name_parsed)
    (reply_source bad_name_reply) = Ok (VList bad_name_parsed)
  /\ genai_extract_biomarkers
       (replay_json_loads bad_name_reply (VList bad_name_parsed))
       py_float ascii_str_lower
       (Some (replying_client bad_name_reply)) sample_env nfl_text
     = Ok None.
Proof.
  assert (P : replay_json_loads bad_name_reply (VList bad_name_parsed)
                (reply_source bad_name_reply) = Ok (VList bad_name_parsed))
    by (vm_compute; reflexivity).
  split; [exact P|].
  apply (bad_name_voids_reply
           (replay_json_loads bad_name_reply (VList bad_name_parsed))
           py_float ascii_str_lower
           (replying_client bad_name_reply) sample_env nfl_text
           bad_name_reply bad_name_parsed
           [(u "name", VInt 7); (u "value", VInt 1)] (int_lit 1)).
  - reflexivity.
  - exact P.
  - right; left; reflexivity.
  - vm_compute; reflexivity.
  - vm_compute; reflexivity.
  - vm_compute; reflexivity.
Defined.

(** X11.  Canonical names.  With the lower-casing of the registry's
    letters, a reported name that equals, letter case apart, the key or a
    name variant of a definition is replaced by the key of that definition:
    no label of the registry is shadowed by an earlier definition. *)
Theorem label_gets_its_key (k : str) (i : info) (label s : str) :
  In (k, i) BIOMARKER_RANGES ->
  In label (labels (k, i)) ->
  registry_lower s = registry_lower label ->
  normalize_name registry_lower (VStr s) BIOMARKER_RANGES = Ok (Some k).
Proof.
  intros Hreg Hlab E.
  assert (Hl : label <> []).
  { unfold BIOMARKER_RANGES in Hreg. cbn [In] in Hreg.
    repeat (destruct Hreg as [Hreg|Hreg];
            [inversion Hreg; subst; cbn [labels fst snd names In] in Hlab;
             intuition (subst; discriminate)|]).
    destruct Hreg. }
  assert (Hs : s <> []).
  { intros ->. symmetry in E. cbn in E.
    apply GenAIMore.registry_lower_nil in E. contradiction. }
  rewrite (GenAIMore.normalize_by_lower registry_lower s label
             BIOMARKER_RANGES Hs Hl E).
  unfold BIOMARKER_RANGES in Hreg. cbn [In] in Hreg.
  repeat (destruct Hreg as [Hreg|Hreg];
          [inversion Hreg; subst; cbn [labels fst snd names In] in Hlab;
           repeat (destruct Hlab as [Hlab|Hlab];
                   [subst label; vm_compute; reflexivity|]);
           destruct Hlab|]).
  destruct Hreg.
Qed.

Lemma label_gets_its_key_witness :
  normalize_name registry_lower (VStr (u "VITAMIN b12")) BIOMARKER_RANGES
  = Ok (Some (u "B12")).
Proof.
  apply (label_gets_its_key (u "B12")
           {| unit_ := u "pg/dL"; min := int_lit 200; max := int_lit 900;
              names := [u "B12"; u "b12"; u "vitamin B12"; u "cobalamin"] |}
           (u "vitamin B12") (u "VITAMIN b12")).
  - do 3 right; left; reflexivity.
  - right; right; right; left; reflexivity.
  - reflexivity.
Defined.

(** X12.  Replies that parse to something other than a list of objects.
    When the text selected from the reply parses to an empty list, an empty
    object or an empty string, the result is the empty list, which is not
    null; when it parses to a number, a boolean, [null], a non-empty string
    or a non-empty object, the result is null. *)
Theorem degenerate_replies
    (json_loads : str -> result pyval)
    (str_to_float : str -> option pyfloat)
    (str_lower : str -> str)
    (g : client) (env : environ) (text reply : str) (parsed : pyval) :
  ~ no_credential env ->
  client_content g text = Ok (VStr reply) ->
  json_loads (reply_source reply) = Ok parsed ->
  genai_extract_biomarkers json_loads str_to_float str_lower
    (Some g) env text
  = match parsed with
    | VList [] | VDict [] | VStr [] => Ok (Some [])
    | VList items =>
        try_except
          (bind (collect str_to_float str_lower items [])
                (fun results => Ok (Some results)))
          (fun _ => Ok None)
    | _ => Ok None
    end.
Proof.
  intros Hcred Hc Hj.
  destruct (GenAIMore.with_credential json_loads str_to_float str_lower
              g env text Hcred) as [k ->].
  rewrite (GenAIMore.reply_parsed json_loads str_to_float str_lower
             g k text reply parsed Hc Hj).
  destruct parsed as [| | | |s|l|d]; try reflexivity.
  - destruct s as [|c s]; reflexivity.
  - destruct l; reflexivity.
  - destruct d as [|[k0 v0] d]; reflexivity.
Qed.

Lemma degenerate_replies_witness :
  ~ no_credential sample_env
  /\ genai_extract_biomarkers (replay_json_loads (u "{}") (VDict []))
       py_float ascii_str_lower (Some (replying_client (u "{}")))
       sample_env nfl_text
     = Ok (Some [])
  /\ genai_extract_biomarkers (replay_json_loads object_reply object_parsed)
       py_float ascii_str_lower
       (Some (replying_client object_reply)) sample_env nfl_text
     = Ok None.
Proof.
  assert (N : ~ no_credential sample_env).
  { unfold no_credential, sample_env. cbn. intros [_ [H|H]]; discriminate. }
  split; [exact N|]. split.
  - apply (degenerate_replies (replay_json_loads (u "{}") (VDict []))
             py_float ascii_str_lower (replying_client (u "{}")) sample_env
             nfl_text (u "{}") (VDict []) N eq_refl).
    vm_compute; reflexivity.
  - apply (degenerate_replies
             (replay_json_loads object_reply object_parsed)
             py_float ascii_str_lower (replying_client object_reply)
             sample_env nfl_text object_reply object_parsed N eq_refl).
    vm_compute; reflexivity.
Defined.

(** ** Text extraction from a PDF file *)

Module PdfFacts.

Lemma pdfplumber_loop_ok (texts : list (option str)) (text : str) :
  pdfplumber_loop (map Ok texts) text
  = Ok (text ++ List.concat (map or_empty texts)).
Proof.
  revert text. induction texts as [|t texts IH]; intro text.
  - cbn. rewrite app_nil_r. reflexivity.
  - cbn [map pdfplumber_loop bind List.concat]. rewrite IH, <- app_assoc.
    destruct t as [[|c s]|]; reflexivity.
Qed.

Lemma pdfplumber_loop_inv (ps : list page) (text out : str) :
  pdfplumber_loop ps text = Ok out ->
  exists texts, ps = map Ok texts
                /\ out = text ++ List.concat (map or_empty texts).
Proof.
  revert text. induction ps as [|p ps IH]; intros text H.
  - exists []. cbn in *. rewrite app_nil_r.
    inversion H. split; reflexivity.
  - cbn [pdfplumber_loop] in H. destruct p as [t|e]; [|discriminate].
    cbn [bind] in H. apply IH in H. destruct H as [texts [-> ->]].
    exists (t :: texts). split; [reflexivity|].
    cbn [map List.concat]. rewrite <- app_assoc.
    destruct t as [[|c s]|]; reflexivity.
Qed.

End PdfFacts.

(** X13.  When [PyPDF2] can be imported, the name [pdfplumber] is never
    bound, the test [if pdfplumber:] raises and the handler returns [None]:
    no PDF file gives any text, whatever the libraries would do, and the
    analyzer answers every path with the extension .pdf by the
    extraction-failure error after that single call. *)
Theorem PyPDF2_installed_no_text
    (str_lower : str -> str)
    (m : pdf_library) (plumber : option pdf_library)
    (extract_text_from_image parse_csv : str -> option str)
    (genai : str -> result (option (list biomarker)))
    (file_path : str) :
  extract_text_from_pdf (import_pdf_libraries (Some m) plumber) file_path
  = None
  /\ (file_ext str_lower file_path = u ".pdf" ->
      analyze_report str_lower
        (extract_text_from_pdf (import_pdf_libraries (Some m) plumber))
        extract_text_from_image parse_csv genai file_path
      = ([CallPdf file_path],
         Error (u "Failed to extract text from file"))).
Proof.
  split; [reflexivity|].
  intro E. unfold analyze_report, dispatch. rewrite E. reflexivity.
Qed.

Lemma PyPDF2_installed_no_text_witness :
  file_ext ascii_str_lower (u "/tmp/Report.PDF") = u ".pdf"
  /\ analyze_report ascii_str_lower
       (extract_text_from_pdf
          (import_pdf_libraries
             (Some (library_of [Ok (Some (u "TSH: 2.0"))]))
             (Some (library_of [Ok (Some (u "TSH: 2.0"))]))))
       no_text no_text genai_unavailable (u "/tmp/Report.PDF")
     = ([CallPdf (u "/tmp/Report.PDF")],
        Error (u "Failed to extract text from file")).
Proof.
  split; [reflexivity|].
  apply (PyPDF2_installed_no_text ascii_str_lower
           (library_of [Ok (Some (u "TSH: 2.0"))])
           (Some (library_of [Ok (Some (u "TSH: 2.0"))]))
           no_text no_text genai_unavailable (u "/tmp/Report.PDF")).
  reflexivity.
Defined.

(** X14.  When a PDF file gives text.  [extract_text_from_pdf] returns a
    text exactly when [PyPDF2] is not importable, [pdfplumber] is, the
    document opens, every page is read without an exception and the
    document closes; the text is then the concatenation of the page texts
    in page order, a page without text counting as empty.  In every other
    case the answer is [None]; the branch that reads with [PyPDF2] never
    contributes. *)
Theorem pdf_text_characterised
    (PyPDF2_found pdfplumber_found : option pdf_library)
    (pdf_path text : str) :
  extract_text_from_pdf
    (import_pdf_libraries PyPDF2_found pdfplumber_found) pdf_path
  = Some text
  <-> PyPDF2_found = None
      /\ exists lib texts,
           pdfplumber_found = Some lib
           /\ (exists doc, open_pdf lib pdf_path = Ok doc
                           /\ pages doc = map Ok texts
                           /\ close doc = Ok tt)
           /\ text = List.concat (map or_empty texts).
Proof.
  split.
  - destruct PyPDF2_found as [m|]; [discriminate|].
    destruct pdfplumber_found as [lib|]; [|discriminate].
    unfold extract_text_from_pdf, import_pdf_libraries, with_document.
    cbn [pdfplumber PyPDF2 load_global bind].
    destruct (open_pdf lib pdf_path) as [doc|e] eqn:Eo; [|discriminate].
    cbn [bind].
    destruct (pdfplumber_loop (pages doc) []) as [out|e] eqn:El;
      [|discriminate].
    cbn [bind]. destruct (close doc) as [[]|e] eqn:Ec; [|discriminate].
    cbn [bind]. intro H. inversion H; subst out.
    apply PdfFacts.pdfplumber_loop_inv in El.
    destruct El as [texts [Ep Et]].
    split; [reflexivity|]. exists lib, texts.
    split; [reflexivity|]. split; [|exact Et].
    exists doc. auto.
  - intros [-> [lib [texts [-> [[doc [Eo [Ep Ec]]] ->]]]]].
    unfold extract_text_from_pdf, import_pdf_libraries, with_document.
    cbn [pdfplumber PyPDF2 load_global bind].
    rewrite Eo. cbn [bind]. rewrite Ep, PdfFacts.pdfplumber_loop_ok, Ec.
    reflexivity.
Qed.

(** ** The analyzer *)

Module AnalyzerMore.

Section WithCollaborators.

Variable str_lower : str -> str.
Variables extract_text_from_pdf extract_text_from_image parse_csv
  : str -> option str.

Lemma choose_shape (genai : str -> result (option (list biomarker)))
    (text : str) :
  let (calls, bs) := choose_biomarkers genai text in
  (calls = [CallGenAI text]
   /\ genai text = Ok (Some bs))
  \/ (calls = [CallGenAI text; CallPattern text]
      /\ bs = extract_biomarkers_from_text (Some text)
      /\ (genai text = Ok None \/ exists e, genai text = Raise e)).
Proof.
  unfold choose_biomarkers.
  destruct (genai text) as [[bs|]|e]; [left|right|right]; eauto.
Qed.

(** What the dispatch on the extension answers. *)
Lemma dispatch_call (file_path : str) (c : call) (t : option str) :
  dispatch str_lower extract_text_from_pdf extract_text_from_image parse_csv
           file_path = Some (c, t) ->
  call_path c = Some file_path
  /\ In (file_ext str_lower file_path) (call_exts c)
  /\ call_answer extract_text_from_pdf extract_text_from_image parse_csv c
     = t.
Proof.
  unfold dispatch. cbn [existsb].
  destruct (str_eqb (file_ext str_lower file_path) (u ".pdf")) eqn:E1.
  { apply AnalyzerFacts.str_eqb_eq in E1. intro H; inversion H; subst.
    cbn [call_path call_exts call_answer In]. auto. }
  destruct (str_eqb (file_ext str_lower file_path) (u ".jpg")) eqn:E2.
  { apply AnalyzerFacts.str_eqb_eq in E2. intro H; inversion H; subst.
    cbn [call_path call_exts call_answer In]. auto. }
  destruct (str_eqb (file_ext str_lower file_path) (u ".jpeg")) eqn:E3.
  { apply AnalyzerFacts.str_eqb_eq in E3. intro H; inversion H; subst.
    cbn [call_path call_exts call_answer In]. auto. }
  destruct (str_eqb (file_ext str_lower file_path) (u ".png")) eqn:E4.
  { apply AnalyzerFacts.str_eqb_eq in E4. intro H; inversion H; subst.
    cbn [call_path call_exts call_answer In]. auto 6. }
  destruct (str_eqb (file_ext str_lower file_path) (u ".csv")) eqn:E5.
  { apply AnalyzerFacts.str_eqb_eq in E5. intro H; inversion H; subst.
    cbn [call_path call_exts call_answer In]. auto. }
  discriminate.
Qed.

Lemma dispatch_none (file_path : str) :
  dispatch str_lower extract_text_from_pdf extract_text_from_image parse_csv
           file_path = None ->
  ~ In (file_ext str_lower file_path) supported_exts.
Proof.
  unfold dispatch, supported_exts. cbn [existsb In].
  destruct (str_eqb (file_ext str_lower file_path) (u ".pdf")) eqn:E1;
    [discriminate|].
  destruct (str_eqb (file_ext str_lower file_path) (u ".jpg")) eqn:E2;
    [discriminate|].
  destruct (str_eqb (file_ext str_lower file_path) (u ".jpeg")) eqn:E3;
    [discriminate|].
  destruct (str_eqb (file_ext str_lower file_path) (u ".png")) eqn:E4;
    [discriminate|].
  destruct (str_eqb (file_ext str_lower file_path) (u ".csv")) eqn:E5;
    [discriminate|].
  intros _ H.
  repeat (destruct H as [H|H];
          [symmetry in H; apply AnalyzerFacts.str_eqb_eq in H; congruence|]).
  exact H.
Qed.

End WithCollaborators.

End AnalyzerMore.

(** X15.  What every run of the analyzer keeps.  At most three calls are
    made.  An error report comes with no call of an extraction strategy:
    either no call at all, the extension being none of the five, or the
    single text-extraction call, made on the given path for its extension
    and answered with [None].  A success report carries the assessment of
    exactly the entries it lists; the first call was the text extraction
    for the extension, on the given path; GenAI was then called once, on
    the very text that call returned; the entries are its list, or, when it
    answered [None] or raised, those of the pattern extractor, called next
    on the same text. *)
Theorem analyzer_invariants
    (str_lower : str -> str)
    (extract_text_from_pdf extract_text_from_image parse_csv
       : str -> option str)
    (genai : str -> result (option (list biomarker)))
    (file_path : str) :
  let (calls, rep) :=
    analyze_report str_lower extract_text_from_pdf extract_text_from_image
                   parse_csv genai file_path in
  (List.length calls <= 3)%nat
  /\ match rep with
     | Error _ =>
         (calls = []
          /\ ~ In (file_ext str_lower file_path) supported_exts)
         \/ exists c,
              calls = [c]
              /\ call_path c = Some file_path
              /\ In (file_ext str_lower file_path) (call_exts c)
              /\ call_answer extract_text_from_pdf extract_text_from_image
                             parse_csv c = None
     | Success bs ra =>
         ra = assess_biomarker_risk bs
         /\ exists c text,
              call_path c = Some file_path
              /\ In (file_ext str_lower file_path) (call_exts c)
              /\ call_answer extract_text_from_pdf extract_text_from_image
                             parse_csv c = Some text
              /\ ((calls = [c; CallGenAI text]
                   /\ genai text = Ok (Some bs))
                  \/ (calls = [c; CallGenAI text; CallPattern text]
                      /\ bs = extract_biomarkers_from_text (Some text)
                      /\ (genai text = Ok None
                          \/ exists e, genai text = Raise e)))
     end.
Proof.
  unfold analyze_report.
  destruct (dispatch str_lower extract_text_from_pdf extract_text_from_image
              parse_csv file_path) as [[c [text|]]|] eqn:Ed.
  - apply (AnalyzerMore.dispatch_call str_lower extract_text_from_pdf
             extract_text_from_image parse_csv) in Ed.
    destruct Ed as [Hp [He Ha]].
    pose proof (AnalyzerMore.choose_shape genai text) as Hs.
    destruct (choose_biomarkers genai text) as [calls bs].
    destruct Hs as [[-> Hg]|[-> [-> Hg]]].
    + split; [cbn; lia|]. split; [reflexivity|].
      exists c, text. repeat split; try assumption. left. split;
        [reflexivity|exact Hg].
    + split; [cbn; lia|]. split; [reflexivity|].
      exists c, text. repeat split; try assumption. right.
      split; [reflexivity|]. split; [reflexivity|exact Hg].
  - apply (AnalyzerMore.dispatch_call str_lower extract_text_from_pdf
             extract_text_from_image parse_csv) in Ed.
    destruct Ed as [Hp [He Ha]].
    split; [cbn; lia|]. right. exists c. repeat split; assumption.
  - apply (AnalyzerMore.dispatch_none str_lower extract_text_from_pdf
             extract_text_from_image parse_csv) in Ed.
    split; [cbn; lia|]. left. split; [reflexivity|exact Ed].
Qed.

(** X16.  The analyzer cannot tell a GenAI extractor that raises from one
    that answers [None], nor either from a run without GenAI: when the two
    extractors agree on every answer that is a list, the two runs give the
    same report for every path. *)
Theorem genai_failure_is_null
    (str_lower : str -> str)
    (extract_text_from_pdf extract_text_from_image parse_csv
       : str -> option str)
    (genai1 genai2 : str -> result (option (list biomarker)))
    (file_path : str) :
  (forall text bs, genai1 text = Ok (Some bs) <-> genai2 text = Ok (Some bs))
  ->
  snd (analyze_report str_lower extract_text_from_pdf
         extract_text_from_image parse_csv genai1 file_path)
  = snd (analyze_report str_lower extract_text_from_pdf
           extract_text_from_image parse_csv genai2 file_path).
Proof.
  intro H. unfold analyze_report.
  destruct (dispatch str_lower extract_text_from_pdf extract_text_from_image
              parse_csv file_path) as [[c [text|]]|]; try reflexivity.
  unfold choose_biomarkers.
  destruct (genai1 text) as [[bs1|]|e1] eqn:E1.
  - apply H in E1. rewrite E1. reflexivity.
  - destruct (genai2 text) as [[bs2|]|e2] eqn:E2; try reflexivity.
    apply H in E2. congruence.
  - destruct (genai2 text) as [[bs2|]|e2] eqn:E2; try reflexivity.
    apply H in E2. congruence.
Qed.

Lemma genai_failure_is_null_witness :
  snd (analyze_report ascii_str_lower
         (fun _ => Some nfl_text) no_text no_text genai_raises
         (u "report.pdf"))
  = snd (analyze_report ascii_str_lower
           (fun _ => Some nfl_text) no_text no_text genai_unavailable
           (u "report.pdf")).
Proof.
  apply (genai_failure_is_null ascii_str_lower
           (fun _ => Some nfl_text) no_text no_text
           genai_raises genai_unavailable (u "report.pdf")).
  intros text bs. unfold genai_raises, genai_unavailable.
  split; intro H; discriminate H.
Defined.

(** ** The JSON array in the reply *)

Module ReplyFacts.

Lemma in_star_suffix (p : char -> bool) (s : str) (g : option str)
    (s' : str) :
  In (g, s') (star p s) ->
  exists w, s = w ++ s' /\ forallb p w = true.
Proof.
  induction s as [|c t IH]; cbn [star].
  - intros [H|[]]. inversion H; subst. exists []. split; reflexivity.
  - destruct (p c) eqn:Hp.
    + rewrite in_app_iff. intros [H|[H|[]]].
      * destruct (IH H) as [w [Hw Hf]]. exists (c :: w).
        cbn [app forallb]. rewrite Hp, Hf, <- Hw. split; reflexivity.
      * inversion H; subst. exists []. split; reflexivity.
    + intros [H|[]]. inversion H; subst. exists []. split; reflexivity.
Qed.

Lemma closing_inv (y : str) (o : option str * str) :
  In o (rmatch closing y) ->
  exists w, y = 125%N :: w ++ 93%N :: snd o /\ forallb isspace w = true.
Proof.
  destruct o as [g s']. unfold closing. cbn [rmatch snd].
  intro H. apply RegexFacts.in_and_then in H.
  destruct H as [g1 [s1 [g2 [H1 [H2 _]]]]].
  destruct y as [|c t]; [destruct H1|].
  unfold is_char in H1 at 1.
  destruct (c =? 125)%N eqn:Ec; [|destruct H1].
  apply N.eqb_eq in Ec. subst c.
  destruct H1 as [H1|[]]. inversion H1; subst g1 s1; clear H1.
  apply RegexFacts.in_and_then in H2.
  destruct H2 as [g3 [s3 [g4 [H3 [H4 _]]]]].
  apply in_star_suffix in H3. destruct H3 as [w [Hw Hf]].
  destruct s3 as [|d t3]; [destruct H4|].
  unfold is_char in H4.
  destruct (d =? 93)%N eqn:Ed; [|destruct H4].
  apply N.eqb_eq in Ed. subst d.
  destruct H4 as [H4|[]]. inversion H4; subst.
  exists w. split; [reflexivity|exact Hf].
Qed.

Lemma closing_head (ws post : str) :
  forallb isspace ws = true ->
  hd_error (rmatch closing (125%N :: ws ++ 93%N :: post)) = Some (None, post).
Proof.
  intro Hw. unfold closing.
  change (rmatch (Cat (Chr (is_char 125))
                      (Cat (Star isspace) (Chr (is_char 93))))
                 (125%N :: ws ++ 93%N :: post))
    with (and_then (rmatch (Chr (is_char 125)) (125%N :: ws ++ 93%N :: post))
            (fun s => and_then (star isspace s) (rmatch (Chr (is_char 93))))).
  rewrite (HeadFacts.chr_takes (is_char 125) 125%N _ eq_refl).
  rewrite SearchFacts.and_then_single.
  apply (HeadFacts.hd_and_then (star isspace (ws ++ 93%N :: post))
           (rmatch (Chr (is_char 93))) (None, 93%N :: post) (None, post)).
  - apply HeadFacts.star_head; [exact Hw|reflexivity].
  - reflexivity.
Qed.

Lemma lacks_in (x : char) (s : str) : lacks x s = true -> ~ In x s.
Proof.
  unfold lacks. intros H Hin.
  rewrite forallb_forall in H. specialize (H x Hin).
  rewrite N.eqb_refl in H. discriminate.
Qed.

(** The closing part matches at no later place. *)
Lemma closing_last (ws post x y : str) :
  forallb isspace ws = true ->
  lacks 93 post = true ->
  125%N :: ws ++ 93%N :: post = x ++ y -> x <> [] ->
  rmatch closing y = [].
Proof.
  intros Hw Hp E Hx.
  destruct (rmatch closing y) as [|o l] eqn:Er; [reflexivity|exfalso].
  destruct (closing_inv y o) as [w [Hy _]]; [rewrite Er; left; reflexivity|].
  destruct x as [|c x']; [congruence|]. clear Hx.
  cbn [app] in E. inversion E as [[Hc E']]. clear E Hc.
  apply app_eq_app in E'. destruct E' as [l' [[E1 E2]|[E1 E2]]].
  - (* y starts inside the white space or right after it *)
    destruct l' as [|d l''].
    + cbn [app] in E2. rewrite Hy in E2. discriminate.
    + rewrite E1, forallb_app in Hw. apply andb_true_iff in Hw.
      destruct Hw as [_ Hw]. cbn [forallb] in Hw.
      apply andb_true_iff in Hw. destruct Hw as [Hd _].
      rewrite Hy in E2. cbn [app] in E2. inversion E2; subst d.
      vm_compute in Hd. discriminate.
  - (* y starts at or after the closing bracket *)
    destruct l' as [|d l''].
    + cbn [app] in E2. rewrite Hy in E2. discriminate.
    + cbn [app] in E2. inversion E2 as [[Hd E3]].
      apply (lacks_in 93 post Hp).
      rewrite E3, Hy. apply in_or_app. right. right.
      apply in_or_app. right. left. reflexivity.
Qed.

(** A greedy [[\s\S]*] gives back as little as the continuation needs. *)
Lemma star_any_fails (k : str -> list (option str * str)) (t : str) :
  (forall x y, t = x ++ y -> k y = []) ->
  and_then (star any_char t) k = [].
Proof.
  intro H.
  destruct (and_then (star any_char t) k) as [|[g s'] l] eqn:E;
    [reflexivity|exfalso].
  assert (Hin : In (g, s') (and_then (star any_char t) k))
    by (rewrite E; left; reflexivity).
  apply RegexFacts.in_and_then in Hin.
  destruct Hin as [g1 [s1 [g2 [H1 [H2 _]]]]].
  apply in_star_suffix in H1. destruct H1 as [w [Hw _]].
  rewrite (H w s1 Hw) in H2. destruct H2.
Qed.

Lemma star_any_last (k : str -> list (option str * str)) (a b : str)
    (o : option str * str) :
  hd_error (k b) = Some o ->
  (forall x y, b = x ++ y -> x <> [] -> k y = []) ->
  hd_error (and_then (star any_char (a ++ b)) k) = Some o.
Proof.
  intros Ho Hlast.
  assert (Hb : hd_error (and_then (star any_char b) k) = Some o).
  { destruct b as [|c t].
    - cbn [star]. rewrite SearchFacts.and_then_single. exact Ho.
    - cbn [star any_char]. rewrite SearchFacts.and_then_app.
      rewrite star_any_fails.
      + cbn [app]. rewrite SearchFacts.and_then_single. exact Ho.
      + intros x y E. apply (Hlast (c :: x) y); [rewrite E; reflexivity|].
        discriminate. }
  induction a as [|c a IH]; [exact Hb|].
  cbn [app star any_char].
  rewrite SearchFacts.and_then_app, SearchFacts.hd_error_app, IH.
  reflexivity.
Qed.

Lemma array_head (ws1 body ws2 post : str) :
  forallb isspace ws1 = true ->
  forallb isspace ws2 = true ->
  lacks 93 post = true ->
  hd_error (rmatch json_array_rx (json_array ws1 body ws2 ++ post))
  = Some (Some (json_array ws1 body ws2), post).
Proof.
  intros H1 H2 Hp.
  set (arr := json_array ws1 body ws2).
  set (b := 125%N :: ws2 ++ 93%N :: post).
  set (t2 := 123%N :: body ++ b).
  assert (Es : arr ++ post = 91%N :: ws1 ++ t2).
  { unfold arr, json_array, t2, b. cbn [app].
    repeat (rewrite <- app_assoc; cbn [app]). reflexivity. }
  assert (Hr : hd_error
                 (rmatch (Cat (Chr (is_char 91))
                         (Cat (Star isspace)
                         (Cat (Chr (is_char 123))
                         (Cat (Star any_char) closing))))
                         (arr ++ post))
               = Some (None, post)).
  { rewrite Es.
    change (rmatch (Cat (Chr (is_char 91))
                   (Cat (Star isspace)
                   (Cat (Chr (is_char 123))
                   (Cat (Star any_char) closing))))
                   (91%N :: ws1 ++ t2))
      with (and_then (rmatch (Chr (is_char 91)) (91%N :: ws1 ++ t2))
              (fun s => and_then (star isspace s)
                 (fun s1 => and_then (rmatch (Chr (is_char 123)) s1)
                    (fun s2 => and_then (star any_char s2)
                                        (rmatch closing))))).
    rewrite (HeadFacts.chr_takes (is_char 91) 91%N _ eq_refl).
    rewrite SearchFacts.and_then_single.
    apply (HeadFacts.hd_and_then (star isspace (ws1 ++ t2)) _
             (None, t2) (None, post)).
    - apply HeadFacts.star_head; [exact H1|reflexivity].
    - cbn [snd]. unfold t2.
      rewrite (HeadFacts.chr_takes (is_char 123) 123%N _ eq_refl).
      rewrite SearchFacts.and_then_single.
      apply star_any_last.
      + apply closing_head. exact H2.
      + intros x y E Hx. exact (closing_last ws2 post x y H2 Hp E Hx). }
  unfold json_array_rx. fold closing.
  change (rmatch (Grp ?r) ?s)
    with (map (fun o : option str * str => (Some (consumed s (snd o)), snd o))
              (rmatch r s)).
  destruct (rmatch _ (arr ++ post)) as [|o l]; [discriminate|].
  cbn [hd_error] in Hr. inversion Hr; subst o.
  cbn [map hd_error snd]. rewrite RegexFacts.firstn_consumed. reflexivity.
Qed.

Lemma no_array_start (c : char) (t : str) :
  (c =? 91)%N = false -> rmatch json_array_rx (c :: t) = [].
Proof.
  intro H. unfold json_array_rx. cbn [rmatch]. unfold is_char at 1.
  rewrite H. reflexivity.
Qed.

Lemma search_array (pre ws1 body ws2 post : str) :
  lacks 91 pre = true ->
  forallb isspace ws1 = true ->
  forallb isspace ws2 = true ->
  lacks 93 post = true ->
  search json_array_rx (pre ++ json_array ws1 body ws2 ++ post)
  = Some (Some (json_array ws1 body ws2)).
Proof.
  intros Hpre H1 H2 Hp. induction pre as [|c pre IH].
  - cbn [app].
    exact (SearchFacts.search_head json_array_rx _ _
             (array_head ws1 body ws2 post H1 H2 Hp)).
  - unfold lacks in Hpre. cbn [forallb] in Hpre.
    apply andb_true_iff in Hpre. destruct Hpre as [Hc Hpre].
    apply negb_true_iff in Hc.
    cbn [app]. rewrite SearchFacts.search_step.
    + apply IH. exact Hpre.
    + rewrite (no_array_start c _ Hc). reflexivity.
Qed.

End ReplyFacts.

(** X17.  Prose around the JSON array is ignored.  When the reply holds an
    array of objects, the text before its opening bracket (free of [[]) and
    the text after its closing bracket (free of []]) do not reach the JSON
    parser: the search selects the array, from the first opening bracket to
    the last closing one, and the result is that of a reply made of the
    array alone. *)
Theorem reply_prose_ignored
    (json_loads : str -> result pyval)
    (str_to_float : str -> option pyfloat)
    (str_lower : str -> str)
    (g1 g2 : client) (env : environ) (text : str)
    (pre ws1 body ws2 post : str) :
  lacks 91 pre = true ->
  lacks 93 post = true ->
  forallb isspace ws1 = true ->
  forallb isspace ws2 = true ->
  chat_content g1 (build_prompt text)
  = Ok (VStr (pre ++ json_array ws1 body ws2 ++ post)) ->
  chat_content g2 (build_prompt text) = Ok (VStr (json_array ws1 body ws2)) ->
  search json_array_rx (pre ++ json_array ws1 body ws2 ++ post)
  = Some (Some (json_array ws1 body ws2))
  /\ genai_extract_biomarkers json_loads str_to_float str_lower
       (Some g1) env text
     = genai_extract_biomarkers json_loads str_to_float str_lower
         (Some g2) env text.
Proof.
  intros Hpre Hpost H1 H2 Hc1 Hc2.
  pose proof (ReplyFacts.search_array pre ws1 body ws2 post Hpre H1 H2 Hpost)
    as S1.
  pose proof (ReplyFacts.search_array [] ws1 body ws2 [] eq_refl H1 H2
                eq_refl) as S2.
  cbn [app] in S2. rewrite app_nil_r in S2.
  split; [exact S1|].
  unfold genai_extract_biomarkers.
  match goal with
  | |- match ?k with _ => _ end = _ => destruct k as [[|c k']|]
  end; try reflexivity.
  unfold extraction. rewrite Hc1, Hc2. cbn [try_except bind].
  rewrite S1, S2. reflexivity.
Qed.

Lemma reply_prose_ignored_witness :
  genai_extract_biomarkers sample_json_loads py_float ascii_str_lower
    (Some (replying_client
             (u "Here it is: " ++ sample_reply ++ u " Done.")))
    sample_env nfl_text
  = genai_extract_biomarkers sample_json_loads py_float ascii_str_lower
      (Some (replying_client sample_reply)) sample_env nfl_text.
Proof.
  apply (reply_prose_ignored sample_json_loads py_float ascii_str_lower
           (replying_client (u "Here it is: " ++ sample_reply ++ u " Done."))
           (replying_client sample_reply) sample_env nfl_text
           (u "Here it is: ") []
           (quote ++ u "name" ++ quote ++ u ": " ++ quote ++ u "TSH" ++ quote
            ++ u ", " ++ quote ++ u "value" ++ quote ++ u ": " ++ quote
            ++ u "n/a" ++ quote)
           [] (u " Done.")).
  - reflexivity.
  - reflexivity.
  - reflexivity.
  - reflexivity.
  - reflexivity.
  - reflexivity.
Defined.

(** ** The risk scorer on the entries of the GenAI extractor *)

Module PipelineFacts.

Lemma count_entry_hashable (c : counters) (e : genai_entry) :
  unhashable (e_name e) = false ->
  count_entry c e = Ok (count_step c (biomarker_of_entry e)).
Proof.
  unfold count_entry, count_step, biomarker_of_entry.
  cbn [name value].
  destruct (e_name e) as [| | | |s|l|d]; try discriminate; intros _;
    try reflexivity.
  cbn [registry_lookup bind].
  destruct (dict_get BIOMARKER_RANGES s) as [i|]; [|reflexivity].
  destruct (float_ltb (e_value e) (min i)); [reflexivity|].
  destruct (float_gtb (e_value e) (max i)); reflexivity.
Qed.

Lemma count_entry_unhashable (c : counters) (e : genai_entry) :
  unhashable (e_name e) = true -> count_entry c e = Raise TypeError.
Proof.
  unfold count_entry.
  destruct (e_name e); try discriminate; reflexivity.
Qed.

Lemma count_entries_spec (es : list genai_entry) :
  forall c,
    count_entries es c
    = if existsb (fun e => unhashable (e_name e)) es then Raise TypeError
      else Ok (fold_left count_step (map biomarker_of_entry es) c).
Proof.
  induction es as [|e es IH]; intro c; [reflexivity|].
  cbn [count_entries existsb map fold_left].
  destruct (unhashable (e_name e)) eqn:E.
  - rewrite (count_entry_unhashable c e E). reflexivity.
  - rewrite (count_entry_hashable c e E). cbn [bind orb]. apply IH.
Qed.

Lemma collect_keeps (str_to_float : str -> option pyfloat)
    (str_lower : str -> str) (items : list pyval) (item : pyval)
    (e : genai_entry) :
  In item items ->
  process_item str_to_float str_lower item = Ok (Some e) ->
  forall acc es,
    collect str_to_float str_lower items acc = Ok es -> In e es.
Proof.
  intros Hin Hp.
  assert (Hacc : forall items acc es x,
             collect str_to_float str_lower items acc = Ok es ->
             In x acc -> In x es).
  { clear. induction items as [|i items IH]; intros acc es x H Hx.
    - cbn in H. inversion H; subst. exact Hx.
    - cbn [collect] in H.
      destruct (process_item str_to_float str_lower i) as [[e'|]|e'];
        cbn [bind] in H; [| |discriminate].
      + apply (IH _ _ x H). apply in_or_app. left. exact Hx.
      + exact (IH _ _ x H Hx). }
  induction items as [|i items IH]; [destruct Hin|].
  intros acc es H. cbn [collect] in H.
  destruct Hin as [->|Hin].
  - rewrite Hp in H. cbn [bind] in H.
    apply (Hacc _ _ _ e H). apply in_or_app. right. left. reflexivity.
  - destruct (process_item str_to_float str_lower i) as [[e'|]|e'];
      cbn [bind] in H; [| |discriminate]; exact (IH Hin _ _ H).
Qed.

Lemma falsy_name_kept (str_lower : str -> str) (name : pyval)
    (d : list (str * info)) :
  truthy name = false -> normalize_name str_lower name d = Ok None.
Proof.
  intro H. induction d as [|[k i] d IH]; [reflexivity|].
  cbn [normalize_name]. rewrite H. exact IH.
Qed.

Lemma assess_spec (es : list genai_entry) :
  assess_entries es
  = if existsb (fun e => unhashable (e_name e)) es then Raise TypeError
    else Ok (assess_biomarker_risk (map biomarker_of_entry es)).
Proof.
  destruct es as [|e es]; [reflexivity|].
  unfold assess_entries, assess_biomarker_risk, count_loop.
  rewrite count_entries_spec.
  destruct (existsb _ (e :: es)); [reflexivity|].
  cbn [bind map].
  set (c := fold_left count_step _ _).
  destruct (Nat.eqb (abnormal_count c) 0); [reflexivity|].
  destruct (Nat.eqb (abnormal_count c) 1); [reflexivity|].
  destruct (Nat.leb (abnormal_count c) 3); reflexivity.
Qed.

End PipelineFacts.

(** X18.  The scorer on entries whose names are arbitrary objects.  It
    raises exactly when some entry has a name that cannot be hashed (a list
    or a dict), and then a [TypeError]; otherwise it returns what the
    scorer returns on the same entries with every name that is not a
    string read as no name. *)
Theorem assess_entries_spec (es : list genai_entry) :
  assess_entries es
  = if existsb (fun e => unhashable (e_name e)) es then Raise TypeError
    else Ok (assess_biomarker_risk (map biomarker_of_entry es)).
Proof. exact (PipelineFacts.assess_spec es). Qed.

(** X19.  A reply the analyzer does not survive.  An object whose name
    (the key [name] or, when that is empty, the key [biomarker]) is an
    empty list or an empty object, and whose value converts, passes the
    GenAI extractor with its name unchanged (an empty name is never
    lower-cased).  When the extractor returns a list, the scorer raises a
    [TypeError] on it, and so does [analyze_report]: the scorer is called
    outside every [try]. *)
Theorem empty_list_name_raises
    (json_loads : str -> result pyval)
    (str_to_float : str -> option pyfloat)
    (str_lower : str -> str)
    (extract_text_from_pdf extract_text_from_image parse_csv
       : str -> option str)
    (g : client) (env : environ) (file_path text reply : str) (c : call)
    (d : list (str * pyval)) (items : list pyval) (v : pyfloat)
    (es : list genai_entry) :
  dispatch str_lower extract_text_from_pdf extract_text_from_image parse_csv
           file_path = Some (c, Some text) ->
  client_content g text = Ok (VStr reply) ->
  json_loads (reply_source reply) = Ok (VList items) ->
  In (VDict d) items ->
  item_name d = VList [] \/ item_name d = VDict [] ->
  coerce_value str_to_float (item_value d) = Ok v ->
  genai_extract_biomarkers json_loads str_to_float str_lower (Some g) env text
  = Ok (Some es) ->
  (exists e, In e es /\ e_name e = item_name d /\ e_value e = v)
  /\ assess_entries es = Raise TypeError
  /\ analyze_report_entries str_lower extract_text_from_pdf
       extract_text_from_image parse_csv
       (genai_extract_biomarkers json_loads str_to_float str_lower
          (Some g) env)
       file_path
     = Raise TypeError.
Proof.
  intros Hd Hc Hj Hin Hname Hv Hres.
  assert (Hf : truthy (item_name d) = false)
    by (destruct Hname as [-> | ->]; reflexivity).
  assert (Hu : unhashable (item_name d) = true)
    by (destruct Hname as [-> | ->]; reflexivity).
  pose (e := {| e_name := item_name d; e_value := v;
                e_unit := match assoc d (u "unit") with
                          | Some x => x
                          | None => VNone
                          end |}).
  assert (Hp : process_item str_to_float str_lower (VDict d) = Ok (Some e)).
  { rewrite GenAIMore.process_dict, Hv.
    rewrite (PipelineFacts.falsy_name_kept str_lower _ _ Hf). reflexivity. }
  assert (Hcol : collect str_to_float str_lower items [] = Ok es).
  { unfold genai_extract_biomarkers in Hres.
    match type of Hres with
    | match ?k with _ => _ end = _ => destruct k as [[|c0 k']|]
    end; try discriminate.
    rewrite (GenAIMore.reply_parsed json_loads str_to_float str_lower
               g (c0 :: k') text reply (VList items) Hc Hj) in Hres.
    cbn [py_iter bind] in Hres.
    destruct (collect str_to_float str_lower items []) as [r|ex];
      [|discriminate].
    cbn [bind try_except] in Hres. congruence. }
  assert (He : In e es)
    by exact (PipelineFacts.collect_keeps str_to_float str_lower items
                (VDict d) e Hin Hp [] es Hcol).
  assert (Hr : assess_entries es = Raise TypeError).
  { rewrite PipelineFacts.assess_spec.
    replace (existsb (fun e0 => unhashable (e_name e0)) es) with true;
      [reflexivity|].
    symmetry. apply existsb_exists. exists e. split; [exact He|exact Hu]. }
  split.
  { exists e. split; [exact He|]. split; reflexivity. }
  split; [exact Hr|].
  unfold analyze_report_entries. rewrite Hd, Hres.
  cbn [entries_of]. rewrite Hr. reflexivity.
Qed.

Lemma empty_list_name_raises_witness :
  genai_extract_biomarkers
    (replay_json_loads list_name_reply (VList [VDict list_name_object]))
    py_float ascii_str_lower
    (Some (replying_client list_name_reply)) sample_env nfl_text
  = Ok (Some [list_name_entry])
  /\ analyze_report_entries ascii_str_lower no_text no_text
       (fun _ => Some nfl_text)
       (genai_extract_biomarkers
          (replay_json_loads list_name_reply (VList [VDict list_name_object]))
          py_float ascii_str_lower
          (Some (replying_client list_name_reply)) sample_env)
       (u "report.csv")
     = Raise TypeError.
Proof.
  assert (R : genai_extract_biomarkers
                (replay_json_loads list_name_reply
                   (VList [VDict list_name_object]))
                py_float ascii_str_lower
                (Some (replying_client list_name_reply)) sample_env nfl_text
              = Ok (Some [list_name_entry]))
    by (vm_compute; reflexivity).
  split; [exact R|].
  apply (empty_list_name_raises
           (replay_json_loads list_name_reply
              (VList [VDict list_name_object]))
           py_float ascii_str_lower no_text no_text (fun _ => Some nfl_text)
           (replying_client list_name_reply) sample_env
           (u "report.csv") nfl_text list_name_reply
           (CallCsv (u "report.csv"))
           list_name_object [VDict list_name_object] (int_lit 1)
           [list_name_entry]).
  - vm_compute; reflexivity.
  - reflexivity.
  - vm_compute; reflexivity.
  - left; reflexivity.
  - left; vm_compute; reflexivity.
  - vm_compute; reflexivity.
  - exact R.
Defined.

(** X3.  More entries never lower the assessment.  Whenever the scorer
    returns on a list with entries added before and after, it returns on
    the list itself, with a score and a risk level that are not higher; it
    raises on the longer list only with a [TypeError], when one of the
    entries has a name that cannot be hashed. *)
Theorem risk_grows_with_entries (pre bs post : list genai_entry) :
  match assess_entries (pre ++ bs ++ post) with
  | Ok more =>
      exists less,
        assess_entries bs = Ok less
        /\ (score less <= score more)%Z
        /\ risk_rank (risk less) <= risk_rank (risk more)
  | Raise e =>
      e = TypeError
      /\ existsb (fun x => unhashable (e_name x)) (pre ++ bs ++ post) = true
  end.
Proof.
  rewrite (PipelineFacts.assess_spec (pre ++ bs ++ post)).
  destruct (existsb (fun x => unhashable (e_name x)) (pre ++ bs ++ post))
    eqn:E; [split; reflexivity|].
  rewrite !existsb_app in E.
  apply orb_false_iff in E. destruct E as [_ E].
  apply orb_false_iff in E. destruct E as [E _].
  rewrite (PipelineFacts.assess_spec bs), E.
  eexists. split; [reflexivity|].
  rewrite !map_app.
  exact (typed_risk_grows (map biomarker_of_entry pre)
           (map biomarker_of_entry bs) (map biomarker_of_entry post)).
Qed.

(** C1.  The risk scorer on the lists it is given.  On every list none of
    whose names is a list or an object, the scorer returns the contract's
    table for the number of entries whose name is a registry key and whose
    value is strictly below min or strictly above max.  On the other lists
    it raises a [TypeError] where the contract says the entry is ignored.
    Such a list is one the scorer really receives: the GenAI extractor
    returns the entry named by the empty list for [list_name_reply], a
    reply of one object whose key biomarker holds the empty list and whose
    value is 1; the contract's answer for that entry is low/10. *)
Theorem risk_scorer_contract :
  (forall es,
      assess_entries es
      = if existsb (fun e => unhashable (e_name e)) es then Raise TypeError
        else Ok (spec_risk (map biomarker_of_entry es)))
  /\ genai_extract_biomarkers
       (replay_json_loads list_name_reply (VList [VDict list_name_object]))
       py_float ascii_str_lower
       (Some (replying_client list_name_reply)) sample_env nfl_text
     = Ok (Some [list_name_entry])
  /\ assess_entries [list_name_entry] = Raise TypeError
  /\ spec_risk (map biomarker_of_entry [list_name_entry])
     = {| risk := low; score := 10 |}.
Proof.
  split.
  { intro es. rewrite PipelineFacts.assess_spec.
    rewrite RiskFacts.assess_is_spec_risk. reflexivity. }
  split; [vm_compute; reflexivity|].
  split; reflexivity.
Qed.
